(** * Shallow embedding of the CloudHack outreach agent core

    Sources embedded here:
    - src/server/agents/orchestrator.js      (AgentOrchestrator: task queue)
    - src/server/agents/responseAgent.js     (ResponseAgent, StageAgent, db schema)
    - src/unnamed/part_002                   (OutreachAgent)
    - src/client/tailwind.config.js          (FollowupAgent, appended to that file)
    - src/server/routes/campaigns.js         (inbound reply webhook)

    Rows of the SQLite tables are Rocq records; a table is a list of rows,
    and an [UPDATE ... WHERE id = ?] is a [map] over that list.  Timestamps
    ([CURRENT_TIMESTAMP], [datetime('now')]) are integers supplied as the
    current time [now].  Collaborators (LLM, email delivery) are oracles. *)

From Stdlib Require Import String Ascii List ZArith Lia Bool Sorting.Permutation
  Sorting.Sorted DecimalString DecimalZ DecimalPos.
Import ListNotations.
Set Warnings "-register-all".
Open Scope string_scope.
Open Scope Z_scope.

(** ** JavaScript helpers *)

(** Outcome of an awaited call: a rejected promise / thrown error, or a value. *)
Inductive js_result (A : Type) : Type :=
| Thrown : string -> js_result A
| Returned : A -> js_result A.
Arguments Thrown {A} _.
Arguments Returned {A} _.

Definition in_strings (s : string) (l : list string) : bool :=
  existsb (String.eqb s) l.

(** Number-to-string conversion of integers in template literals. *)
Definition z_to_string (z : Z) : string := NilEmpty.string_of_int (Z.to_int z).
Definition z_of_string (s : string) : option Z :=
  option_map Z.of_int (NilEmpty.int_of_string s).

(** ** The agent_tasks table (schema in responseAgent.js, [initializeDatabase]) *)

Record task := mkTask {
  t_id : Z;
  t_prospect_id : Z;
  t_agent_type : string;
  t_status : string;             (* status TEXT DEFAULT 'pending' *)
  t_scheduled_for : option Z;    (* scheduled_for DATETIME, NULL allowed *)
  t_payload : option string;     (* payload TEXT *)
  t_result : option string;
  t_error : option string;
  t_attempts : Z;                (* attempts INTEGER DEFAULT 0 *)
  t_created_at : Z;              (* created_at DEFAULT CURRENT_TIMESTAMP *)
  t_completed_at : option Z
}.

(** Payload values with JSON.parse / JSON.stringify and the empty object
    [{}]; agent results with JSON.stringify.  Instances are given below. *)
Class JSONCodec (V : Type) := {
  json_parse : string -> option V;     (* None: SyntaxError thrown *)
  json_stringify : V -> string;
  empty_obj : V
}.
Class ResultCodec (R : Type) := {
  stringify_result : R -> option string  (* None: the result is falsy *)
}.

Module Orchestrator.
Section Orchestrator.

Context {Payload : Type} `{JSONCodec Payload}.
Context {Result : Type} `{ResultCodec Result}.

(** An agent's [execute(prospectId, payload)]. *)
Definition agent := Z -> Payload -> js_result Result.

(** [this.agents] is a [Map]; [registerAgent] = [Map.set], later wins. *)
Definition registry := list (string * agent).

Definition registerAgent (reg : registry) (name : string) (a : agent) : registry :=
  (name, a) :: reg.

Fixpoint getAgent (reg : registry) (name : string) : option agent :=
  match reg with
  | [] => None
  | (n, a) :: reg' => if String.eqb n name then Some a else getAgent reg' name
  end.

(** [queueTask({agentType, prospectId, payload = {}, scheduledFor = null})]:
    the inserted row, with the columns' defaults.  [payload = None] is the
    absent (undefined) argument, replaced by the default [{}]. *)
Definition queueTask (id : Z) (now : Z) (agentType : string) (prospectId : Z)
    (payload : option Payload) (scheduledFor : option Z) : task :=
  let p := match payload with Some p => p | None => empty_obj end in
  {| t_id := id; t_prospect_id := prospectId; t_agent_type := agentType;
     t_status := "pending"; t_scheduled_for := scheduledFor;
     t_payload := Some (json_stringify p); t_result := None; t_error := None;
     t_attempts := 0; t_created_at := now; t_completed_at := None |}.

(** [updateTaskStatus(taskId, status, result = null, error = null)] on the
    row: every call also runs [attempts = attempts + 1]. *)
Definition updateTaskStatus (now : Z) (t : task) (status : string)
    (result : option string) (error : option string) : task :=
  {| t_id := t_id t; t_prospect_id := t_prospect_id t;
     t_agent_type := t_agent_type t; t_status := status;
     t_scheduled_for := t_scheduled_for t; t_payload := t_payload t;
     t_result := result; t_error := error;
     t_attempts := t_attempts t + 1; t_created_at := t_created_at t;
     t_completed_at :=
       if in_strings status ["completed"; "failed"] then Some now else None |}.

(** [task.payload ? JSON.parse(task.payload) : {}]; the empty string is
    falsy as well. *)
Definition decodePayload (stored : option string) : option Payload :=
  match stored with
  | None => Some empty_obj
  | Some s => if String.eqb s "" then Some empty_obj else json_parse s
  end.

Definition parse_error_message : string := "Unexpected token in JSON".

(** [processTask(task)]: the task row after the call, and the arguments
    [execute] was called with, if it was called.  [t] is both the drained
    row object [task] and the stored row it designates (they agree when the
    task is dispatched right after being drained). *)
Definition processTask (reg : registry) (now : Z) (t : task)
    : task * option (Z * Payload) :=
  match getAgent reg (t_agent_type t) with
  | None =>
      (updateTaskStatus now t "failed" None
         (Some ("No agent for type: " ++ t_agent_type t)%string), None)
  | Some a =>
      let t1 := updateTaskStatus now t "processing" None None in
      let on_error msg :=
        if t_attempts t <? 3
        then updateTaskStatus now t1 "pending" None (Some msg)
        else updateTaskStatus now t1 "failed" None (Some msg) in
      match decodePayload (t_payload t) with
      | None => (on_error parse_error_message, None)
      | Some p =>
          match a (t_prospect_id t) p with
          | Returned r =>
              (updateTaskStatus now t1 "completed" (stringify_result r) None,
               Some (t_prospect_id t, p))
          | Thrown msg => (on_error msg, Some (t_prospect_id t, p))
          end
      end
  end.

(** Drain predicate of [getPendingTasks]:
    [status = 'pending' AND (scheduled_for IS NULL OR scheduled_for <= now)]. *)
Definition is_due (now : Z) (t : task) : bool :=
  String.eqb (t_status t) "pending" &&
  match t_scheduled_for t with None => true | Some s => s <=? now end.

Definition created_le (a b : task) : Prop := t_created_at a <= t_created_at b.

(** [SELECT ... WHERE due ORDER BY created_at ASC LIMIT ?]: SQL fixes no
    order among rows with equal [created_at], so the query result is any
    [LIMIT]-prefix of a [created_at]-sorted permutation of the due rows. *)
Definition getPendingTasks_result (now : Z) (limit : nat) (table out : list task)
    : Prop :=
  exists sorted,
    Permutation sorted (filter (is_due now) table) /\
    Sorted created_le sorted /\
    out = firstn limit sorted.

(** One evaluation order SQLite may use: a stable insertion sort. *)
Fixpoint insert_by_created (t : task) (l : list task) : list task :=
  match l with
  | [] => [t]
  | x :: l' => if t_created_at t <=? t_created_at x then t :: l
               else x :: insert_by_created t l'
  end.

Fixpoint sort_by_created (l : list task) : list task :=
  match l with
  | [] => []
  | x :: l' => insert_by_created x (sort_by_created l')
  end.

Definition getPendingTasks (now : Z) (limit : nat) (table : list task) : list task :=
  firstn limit (sort_by_created (filter (is_due now) table)).

(** A scheduler tick, seen from one task: it is dispatched only when it is
    drained, i.e. when it is pending and due. *)
Definition dispatch_if_due (reg : registry) (now : Z) (t : task) : task :=
  if is_due now t then fst (processTask reg now t) else t.

(** [n] successive ticks at times [now], [now+1], ... *)
Fixpoint ticks (reg : registry) (n : nat) (now : Z) (t : task) : task :=
  match n with
  | O => t
  | S n' => ticks reg n' (now + 1) (dispatch_if_due reg now t)
  end.

End Orchestrator.
End Orchestrator.

(** ** JSON.stringify / JSON.parse (ECMAScript built-ins used by queueTask and
    processTask)

    JSON values over an abstract type [num] of finite JS numbers, printed by
    Number::toString ([num_to_string]) and read back from a JSON number token
    ([num_of_string]).  Strings are sequences of 8-bit code units.  A JS
    object is the list of its own enumerable properties in property order. *)
Module Json.
Section Json.

Variable num : Type.
Variable num_to_string : num -> string.
Variable num_of_string : string -> option num.

Inductive json : Type :=
| JNull : json
| JBool : bool -> json
| JNum : num -> json
| JStr : string -> json
| JArr : list json -> json
| JObj : list (string * json) -> json.

Definition chr (n : nat) : ascii := ascii_of_nat n.
Definition ch_quote : ascii := chr 34.
Definition ch_backslash : ascii := chr 92.

Definition hex_char (n : nat) : ascii :=
  if Nat.ltb n 10 then chr (48 + n)%nat else chr (87 + n)%nat.   (* lower-case hex *)

(** QuoteJSONString, one code unit. *)
Definition escape_char (c : ascii) : string :=
  let n := nat_of_ascii c in
  if Nat.eqb n 34 then String ch_backslash (String c EmptyString)
  else if Nat.eqb n 92 then String ch_backslash (String c EmptyString)
  else if Nat.eqb n 8 then String ch_backslash "b"
  else if Nat.eqb n 12 then String ch_backslash "f"
  else if Nat.eqb n 10 then String ch_backslash "n"
  else if Nat.eqb n 13 then String ch_backslash "r"
  else if Nat.eqb n 9 then String ch_backslash "t"
  else if Nat.ltb n 32 then
    String ch_backslash
      ("u00" ++ String (hex_char (Nat.div n 16)) (String (hex_char (Nat.modulo n 16)) EmptyString))
  else String c EmptyString.

Fixpoint quote_chars (s : string) : string :=
  match s with
  | EmptyString => EmptyString
  | String c s' => escape_char c ++ quote_chars s'
  end.

Definition quote (s : string) : string :=
  String ch_quote (quote_chars s ++ String ch_quote EmptyString).

(** SerializeJSONProperty without a replacer or indentation. *)
Fixpoint stringify (v : json) : string :=
  match v with
  | JNull => "null"
  | JBool b => if b then "true" else "false"
  | JNum n => num_to_string n
  | JStr s => quote s
  | JArr l => "[" ++ String.concat "," (map stringify l) ++ "]"
  | JObj l =>
      "{" ++ String.concat ","
               (map (fun kv => quote (fst kv) ++ ":" ++ stringify (snd kv)) l)
          ++ "}"
  end.

(** JSON.parse: the JSON grammar, by recursive descent. *)
Definition is_ws (c : ascii) : bool :=
  let n := nat_of_ascii c in
  Nat.eqb n 32 || Nat.eqb n 9 || Nat.eqb n 10 || Nat.eqb n 13.

Fixpoint skip_ws (s : string) : string :=
  match s with
  | EmptyString => EmptyString
  | String c s' => if is_ws c then skip_ws s' else s
  end.

Fixpoint str_mem (c : ascii) (s : string) : bool :=
  match s with
  | EmptyString => false
  | String d s' => Ascii.eqb c d || str_mem c s'
  end.

Definition is_num_char (c : ascii) : bool := str_mem c "-+.eE0123456789".
Definition is_num_start (c : ascii) : bool := str_mem c "-0123456789".

(** The maximal number token at the front of the text. *)
Fixpoint span_num (s : string) : string * string :=
  match s with
  | EmptyString => (EmptyString, EmptyString)
  | String c s' =>
      if is_num_char c then let (a, b) := span_num s' in (String c a, b)
      else (EmptyString, s)
  end.

Fixpoint strip_prefix (p s : string) : option string :=
  match p, s with
  | EmptyString, _ => Some s
  | String c p', String d s' => if Ascii.eqb c d then strip_prefix p' s' else None
  | String _ _, EmptyString => None
  end.

Definition hex_val (c : ascii) : option nat :=
  let n := nat_of_ascii c in
  if Nat.leb 48 n && Nat.leb n 57 then Some (n - 48)%nat
  else if Nat.leb 97 n && Nat.leb n 102 then Some (n - 87)%nat
  else if Nat.leb 65 n && Nat.leb n 70 then Some (n - 55)%nat
  else None.

(** [\uXXXX]: code units above 0xFF fall outside the 8-bit string model. *)
Definition hex4 (a b c d : ascii) : option ascii :=
  match hex_val a, hex_val b, hex_val c, hex_val d with
  | Some x, Some y, Some z, Some w =>
      let v := x * 4096 + y * 256 + z * 16 + w in
      if Nat.ltb v 256 then Some (chr v) else None
  | _, _, _, _ => None
  end%nat.

Definition unescape_simple (e : ascii) : option ascii :=
  let n := nat_of_ascii e in
  if Nat.eqb n 34 then Some e            (* quotation mark *)
  else if Nat.eqb n 92 then Some e       (* backslash *)
  else if Nat.eqb n 47 then Some e       (* solidus *)
  else if Nat.eqb n 98 then Some (chr 8)
  else if Nat.eqb n 102 then Some (chr 12)
  else if Nat.eqb n 110 then Some (chr 10)
  else if Nat.eqb n 114 then Some (chr 13)
  else if Nat.eqb n 116 then Some (chr 9)
  else None.

Definition cons_str (c : ascii) (o : option (string * string)) : option (string * string) :=
  match o with
  | Some (s, r) => Some (String c s, r)
  | None => None
  end.

(** The body of a string literal, after its opening quote. *)
Fixpoint parse_str (s : string) : option (string * string) :=
  match s with
  | EmptyString => None
  | String c s1 =>
      if Ascii.eqb c ch_quote then Some (EmptyString, s1)
      else if Ascii.eqb c ch_backslash then
        match s1 with
        | EmptyString => None
        | String e s2 =>
            match unescape_simple e with
            | Some d => cons_str d (parse_str s2)
            | None =>
                if Ascii.eqb e "u" then
                  match s2 with
                  | String h1 (String h2 (String h3 (String h4 s3))) =>
                      match hex4 h1 h2 h3 h4 with
                      | Some d => cons_str d (parse_str s3)
                      | None => None
                      end
                  | _ => None
                  end
                else None
            end
        end
      else if Nat.ltb (nat_of_ascii c) 32 then None
      else cons_str c (parse_str s1)
  end.

(** CreateDataProperty while building a parsed object: a repeated key keeps
    its first position and takes the last value. *)
Fixpoint obj_set (l : list (string * json)) (k : string) (v : json)
    : list (string * json) :=
  match l with
  | [] => [(k, v)]
  | (k', v') :: l' => if String.eqb k' k then (k, v) :: l' else (k', v') :: obj_set l' k v
  end.

Definition build_obj (kvs : list (string * json)) : list (string * json) :=
  fold_left (fun acc kv => obj_set acc (fst kv) (snd kv)) kvs [].

Fixpoint parse_value (fuel : nat) (s : string) {struct fuel} : option (json * string) :=
  match fuel with
  | O => None
  | S f =>
      match skip_ws s with
      | EmptyString => None
      | String c r =>
          if Ascii.eqb c "n" then
            option_map (fun r' => (JNull, r')) (strip_prefix "ull" r)
          else if Ascii.eqb c "t" then
            option_map (fun r' => (JBool true, r')) (strip_prefix "rue" r)
          else if Ascii.eqb c "f" then
            option_map (fun r' => (JBool false, r')) (strip_prefix "alse" r)
          else if Ascii.eqb c ch_quote then
            option_map (fun p => (JStr (fst p), snd p)) (parse_str r)
          else if Ascii.eqb c "[" then
            match skip_ws r with
            | String c' r' =>
                if Ascii.eqb c' "]" then Some (JArr [], r')
                else option_map (fun p => (JArr (fst p), snd p)) (parse_elems f r)
            | EmptyString => None
            end
          else if Ascii.eqb c "{" then
            match skip_ws r with
            | String c' r' =>
                if Ascii.eqb c' "}" then Some (JObj [], r')
                else option_map (fun p => (JObj (build_obj (fst p)), snd p))
                       (parse_members f r)
            | EmptyString => None
            end
          else if is_num_start c then
            let (tok, r') := span_num (String c r) in
            option_map (fun n => (JNum n, r')) (num_of_string tok)
          else None
      end
  end
with parse_elems (fuel : nat) (s : string) {struct fuel}
    : option (list json * string) :=
  match fuel with
  | O => None
  | S f =>
      match parse_value f s with
      | None => None
      | Some (v, r) =>
          match skip_ws r with
          | String c r' =>
              if Ascii.eqb c "," then
                match parse_elems f r' with
                | Some (vs, r'') => Some (v :: vs, r'')
                | None => None
                end
              else if Ascii.eqb c "]" then Some ([v], r')
              else None
          | EmptyString => None
          end
      end
  end
with parse_members (fuel : nat) (s : string) {struct fuel}
    : option (list (string * json) * string) :=
  match fuel with
  | O => None
  | S f =>
      match skip_ws s with
      | String q r =>
          if Ascii.eqb q ch_quote then
            match parse_str r with
            | None => None
            | Some (k, r1) =>
                match skip_ws r1 with
                | String col r2 =>
                    if Ascii.eqb col ":" then
                      match parse_value f r2 with
                      | None => None
                      | Some (v, r3) =>
                          match skip_ws r3 with
                          | String c r4 =>
                              if Ascii.eqb c "," then
                                match parse_members f r4 with
                                | Some (kvs, r5) => Some ((k, v) :: kvs, r5)
                                | None => None
                                end
                              else if Ascii.eqb c "}" then Some ([(k, v)], r4)
                              else None
                          | EmptyString => None
                          end
                      end
                    else None
                | EmptyString => None
                end
            end
          else None
      | EmptyString => None
      end
  end.

(** JSON.parse(text): one value, then only white space. *)
Definition parse (text : string) : option json :=
  match parse_value (S (String.length text)) text with
  | Some (v, r) => if String.eqb (skip_ws r) EmptyString then Some v else None
  | None => None
  end.

(** A JS object has no two own properties with the same key. *)
Fixpoint wf_json (v : json) : Prop :=
  match v with
  | JArr l => fold_right (fun x acc => wf_json x /\ acc) True l
  | JObj l => NoDup (map fst l) /\ fold_right (fun kv acc => wf_json (snd kv) /\ acc) True l
  | _ => True
  end.

#[global] Instance json_codec : JSONCodec json :=
  {| json_parse := parse; json_stringify := stringify; empty_obj := JObj [] |}.

End Json.
End Json.

(** Integer JSON numbers: Number::toString and StringToNumber on integers. *)
#[global] Instance json_Z_codec : JSONCodec (Json.json Z) :=
  Json.json_codec Z z_to_string z_of_string.

(** ** The business tables (schema in responseAgent.js, [initializeDatabase]) *)

Record prospect := mkProspect {
  p_id : Z;
  p_business_name : string;
  p_email : option string;
  p_website_url : option string;
  p_stage : string;                 (* stage TEXT DEFAULT 'new' *)
  p_automation_enabled : Z          (* automation_enabled INTEGER DEFAULT 1 *)
}.

Record sequence := mkSequence {
  s_id : Z;
  s_prospect_id : Z;                (* UNIQUE *)
  s_step : Z;                       (* sequence_step INTEGER DEFAULT 0 *)
  s_max_steps : Z;
  s_days_between : Z;
  s_paused : Z;                     (* is_paused INTEGER DEFAULT 0 *)
  s_last_sent_at : option Z;
  s_next_send_at : option Z
}.

Record campaign := mkCampaign {
  c_id : Z;
  c_prospect_id : Z;
  c_template_id : option Z;
  c_subject : string;
  c_body : string;
  c_status : string;                (* status TEXT DEFAULT 'pending' *)
  c_sent_at : option Z
}.

Record template := mkTemplate {
  tp_id : Z;
  tp_name : string;
  tp_type : string;
  tp_subject : option string;
  tp_body : string
}.

Record activity := mkActivity { a_prospect_id : Z; a_type : string; a_description : string }.

Record notification := mkNotification {
  n_type : string; n_title : string; n_message : string;
  n_prospect_id : option Z; n_action_url : string
}.

(** The database as the agents see it.  [queued] records the
    (agent_type, prospect_id) of tasks the agents enqueue; [next_id] stands
    for the AUTOINCREMENT counters. *)
Record db := mkDb {
  prospects : list prospect;
  sequences : list sequence;
  campaigns : list campaign;
  templates : list template;
  activities : list activity;
  notifications : list notification;
  config : list (string * string);   (* agent_config *)
  queued : list (string * Z);
  next_id : Z;
  now : Z                            (* CURRENT_TIMESTAMP, in seconds *)
}.

Definition day : Z := 86400.

(** ** JavaScript dates and SQLite datetime text

    Times are whole seconds since 1970-01-01 UTC, and the server's local
    time zone is UTC, so [d.setDate(d.getDate() + n)] on [new Date()] is
    [now + n * day].  ECMAScript's TimeClip makes a time value beyond
    8.64e15 ms NaN (an Invalid Date), on which [toISOString] throws
    [RangeError: Invalid time value]. *)
Definition js_time_limit : Z := 8640000000000.

(** The proleptic Gregorian date (year, month, day) of a day count from
    1970-01-01 (H. Hinnant's civil_from_days; [/] is floor division). *)
Definition civil_from_days (z0 : Z) : Z * Z * Z :=
  let z := z0 + 719468 in
  let era := z / 146097 in
  let doe := z - era * 146097 in
  let yoe := (doe - doe / 1460 + doe / 36524 - doe / 146096) / 365 in
  let y := yoe + era * 400 in
  let doy := doe - (365 * yoe + yoe / 4 - yoe / 100) in
  let mp := (5 * doy + 2) / 153 in
  let dd := doy - (153 * mp + 2) / 5 + 1 in
  let m := if mp <? 10 then mp + 3 else mp - 9 in
  (if m <=? 2 then y + 1 else y, m, dd).

(** The last [n] decimal digits of [v >= 0], zero-padded. *)
Fixpoint digits (n : nat) (v : Z) : string :=
  match n with
  | O => EmptyString
  | S k => digits k (v / 10) ++ String (ascii_of_nat (Z.to_nat (v mod 10) + 48)) EmptyString
  end.

Definition date_time_parts (t : Z) : Z * Z * Z * Z * Z * Z :=
  let '(y, m, dd) := civil_from_days (t / day) in
  let secs := t mod day in
  (y, m, dd, secs / 3600, secs mod 3600 / 60, secs mod 60).

(** [Date.prototype.toISOString]: 'YYYY-MM-DDTHH:MM:SS.sssZ', the year as
    four digits in 0..9999 and otherwise as a sign and six digits.  The
    milliseconds are 000 at this resolution. *)
Definition toISOString (t : Z) : js_result string :=
  if js_time_limit <? Z.abs t then Thrown "Invalid time value"
  else
    let '(y, m, dd, hh, mi, ss) := date_time_parts t in
    let year := if (0 <=? y) && (y <=? 9999) then digits 4 y
                else (if y <? 0 then "-" else "+") ++ digits 6 (Z.abs y) in
    Returned (year ++ "-" ++ digits 2 m ++ "-" ++ digits 2 dd ++ "T" ++ digits 2 hh ++ ":"
              ++ digits 2 mi ++ ":" ++ digits 2 ss ++ ".000Z").

(** SQLite's [datetime(t)]: 'YYYY-MM-DD HH:MM:SS', NULL outside years 0..9999. *)
Definition sqlite_datetime (t : Z) : option string :=
  let '(y, m, dd, hh, mi, ss) := date_time_parts t in
  if (0 <=? y) && (y <=? 9999) then
    Some (digits 4 y ++ "-" ++ digits 2 m ++ "-" ++ digits 2 dd ++ " " ++ digits 2 hh ++ ":"
          ++ digits 2 mi ++ ":" ++ digits 2 ss)
  else None.

(** Text comparison [a <= b] under SQLite's BINARY collation: memcmp on the
    bytes, then the shorter string first.  (next_send_at is DATETIME, i.e.
    NUMERIC affinity, but neither the ISO text nor datetime()'s text is a
    number, so both stay TEXT and compare as text.) *)
Fixpoint str_le (a b : string) : bool :=
  match a, b with
  | EmptyString, _ => true
  | String _ _, EmptyString => false
  | String x a', String y b' =>
      let nx := nat_of_ascii x in let ny := nat_of_ascii y in
      if Nat.ltb nx ny then true else if Nat.eqb nx ny then str_le a' b' else false
  end.

(** JavaScript truthiness of the columns read with [!x]. *)
Definition str_falsy (s : option string) : bool :=
  match s with None => true | Some v => String.eqb v "" end.
Definition int_falsy (z : Z) : bool := Z.eqb z 0.

(** ** Effects: a state monad over [db] with exceptions; a thrown error
    keeps the writes done before it (nothing is rolled back). *)
Definition M (A : Type) : Type := db -> js_result A * db.

Definition ret {A} (a : A) : M A := fun d => (Returned a, d).
Definition bind {A B} (m : M A) (k : A -> M B) : M B :=
  fun d => match m d with
           | (Returned a, d') => k a d'
           | (Thrown e, d') => (Thrown e, d')
           end.
Definition throw {A} (msg : string) : M A := fun d => (Thrown msg, d).
Definition get : M db := fun d => (Returned d, d).
Definition modify (f : db -> db) : M unit := fun d => (Returned tt, f d).
Definition lift {A} (r : js_result A) : M A := fun d => (r, d).

Notation "x <- m ;; k" := (bind m (fun x => k))
  (at level 61, m at next level, right associativity).
Notation "m ;;; k" := (bind m (fun _ => k)) (at level 61, right associativity).

(** ** Table operations *)

Definition with_prospects (f : list prospect -> list prospect) (d : db) : db :=
  {| prospects := f (prospects d); sequences := sequences d; campaigns := campaigns d;
     templates := templates d; activities := activities d;
     notifications := notifications d; config := config d; queued := queued d;
     next_id := next_id d; now := now d |}.
Definition with_sequences (f : list sequence -> list sequence) (d : db) : db :=
  {| prospects := prospects d; sequences := f (sequences d); campaigns := campaigns d;
     templates := templates d; activities := activities d;
     notifications := notifications d; config := config d; queued := queued d;
     next_id := next_id d; now := now d |}.
Definition with_campaigns (f : list campaign -> list campaign) (d : db) : db :=
  {| prospects := prospects d; sequences := sequences d; campaigns := f (campaigns d);
     templates := templates d; activities := activities d;
     notifications := notifications d; config := config d; queued := queued d;
     next_id := next_id d; now := now d |}.
Definition with_activities (f : list activity -> list activity) (d : db) : db :=
  {| prospects := prospects d; sequences := sequences d; campaigns := campaigns d;
     templates := templates d; activities := f (activities d);
     notifications := notifications d; config := config d; queued := queued d;
     next_id := next_id d; now := now d |}.
Definition with_notifications (f : list notification -> list notification) (d : db) : db :=
  {| prospects := prospects d; sequences := sequences d; campaigns := campaigns d;
     templates := templates d; activities := activities d;
     notifications := f (notifications d); config := config d; queued := queued d;
     next_id := next_id d; now := now d |}.
Definition with_queued (f : list (string * Z) -> list (string * Z)) (d : db) : db :=
  {| prospects := prospects d; sequences := sequences d; campaigns := campaigns d;
     templates := templates d; activities := activities d;
     notifications := notifications d; config := config d; queued := f (queued d);
     next_id := next_id d; now := now d |}.
Definition bump_id (d : db) : db :=
  {| prospects := prospects d; sequences := sequences d; campaigns := campaigns d;
     templates := templates d; activities := activities d;
     notifications := notifications d; config := config d; queued := queued d;
     next_id := next_id d + 1; now := now d |}.

(** [SELECT * FROM prospects WHERE id = ?] *)
Definition find_prospect (pid : Z) (d : db) : option prospect :=
  find (fun p => Z.eqb (p_id p) pid) (prospects d).

(** [SELECT * FROM follow_up_sequences WHERE prospect_id = ?] *)
Definition find_sequence (pid : Z) (d : db) : option sequence :=
  find (fun s => Z.eqb (s_prospect_id s) pid) (sequences d).

Definition find_template (tid : Z) (d : db) : option template :=
  find (fun t => Z.eqb (tp_id t) tid) (templates d).

(** [orchestrator.getConfig(key, defaultValue)] *)
Definition getConfig (key default : string) (d : db) : string :=
  match find (fun kv => String.eqb (fst kv) key) (config d) with
  | Some (_, v) => v
  | None => default
  end.

Definition set_stage (st : string) (p : prospect) : prospect :=
  {| p_id := p_id p; p_business_name := p_business_name p; p_email := p_email p;
     p_website_url := p_website_url p; p_stage := st;
     p_automation_enabled := p_automation_enabled p |}.
Definition set_automation (a : Z) (p : prospect) : prospect :=
  {| p_id := p_id p; p_business_name := p_business_name p; p_email := p_email p;
     p_website_url := p_website_url p; p_stage := p_stage p;
     p_automation_enabled := a |}.

(** [UPDATE prospects SET stage = ? WHERE id = ?] *)
Definition update_stage (pid : Z) (st : string) : M unit :=
  modify (with_prospects (map (fun p => if Z.eqb (p_id p) pid then set_stage st p else p))).

(** [UPDATE prospects SET automation_enabled = 0 WHERE id = ?] *)
Definition disable_automation (pid : Z) : M unit :=
  modify (with_prospects
            (map (fun p => if Z.eqb (p_id p) pid then set_automation 0 p else p))).

Definition set_paused (v : Z) (s : sequence) : sequence :=
  {| s_id := s_id s; s_prospect_id := s_prospect_id s; s_step := s_step s;
     s_max_steps := s_max_steps s; s_days_between := s_days_between s;
     s_paused := v; s_last_sent_at := s_last_sent_at s; s_next_send_at := s_next_send_at s |}.

(** [UPDATE follow_up_sequences SET is_paused = 1 WHERE prospect_id = ?] *)
Definition pause_sequence (pid : Z) : M unit :=
  modify (with_sequences
            (map (fun s => if Z.eqb (s_prospect_id s) pid then set_paused 1 s else s))).

Definition log_activity (pid : Z) (ty descr : string) : M unit :=
  modify (with_activities (fun l => app l [mkActivity pid ty descr])).

Definition add_notification (n : notification) : M unit :=
  modify (with_notifications (fun l => app l [n])).

(** [INSERT INTO campaigns (...) VALUES (..., 'pending')]; returns lastInsertRowid. *)
Definition insert_campaign (pid : Z) (tid : option Z) (subject body : string) : M Z :=
  d <- get ;;
  let cid := next_id d in
  modify (fun d => bump_id (with_campaigns
            (fun l => app l [mkCampaign cid pid tid subject body "pending" None]) d)) ;;;
  ret cid.

Definition set_campaign_status (st : string) (sent_at : option Z) (c : campaign) : campaign :=
  {| c_id := c_id c; c_prospect_id := c_prospect_id c; c_template_id := c_template_id c;
     c_subject := c_subject c; c_body := c_body c; c_status := st;
     c_sent_at := match sent_at with Some t => Some t | None => c_sent_at c end |}.

(** [UPDATE campaigns SET status = ? WHERE id = ?] *)
Definition update_campaign_status (cid : Z) (st : string) (sent_at : option Z) : M unit :=
  modify (with_campaigns
            (map (fun c => if Z.eqb (c_id c) cid then set_campaign_status st sent_at c else c))).

Definition queue_task (agentType : string) (pid : Z) : M unit :=
  modify (with_queued (fun l => app l [(agentType, pid)])).

(** ** String helpers used by the agents *)

Definition dq : string := String (ascii_of_nat 34) EmptyString.   (* a double quote *)

(** [s.split(',')]: always at least one piece. *)
Fixpoint split_comma (s : string) : list string :=
  match s with
  | EmptyString => [EmptyString]
  | String c s' =>
      if Ascii.eqb c "," then EmptyString :: split_comma s'
      else match split_comma s' with
           | x :: xs => String c x :: xs
           | [] => [String c EmptyString]
           end
  end.

Definition is_js_space (c : ascii) : bool :=
  let n := nat_of_ascii c in
  Nat.eqb n 32 || Nat.eqb n 9 || Nat.eqb n 10 || Nat.eqb n 11 || Nat.eqb n 12
  || Nat.eqb n 13.

Fixpoint trim_start (s : string) : string :=
  match s with
  | EmptyString => EmptyString
  | String c s' => if is_js_space c then trim_start s' else s
  end.

Definition digit_val (c : ascii) : option Z :=
  let n := nat_of_ascii c in
  if Nat.leb 48 n && Nat.leb n 57 then Some (Z.of_nat n - 48) else None.

(** Decimal digits at the front: (value so far, number of digits). *)
Fixpoint digits_prefix (acc : Z) (k : nat) (s : string) : Z * nat :=
  match s with
  | EmptyString => (acc, k)
  | String c s' =>
      match digit_val c with
      | Some v => digits_prefix (acc * 10 + v) (S k) s'
      | None => (acc, k)
      end
  end.

(** [parseInt(s)] (radix 10); [None] is NaN. *)
Definition parseInt (s : string) : option Z :=
  let s1 := trim_start s in
  let '(sign, s2) :=
    match s1 with
    | String c s' => if Ascii.eqb c "-" then (-1, s')
                     else if Ascii.eqb c "+" then (1, s') else (1, s1)
    | EmptyString => (1, s1)
    end in
  let '(v, k) := digits_prefix 0 O s2 in
  match k with O => None | S _ => Some (sign * v) end.

(** [x || y] on numbers: NaN ([None]) and 0 are falsy. *)
Definition num_or (x : option Z) (y : Z) : Z :=
  match x with Some v => if Z.eqb v 0 then y else v | None => y end.

Definition num_or_opt (x y : option Z) : option Z :=
  match x with Some v => if Z.eqb v 0 then y else x | None => y end.

Definition lower (c : ascii) : ascii :=
  let n := nat_of_ascii c in
  if Nat.leb 65 n && Nat.leb n 90 then ascii_of_nat (n + 32) else c.

Fixpoint prefix_ci (p s : string) : bool :=
  match p, s with
  | EmptyString, _ => true
  | String a p', String b s' => Ascii.eqb (lower a) (lower b) && prefix_ci p' s'
  | String _ _, EmptyString => false
  end.

(** [name LIKE '%pat%']: ASCII case-insensitive substring test. *)
Fixpoint like_contains (pat s : string) : bool :=
  prefix_ci pat s ||
  match s with EmptyString => false | String _ s' => like_contains pat s' end.

(** ** Collaborators *)

Record send_result := mkSendResult {
  sr_success : bool; sr_id : option string; sr_error : option string
}.

(** The LLM service ([llm.js]), the email service ([email.js]) and
    [OutreachAgent.replaceVariables] (placeholder substitution, which only
    shapes message text), as oracles. *)
Record env := mkEnv {
  generateOutreachEmail : prospect -> option template -> js_result string;
  generateFollowUp : prospect -> list campaign -> Z -> js_result string;
  generateSubjectLine : prospect -> string -> js_result string;
  replaceVariables : string -> prospect -> string;
  email_isReady : bool;
  email_send : string -> string -> string -> js_result send_result
}.

(** What an agent's [execute] returns. *)
Inductive outcome :=
| Skipped (reason : string)                      (* { skipped: true, reason } *)
| Completed (reason : string)                    (* { completed: true, reason } *)
| CampaignOutcome (campaignId : Z) (followUpNumber : option Z) (subject : string)
    (sent : bool) (error : option string).

(** ** OutreachAgent (src/unnamed/part_002) *)
Module Outreach.

(** The payload fields the agent reads: [payload.templateId] when truthy,
    and whether [payload.useAI === false]. *)
Record payload := mkPayload { templateId : option Z; useAI_false : bool }.

Definition min_id_template (l : list template) : option template :=
  fold_left (fun acc t => match acc with
                          | None => Some t
                          | Some b => if tp_id t <? tp_id b then Some t else acc
                          end) l None.

Definition selectBestTemplate (p : prospect) (d : db) : option template :=
  let emails := filter (fun t => String.eqb (tp_type t) "email") (templates d) in
  let no_site := if str_falsy (p_website_url p)
                 then find (fun t => like_contains "No Website" (tp_name t)) emails
                 else None in
  match no_site with
  | Some t => Some t
  | None => min_id_template emails
  end.

Definition sendEmail (e : env) (p : prospect) (subject body : string) (cid : Z)
    : M (bool * option string) :=
  let drafted_no_address :=
    update_campaign_status cid "draft" None ;;;
    log_activity (p_id p) "email_drafted" "Email drafted - no email address on file" ;;;
    ret (false, Some "No email address") in
  match p_email p with
  | None => drafted_no_address
  | Some addr =>
      if String.eqb addr "" then drafted_no_address
      else if negb (email_isReady e) then
        update_campaign_status cid "draft" None ;;;
        ret (false, Some "Email service not configured")
      else
        match email_send e addr subject body with
        | Thrown msg => update_campaign_status cid "failed" None ;;; ret (false, Some msg)
        | Returned r =>
            if negb (sr_success r) then
              update_campaign_status cid "failed" None ;;; ret (false, sr_error r)
            else
              d <- get ;;
              update_campaign_status cid "sent" (Some (now d)) ;;;
              log_activity (p_id p) "email_sent"
                ("Outreach Agent sent email: " ++ dq ++ subject ++ dq) ;;;
              (if String.eqb (p_stage p) "new" then
                 update_stage (p_id p) "contacted" ;;;
                 log_activity (p_id p) "stage_change"
                   ("Stage changed from " ++ dq ++ "new" ++ dq ++ " to " ++ dq
                      ++ "contacted" ++ dq ++ " by Outreach Agent")
               else ret tt) ;;;
              ret (true, None)
        end
  end.

(** [INSERT OR REPLACE INTO follow_up_sequences ... VALUES (?, 0, ?, ?, now, ?)]:
    the row with the same (unique) prospect_id is replaced.  The argument
    [nextSendAt.toISOString()] is evaluated inside the [try]: its RangeError
    is caught and logged, and no row is written. *)
Definition initializeFollowUpSequence (pid : Z) : M unit :=
  d <- get ;;
  let days := split_comma (getConfig "follow_up_days" "3,7,14" d) in
  let maxSteps := Z.of_nat (length days) in
  let daysBetween := num_or (parseInt (hd EmptyString days)) 3 in
  let nextSendAt := now d + daysBetween * day in
  match toISOString nextSendAt with
  | Thrown _ => ret tt
  | Returned _ =>
      let row := mkSequence (next_id d) pid 0 maxSteps daysBetween 0 (Some (now d))
                   (Some nextSendAt) in
      modify (fun d => bump_id (with_sequences
        (fun l => app (filter (fun s => negb (Z.eqb (s_prospect_id s) pid)) l) [row]) d))
  end.

Definition execute (e : env) (pid : Z) (pl : payload) : M outcome :=
  d <- get ;;
  match find_prospect pid d with
  | None => throw ("Prospect " ++ z_to_string pid ++ " not found")
  | Some p =>
  if int_falsy (p_automation_enabled p) then
    ret (Skipped "Automation disabled for this prospect")
  else if negb (String.eqb (getConfig "auto_outreach" "true" d) "true") then
    ret (Skipped "Auto outreach disabled globally")
  else if 0 <? Z.of_nat (length (filter (fun c => Z.eqb (c_prospect_id c) pid) (campaigns d)))
  then ret (Skipped "Prospect already has email campaigns")
  else
    let from_template :=
      match templateId pl with
      | Some tid =>
          match find_template tid d with
          | Some t => Some (replaceVariables e (tp_body t) p,
                            replaceVariables e (match tp_subject t with
                                                | Some s => s | None => EmptyString end) p)
          | None => None
          end
      | None => None
      end in
    let body0 := option_map fst from_template in
    let subject0 := match option_map snd from_template with
                    | Some s => s | None => EmptyString end in
    bs <- (if str_falsy body0 || negb (useAI_false pl) then
       let tmpl := match templateId pl with
                   | Some tid => find_template tid d
                   | None => selectBestTemplate p d
                   end in
       body <- lift (generateOutreachEmail e p tmpl) ;;
       subject <- lift (generateSubjectLine e p body) ;;
       ret (body, subject)
     else ret (match body0 with Some b => b | None => EmptyString end, subject0)) ;;
    let body := fst bs in
    let subject := snd bs in
    cid <- insert_campaign pid (templateId pl) subject body ;;
    log_activity pid "agent_action"
      ("Outreach Agent generated email: " ++ dq ++ subject ++ dq) ;;;
    sr <- sendEmail e p subject body cid ;;
    (if fst sr then initializeFollowUpSequence pid else ret tt) ;;;
    ret (CampaignOutcome cid None subject (fst sr) (snd sr))
  end.

End Outreach.

(** ** FollowupAgent (appended to src/client/tailwind.config.js) *)
Module FollowUp.

Definition sendEmail (e : env) (p : prospect) (subject body : string) (cid : Z)
    : M (bool * option string) :=
  let draft msg := update_campaign_status cid "draft" None ;;; ret (false, Some msg) in
  match p_email p with
  | None => draft "No email address"
  | Some addr =>
      if String.eqb addr "" then draft "No email address"
      else if negb (email_isReady e) then draft "Email service not configured"
      else
        match email_send e addr subject body with
        | Thrown msg => update_campaign_status cid "failed" None ;;; ret (false, Some msg)
        | Returned r =>
            if negb (sr_success r) then
              update_campaign_status cid "failed" None ;;; ret (false, sr_error r)
            else
              d <- get ;;
              update_campaign_status cid "sent" (Some (now d)) ;;;
              log_activity (p_id p) "email_sent"
                ("Follow-up Agent sent email: " ++ dq ++ subject ++ dq) ;;;
              ret (true, None)
        end
  end.

(** [daysArray[followUpNumber] || daysArray[daysArray.length - 1] || 7] *)
Definition next_days (daysArray : list (option Z)) (followUpNumber : Z) : Z :=
  let at_index :=
    if followUpNumber <? 0 then None
    else match nth_error daysArray (Z.to_nat followUpNumber) with
         | Some v => v | None => None end in
  let last_one := match rev daysArray with v :: _ => v | [] => None end in
  num_or (num_or_opt at_index last_one) 7.

Definition set_progress (step : Z) (sent_at next : Z) (s : sequence) : sequence :=
  {| s_id := s_id s; s_prospect_id := s_prospect_id s; s_step := step;
     s_max_steps := s_max_steps s; s_days_between := s_days_between s;
     s_paused := s_paused s; s_last_sent_at := Some sent_at; s_next_send_at := Some next |}.

Definition execute (e : env) (pid : Z) : M outcome :=
  d <- get ;;
  match find_prospect pid d with
  | None => throw ("Prospect " ++ z_to_string pid ++ " not found")
  | Some p =>
  if int_falsy (p_automation_enabled p) then
    ret (Skipped "Automation disabled for this prospect")
  else if negb (String.eqb (p_stage p) "contacted") then
    ret (Skipped ("Prospect stage is " ++ dq ++ p_stage p ++ dq ++ ", not "
                  ++ dq ++ "contacted" ++ dq))
  else
  match find_sequence pid d with
  | None => ret (Skipped "No follow-up sequence found")
  | Some s =>
  if negb (int_falsy (s_paused s)) then ret (Skipped "Follow-up sequence is paused")
  else if s_max_steps s <=? s_step s then
    update_stage pid "lost" ;;;
    log_activity pid "stage_change" "Moved to lost - max follow-ups reached with no response" ;;;
    ret (Completed "Max follow-ups reached, moved to lost")
  else
    let previousEmails :=
      filter (fun c => Z.eqb (c_prospect_id c) pid
                       && in_strings (c_status c) ["sent"; "delivered"]) (campaigns d) in
    let followUpNumber := s_step s + 1 in
    body <- lift (generateFollowUp e p previousEmails followUpNumber) ;;
    subject <- lift (generateSubjectLine e p body) ;;
    cid <- insert_campaign pid None subject body ;;
    log_activity pid "agent_action"
      ("Follow-up Agent generated follow-up #" ++ z_to_string followUpNumber ++ ": "
         ++ dq ++ subject ++ dq) ;;;
    sr <- sendEmail e p subject body cid ;;
    (if fst sr then
       d' <- get ;;
       let daysArray := map parseInt (split_comma (getConfig "follow_up_days" "3,7,14" d')) in
       let nextSendAt := now d' + next_days daysArray followUpNumber * day in
       match toISOString nextSendAt with
       | Thrown msg => throw msg
       | Returned _ =>
           modify (with_sequences (map (fun s' =>
             if Z.eqb (s_prospect_id s') pid
             then set_progress followUpNumber (now d') nextSendAt s' else s')))
       end
     else ret tt) ;;;
    ret (CampaignOutcome cid (Some followUpNumber) subject (fst sr) (snd sr))
  end
  end.

End FollowUp.

(** ** StageAgent (second class in src/server/agents/responseAgent.js) *)
Module Stage.

Definition stageOrder : list string :=
  ["new"; "contacted"; "responded"; "meeting_scheduled"; "proposal_sent"; "won"; "lost"].

(** [this.validTransitions], an object literal: its own properties. *)
Definition validTransitions : list (string * list string) :=
  [("new", ["contacted"; "lost"]);
   ("contacted", ["responded"; "lost"]);
   ("responded", ["meeting_scheduled"; "lost"]);
   ("meeting_scheduled", ["proposal_sent"; "won"; "lost"]);
   ("proposal_sent", ["won"; "lost"]);
   ("won", []);
   ("lost", ["new"])].

(** Properties every object literal inherits from Object.prototype. *)
Definition object_prototype_keys : list string :=
  ["constructor"; "__defineGetter__"; "__defineSetter__"; "hasOwnProperty";
   "__lookupGetter__"; "__lookupSetter__"; "isPrototypeOf"; "propertyIsEnumerable";
   "toString"; "valueOf"; "__proto__"; "toLocaleString"].

(** The value of [obj[key]]: an own array, an inherited function or object,
    or undefined. *)
Inductive js_prop :=
| PropArray (l : list string)
| PropInherited (name : string)
| PropUndefined.

Definition get_property (obj : list (string * list string)) (key : string) : js_prop :=
  match find (fun kv => String.eqb (fst kv) key) obj with
  | Some (_, l) => PropArray l
  | None => if in_strings key object_prototype_keys then PropInherited key
            else PropUndefined
  end.

(** [const validTargets = this.validTransitions[fromStage] || [];
     return validTargets.includes(toStage);]  An array is truthy, undefined
    is replaced by [[]], an inherited function has no [includes]. *)
Definition isValidTransition (fromStage toStage : string) : js_result bool :=
  match get_property validTransitions fromStage with
  | PropArray l => Returned (in_strings toStage l)
  | PropUndefined => Returned false
  | PropInherited _ => Thrown "validTargets.includes is not a function"
  end.

Inductive transition_result :=
| TransitionFailed (message : string)                       (* { success: false, message } *)
| TransitionDone (previousStage newStage message : string). (* { success: true, ... } *)

Definition handleStageEffects (p : prospect) (newStage : string) : M unit :=
  let pid := p_id p in
  let url := "/prospect/" ++ z_to_string pid in
  if String.eqb newStage "contacted" then
    d <- get ;;
    match find_sequence pid d with
    | Some _ => ret tt
    | None =>
        let days := split_comma (getConfig "follow_up_days" "3,7,14" d) in
        let maxSteps := Z.of_nat (length days) in
        let daysBetween := num_or (parseInt (hd EmptyString days)) 3 in
        let nextSendAt := now d + daysBetween * day in
        match toISOString nextSendAt with
        | Thrown msg => throw msg
        | Returned _ =>
            let row := mkSequence (next_id d) pid 0 maxSteps daysBetween 0 None
                         (Some nextSendAt) in
            modify (fun d => bump_id (with_sequences (fun l => app l [row]) d))
        end
    end
  else if String.eqb newStage "responded" then pause_sequence pid
  else if String.eqb newStage "meeting_scheduled" then
    add_notification (mkNotification "meeting_scheduled"
      ("Meeting scheduled with " ++ p_business_name p)
      "Time to reach out and confirm the meeting details." (Some pid) url) ;;;
    disable_automation pid
  else if String.eqb newStage "won" then
    add_notification (mkNotification "deal_won" ("Deal won: " ++ p_business_name p)
      "Congratulations on closing the deal!" (Some pid) url)
  else if String.eqb newStage "lost" then
    disable_automation pid ;;; pause_sequence pid
  else ret tt.

Definition transitionTo (p : prospect) (newStage : string) (reason : option string)
    : M transition_result :=
  ok <- lift (isValidTransition (p_stage p) newStage) ;;
  if negb ok then
    ret (TransitionFailed ("Invalid transition from " ++ dq ++ p_stage p ++ dq
                           ++ " to " ++ dq ++ newStage ++ dq))
  else
    update_stage (p_id p) newStage ;;;
    let base := "Stage changed from " ++ dq ++ p_stage p ++ dq ++ " to " ++ dq
                ++ newStage ++ dq ++ " by Stage Agent" in
    let description := match reason with
                       | Some r => base ++ ": " ++ r
                       | None => base
                       end in
    log_activity (p_id p) "stage_change" description ;;;
    handleStageEffects p newStage ;;;
    ret (TransitionDone (p_stage p) newStage description).

End Stage.

(** ** ResponseAgent (first class in src/server/agents/responseAgent.js) *)
Module Response.

Definition updateProspectStage (p : prospect) (newStage : string) : M unit :=
  if String.eqb (p_stage p) newStage then ret tt
  else
    update_stage (p_id p) newStage ;;;
    log_activity (p_id p) "stage_change"
      ("Stage changed from " ++ dq ++ p_stage p ++ dq ++ " to " ++ dq ++ newStage
         ++ dq ++ " by Response Agent").

Definition createNotification (p : prospect) (ty title message : string) : M unit :=
  add_notification (mkNotification ty title message (Some (p_id p))
                      ("/prospect/" ++ z_to_string (p_id p))).

Definition set_next_send (next : Z) (s : sequence) : sequence :=
  {| s_id := s_id s; s_prospect_id := s_prospect_id s; s_step := s_step s;
     s_max_steps := s_max_steps s; s_days_between := s_days_between s;
     s_paused := 0; s_last_sent_at := s_last_sent_at s; s_next_send_at := Some next |}.

(** [handleClassification(prospect, classification, responseText)] for a
    classification label and summary. *)
Definition handleClassification (p : prospect) (cls summary : string) : M unit :=
  let pid := p_id p in
  let name := p_business_name p in
  if String.eqb cls "INTERESTED" then
    updateProspectStage p "responded" ;;;
    createNotification p "interested" (name ++ " is interested!") summary ;;;
    queue_task "stage_manager" pid
  else if String.eqb cls "MEETING_REQUEST" then
    updateProspectStage p "meeting_scheduled" ;;;
    createNotification p "meeting_request" (name ++ " wants to meet!")
      ("They requested a meeting: " ++ dq ++ summary ++ dq) ;;;
    disable_automation pid ;;;
    pause_sequence pid
  else if String.eqb cls "NOT_INTERESTED" then
    updateProspectStage p "lost" ;;;
    disable_automation pid ;;;
    pause_sequence pid ;;;
    createNotification p "not_interested" (name ++ " declined") summary
  else if String.eqb cls "QUESTION" then
    updateProspectStage p "responded" ;;;
    createNotification p "question" (name ++ " has a question") summary ;;;
    pause_sequence pid
  else if String.eqb cls "OUT_OF_OFFICE" then
    (* the wall clock plus 5 days, far inside the Date range, whose end is
       in the year 275760: the model omits that [toISOString] check *)
    d <- get ;;
    modify (with_sequences (map (fun s =>
      if Z.eqb (s_prospect_id s) pid then set_next_send (now d + 5 * day) s else s))) ;;;
    log_activity pid "auto_reply_detected" "Out of office detected, follow-up rescheduled"
  else
    createNotification p "review_needed" ("Review needed: " ++ name)
      ("Response couldn't be classified: " ++ summary) ;;;
    pause_sequence pid.

End Response.

(** ** POST /webhooks/sendgrid/inbound (src/server/routes/campaigns.js),
    for the sender address [fromEmail] already extracted from [from]. *)

(** [SELECT * FROM prospects WHERE email = ?] *)
Definition find_prospect_by_email (fromEmail : string) (d : db) : option prospect :=
  find (fun p => match p_email p with
                 | Some e => String.eqb e fromEmail | None => false end)
       (prospects d).

Definition inbound_reply (fromEmail subject : string) : M unit :=
  d <- get ;;
  match find_prospect_by_email fromEmail d with
  | None => ret tt
  | Some p =>
      log_activity (p_id p) "email_reply" ("Reply received: " ++ dq ++ subject ++ dq) ;;;
      (if in_strings (p_stage p) ["new"; "contacted"] then
         update_stage (p_id p) "responded" ;;;
         log_activity (p_id p) "stage_change"
           ("Stage changed to " ++ dq ++ "responded" ++ dq ++ " - email reply received")
       else ret tt) ;;;
      pause_sequence (p_id p) ;;;
      queue_task "response_classifier" (p_id p)
  end.

(** ** Every operation of the core that writes prospects or sequences *)
Inductive op :=
| OpOutreach (pid : Z) (pl : Outreach.payload)
| OpFollowUp (pid : Z)
| OpStageTransition (pid : Z) (target : string) (reason : option string)
| OpClassify (pid : Z) (cls summary : string)
| OpInbound (fromEmail subject : string).

Definition with_prospect {A} (pid : Z) (k : prospect -> M A) : M A :=
  d <- get ;;
  match find_prospect pid d with
  | None => throw ("Prospect " ++ z_to_string pid ++ " not found")
  | Some p => k p
  end.

Definition run_op (e : env) (o : op) : M unit :=
  match o with
  | OpOutreach pid pl => Outreach.execute e pid pl ;;; ret tt
  | OpFollowUp pid => FollowUp.execute e pid ;;; ret tt
  | OpStageTransition pid target reason =>
      with_prospect pid (fun p => Stage.transitionTo p target reason) ;;; ret tt
  | OpClassify pid cls summary =>
      with_prospect pid (fun p => Response.handleClassification p cls summary)
  | OpInbound fromEmail subject => inbound_reply fromEmail subject
  end.

(** The database after an operation, whether it returned or threw. *)
Definition step (e : env) (o : op) (d : db) : db := snd (run_op e o d).

(** [JSON.stringify(result)] of an agent outcome (undefined fields omitted). *)
Definition outcome_to_json (o : outcome) : Json.json Z :=
  match o with
  | Skipped r => Json.JObj Z [("skipped", Json.JBool Z true); ("reason", Json.JStr Z r)]
  | Completed r => Json.JObj Z [("completed", Json.JBool Z true); ("reason", Json.JStr Z r)]
  | CampaignOutcome cid n subj sent err =>
      Json.JObj Z (app [("campaignId", Json.JNum Z cid)]
        (app (match n with Some k => [("followUpNumber", Json.JNum Z k)] | None => [] end)
          (app [("subject", Json.JStr Z subj); ("sent", Json.JBool Z sent)]
             (match err with Some e => [("error", Json.JStr Z e)] | None => [] end))))
  end.

#[global] Instance outcome_codec : ResultCodec outcome :=
  {| stringify_result o := Some (Json.stringify Z z_to_string (outcome_to_json o)) |}.

(** ** AgentOrchestrator: configuration (src/server/agents/orchestrator.js) *)

(** A string field as a truthy value: the empty string is falsy. *)
Definition truthy_str (s : option string) : option string :=
  match s with Some v => if String.eqb v "" then None else Some v | None => None end.

Definition with_config (f : list (string * string) -> list (string * string)) (d : db) : db :=
  {| prospects := prospects d; sequences := sequences d; campaigns := campaigns d;
     templates := templates d; activities := activities d;
     notifications := notifications d; config := f (config d); queued := queued d;
     next_id := next_id d; now := now d |}.

Module Config.

(** [setConfig(key, value)]: [INSERT OR REPLACE] on the primary key [key]
    deletes the row holding [key] and inserts the new row. *)
Definition setConfig (key value : string) : M unit :=
  modify (with_config (fun l =>
    app (filter (fun kv => negb (String.eqb (fst kv) key)) l) [(key, value)])).

(** The value of [obj[key]] for an object given by its own properties. *)
Definition js_lookup (o : list (string * string)) (key : string) : option string :=
  option_map snd (find (fun kv => String.eqb (fst kv) key) o).

(** [result[key] = value] on an ordinary object: [__proto__] is the
    inherited accessor, whose setter ignores a string; any other key
    creates or overwrites an own property. *)
Definition obj_assign (o : list (string * string)) (key value : string)
    : list (string * string) :=
  if String.eqb key "__proto__" then o
  else if existsb (fun kv => String.eqb (fst kv) key) o
  then map (fun kv => if String.eqb (fst kv) key then (key, value) else kv) o
  else app o [(key, value)].

(** [getAllConfig()]: the own properties of [result] (their enumeration
    order is not modelled). *)
Definition getAllConfig (d : db) : list (string * string) :=
  fold_left (fun o kv => obj_assign o (fst kv) (snd kv)) (config d) [].

(** [prospect?.automation_enabled === 1] *)
Definition isAutomationEnabled (pid : Z) (d : db) : bool :=
  match find_prospect pid d with
  | Some p => Z.eqb (p_automation_enabled p) 1
  | None => false
  end.

(** [seedDefaultAgentConfig] (responseAgent.js): [INSERT OR IGNORE] of each
    default row. *)
Definition default_config : list (string * string) :=
  [("llm_provider", "openai"); ("follow_up_days", "3,7,14"); ("max_follow_ups", "3");
   ("auto_outreach", "true"); ("auto_classify", "true"); ("auto_enrich", "true");
   ("notification_email", "")].

Definition insert_or_ignore (l : list (string * string)) (kv : string * string)
    : list (string * string) :=
  if existsb (fun r => String.eqb (fst r) (fst kv)) l then l else app l [kv].

Definition seedDefaultAgentConfig : M unit :=
  modify (with_config (fun l => fold_left insert_or_ignore default_config l)).

End Config.

(** ** AgentOrchestrator.processPendingTasks (src/server/agents/orchestrator.js) *)
Module TaskLoop.
Import Orchestrator.
Section TaskLoop.

Context {Payload : Type} `{JSONCodec Payload}.
Context {Result : Type} `{ResultCodec Result}.


End TaskLoop.
End TaskLoop.

(** ** StageAgent.execute and its helpers (second class in
    src/server/agents/responseAgent.js) *)
Module StageAgent.
Import Stage.

Definition stageMap : list (string * string) :=
  [("INTERESTED", "responded"); ("MEETING_REQUEST", "meeting_scheduled");
   ("NOT_INTERESTED", "lost"); ("QUESTION", "responded")].

(** The value of [stageMap[key]]: an own string, an inherited member of
    Object.prototype, or undefined. *)
Inductive map_value :=
| OwnStage (s : string)
| InheritedMember (name : string)
| NoMapping.

Definition lookup_stageMap (key : string) : map_value :=
  match find (fun kv => String.eqb (fst kv) key) stageMap with
  | Some (_, s) => OwnStage s
  | None => if in_strings key object_prototype_keys then InheritedMember key else NoMapping
  end.

(** [Array.prototype.indexOf]: the first position, -1 when absent. *)
Fixpoint indexOf (x : string) (l : list string) : Z :=
  match l with
  | [] => -1
  | y :: l' => if String.eqb y x then 0
               else let i := indexOf x l' in if i <? 0 then -1 else i + 1
  end.

(** [String(v)] of an inherited member: the prototype object itself for
    [__proto__], a native function otherwise ([constructor] is [Object]). *)
Definition member_to_string (name : string) : string :=
  if String.eqb name "__proto__" then "[object Object]"
  else if String.eqb name "constructor" then "function Object() { [native code] }"
  else "function " ++ name ++ "() { [native code] }".

Definition already_past (current target : string) : transition_result :=
  TransitionFailed ("Stage " ++ dq ++ current ++ dq ++ " is already at or past "
                    ++ dq ++ target ++ dq).

(** [handleClassification(prospect, classification)] for the label
    [classification.classification]. *)
Definition handleClassification (p : prospect) (cls : string) : M transition_result :=
  let currentIndex := indexOf (p_stage p) stageOrder in
  match lookup_stageMap cls with
  | NoMapping => ret (TransitionFailed ("No stage mapping for classification: " ++ cls))
  | InheritedMember name =>
      (* a member is not 'lost', and its indexOf is -1, never above currentIndex *)
      ret (already_past (p_stage p) (member_to_string name))
  | OwnStage s =>
      if String.eqb s "lost" || (currentIndex <? indexOf s stageOrder)
      then transitionTo p s (Some ("Response classified as " ++ cls))
      else ret (already_past (p_stage p) s)
  end.

(** What [execute] returns: a [transitionTo] / [handleClassification]
    result, or [{ success: true, message: 'No stage change needed',
    currentStage }]. *)
Inductive stage_outcome :=
| Transition (r : transition_result)
| NoStageChange (currentStage : string).

(** [evaluateProspect(prospect)]; [events] are the [event_type] values of
    the prospect's rows in email_events, a table outside [db].  The
    activities read is not used by the decision. *)
Definition evaluateProspect (p : prospect) (events : list string) : M stage_outcome :=
  d <- get ;;
  let cs := filter (fun c => Z.eqb (c_prospect_id c) (p_id p)) (campaigns d) in
  if String.eqb (p_stage p) "new" then
    if existsb (fun c => String.eqb (c_status c) "sent" || String.eqb (c_status c) "delivered") cs
    then r <- transitionTo p "contacted" (Some "Email has been sent") ;; ret (Transition r)
    else ret (NoStageChange (p_stage p))
  else if String.eqb (p_stage p) "contacted" then
    if existsb (fun ev => String.eqb ev "reply") events
    then r <- transitionTo p "responded" (Some "Reply received") ;; ret (Transition r)
    else ret (NoStageChange (p_stage p))
  else ret (NoStageChange (p_stage p)).

(** The payload fields [execute] reads: the label of [classification]
    (present when the object is), [suggestedStage] and [reason]. *)
Record payload := mkPayload {
  classification : option string;
  suggestedStage : option string;
  reason : option string
}.

Definition execute (pid : Z) (pl : payload) (events : list string) : M stage_outcome :=
  d <- get ;;
  match find_prospect pid d with
  | None => throw ("Prospect " ++ z_to_string pid ++ " not found")
  | Some p =>
      match truthy_str (suggestedStage pl) with
      | Some st => r <- transitionTo p st (truthy_str (reason pl)) ;; ret (Transition r)
      | None =>
          match classification pl with
          | Some cls => r <- handleClassification p cls ;; ret (Transition r)
          | None => evaluateProspect p events
          end
      end
  end.

End StageAgent.

(** ** ResponseAgent.execute (first class in src/server/agents/responseAgent.js) *)
Module ResponseAgent.

(** [llmService.classifyResponse]'s answer. *)
Record classification := mkClassification {
  cl_classification : string;
  cl_confidence : Z;
  cl_summary : string
}.

Inductive response_outcome :=
| PendingReview                       (* { classification: 'PENDING_REVIEW', message } *)
| Classified (c : classification).

(** A value in a template literal: undefined prints as "undefined". *)
Definition template_str (s : option string) : string :=
  match s with Some v => v | None => "undefined" end.

(** [execute(prospectId, { responseText, subject })]; the LLM service is the
    oracle [classifyResponse], given the reply, the prospect and the
    previous sent or delivered campaigns. *)
Definition execute
    (classifyResponse : string -> prospect -> list campaign -> js_result classification)
    (pid : Z) (responseText subject : option string) : M response_outcome :=
  d <- get ;;
  match find_prospect pid d with
  | None => throw ("Prospect " ++ z_to_string pid ++ " not found")
  | Some p =>
  match truthy_str responseText with
  | None => throw "No response text provided for classification"
  | Some text =>
    let previousCampaigns :=
      filter (fun c => Z.eqb (c_prospect_id c) pid
                       && in_strings (c_status c) ["sent"; "delivered"]) (campaigns d) in
    if negb (String.eqb (getConfig "auto_classify" "true" d) "true") then
      log_activity pid "response_pending_review"
        ("Reply pending manual review: " ++ dq ++ template_str subject ++ dq) ;;;
      ret PendingReview
    else
      c <- lift (classifyResponse text p previousCampaigns) ;;
      log_activity pid "response_classified"
        ("Response classified as " ++ cl_classification c ++ " ("
           ++ z_to_string (cl_confidence c) ++ "% confidence): " ++ cl_summary c) ;;;
      Response.handleClassification p (cl_classification c) (cl_summary c) ;;;
      ret (Classified c)
  end
  end.

End ResponseAgent.

(** ** Prospect and webhook routes (src/server/routes/campaigns.js) *)
Module Routes.

Inductive http_response :=
| HttpError (status : Z) (message : string)      (* res.status(status).json({ message }) *)
| HttpProspect (p : option prospect).            (* res.json(prospect) *)

(** PATCH /:id/stage with [req.body.stage]. *)
Definition patch_stage (pid : Z) (stage : option string) : M http_response :=
  d <- get ;;
  match find_prospect pid d with
  | None => ret (HttpError 404 "Prospect not found")
  | Some existing =>
      match truthy_str stage with
      | None => ret (HttpError 400 "Stage is required")
      | Some st =>
          update_stage pid st ;;;
          (if negb (String.eqb st (p_stage existing)) then
             log_activity pid "stage_change"
               ("Stage changed from " ++ dq ++ p_stage existing ++ dq ++ " to " ++ dq
                  ++ st ++ dq)
           else ret tt) ;;;
          d' <- get ;;
          ret (HttpProspect (find_prospect pid d'))
      end
  end.

End Routes.

(** ** FollowupAgent.getDueFollowUps (src/client/tailwind.config.js) *)
Module Schedule.

(** The WHERE clause.  Every writer stores next_send_at as the
    [toISOString()] text of a time [t] (the model keeps [t]), and
    [f.next_send_at <= datetime('now')] compares that text with
    'YYYY-MM-DD HH:MM:SS'; a NULL on either side compares as unknown. *)
Definition due_row (tnow : Z) (s : sequence) (p : prospect) : bool :=
  Z.eqb (s_paused s) 0
  && match s_next_send_at s, sqlite_datetime tnow with
     | Some t, Some nowText =>
         match toISOString t with Returned iso => str_le iso nowText | Thrown _ => false end
     | _, _ => false
     end
  && (s_step s <? s_max_steps s)
  && Z.eqb (p_automation_enabled p) 1
  && String.eqb (p_stage p) "contacted".

(** [SELECT f.*, p.... FROM follow_up_sequences f JOIN prospects p ON
    f.prospect_id = p.id WHERE ...] *)
Definition getDueFollowUps (d : db) : list (sequence * prospect) :=
  flat_map (fun s => map (fun p => (s, p))
              (filter (fun p => Z.eqb (s_prospect_id s) (p_id p) && due_row (now d) s p)
                      (prospects d)))
           (sequences d).

End Schedule.

(** ** Sample data *)
Module Samples.

Definition sample_prospect (email : option string) (stage : string) (auto : Z)
    : prospect :=
  mkProspect 1 "Acme Plumbing" email None stage auto.

Definition sample_sequence (step max paused : Z) : sequence :=
  mkSequence 1 1 step max 3 paused None None.

Definition sample_db (ps : list prospect) (ss : list sequence) : db :=
  mkDb ps ss [] [] [] [] [] [] 1 0.

(** Collaborators that always answer; [ready] is [emailService.isReady()]. *)
Definition sample_env (ready : bool) : env :=
  mkEnv (fun _ _ => Returned "Hello from us") (fun _ _ _ => Returned "Following up")
        (fun _ _ => Returned "Quick question") (fun s _ => s) ready
        (fun _ _ _ => Returned (mkSendResult true (Some "msg-1") None)).

End Samples.

(** * Proofs *)

(** ** Task queue *)
Module OrchestratorProofs.
Import Orchestrator.
Section OrchestratorProofs.

Context {Payload : Type} `{JSONCodec Payload}.
Context {Result : Type} `{ResultCodec Result}.

(** An agent whose [execute] throws on every call. *)
Definition always_throws (a : @agent Payload Result) : Prop :=
  forall pid p, exists msg, a pid p = Thrown msg.

Lemma processTask_throwing (reg : @registry Payload Result) (a : agent) (tnow : Z)
    (t : task) :
  getAgent reg (t_agent_type t) = Some a -> always_throws a ->
  t_status (fst (processTask reg tnow t)) =
    (if t_attempts t <? 3 then "pending" else "failed") /\
  t_attempts (fst (processTask reg tnow t)) = t_attempts t + 2 /\
  t_scheduled_for (fst (processTask reg tnow t)) = t_scheduled_for t /\
  t_agent_type (fst (processTask reg tnow t)) = t_agent_type t.
Proof.
  intros Hget Hthrow. unfold processTask. rewrite Hget.
  destruct (decodePayload (t_payload t)) as [p|].
  - destruct (Hthrow (t_prospect_id t) p) as [msg Hmsg]. rewrite Hmsg.
    destruct (t_attempts t <? 3); simpl; repeat split; lia.
  - destruct (t_attempts t <? 3); simpl; repeat split; lia.
Qed.

Lemma is_due_later (tnow : Z) (t : task) :
  is_due tnow t = true -> is_due (tnow + 1) t = true.
Proof.
  unfold is_due. destruct (String.eqb (t_status t) "pending"); simpl; [|discriminate].
  destruct (t_scheduled_for t); [|reflexivity]. intros Hle.
  apply Z.leb_le in Hle. apply Z.leb_le. lia.
Qed.

(** The row after [k] failed dispatches, then [n] more ticks. *)
Lemma ticks_throwing (reg : @registry Payload Result) (a : agent) :
  always_throws a ->
  forall n k tnow t,
    getAgent reg (t_agent_type t) = Some a ->
    (k <= 3)%nat ->
    t_attempts t = 2 * Z.of_nat k ->
    t_status t = (if (k <? 3)%nat then "pending" else "failed") ->
    match t_scheduled_for t with None => True | Some s => s <= tnow end ->
    t_attempts (ticks reg n tnow t) = 2 * Z.of_nat (Nat.min (k + n) 3) /\
    t_status (ticks reg n tnow t) =
      (if (k + n <? 3)%nat then "pending" else "failed").
Proof.
  intros Hthrow n. induction n as [|n IH]; intros k tnow t Hget Hk Hatt Hst Hsch.
  - simpl. rewrite Nat.add_0_r, Nat.min_l by lia. split; assumption.
  - simpl. unfold dispatch_if_due.
    assert (Hdue_sched : match t_scheduled_for t with None => true | Some s => s <=? tnow end = true).
    { destruct (t_scheduled_for t); [apply Z.leb_le; lia | reflexivity]. }
    destruct (Nat.ltb_spec k 3) as [Hlt|Hge].
    + (* still pending: dispatched, fails *)
      assert (Hdue : is_due tnow t = true).
      { unfold is_due. rewrite Hst, Hdue_sched. reflexivity. }
      rewrite Hdue.
      destruct (processTask_throwing reg a tnow t Hget Hthrow) as (Hs & Ha & Hsc & Hty).
      specialize (IH (S k) (tnow + 1) (fst (processTask reg tnow t))).
      replace (k + S n)%nat with (S k + n)%nat by lia.
      apply IH.
      * rewrite Hty. exact Hget.
      * lia.
      * rewrite Ha, Hatt. lia.
      * rewrite Hs, Hatt.
        replace (2 * Z.of_nat k <? 3) with (Nat.ltb k 2).
        -- destruct k as [|[|[|k]]]; simpl; try reflexivity; lia.
        -- destruct k as [|[|[|k]]]; simpl; try reflexivity; lia.
      * rewrite Hsc. destruct (t_scheduled_for t); [lia | exact I].
    + (* already failed: never drained again *)
      assert (Hk3 : k = 3%nat) by lia. subst k.
      assert (Hnd : is_due tnow t = false).
      { unfold is_due. rewrite Hst. reflexivity. }
      rewrite Hnd.
      destruct (IH 3%nat (tnow + 1) t Hget Hk Hatt Hst) as [IHa IHs].
      { destruct (t_scheduled_for t); [lia | exact I]. }
      rewrite IHa, IHs.
      replace (Nat.min (3 + S n) 3) with (Nat.min (3 + n) 3) by lia.
      split; [reflexivity|].
      replace (3 + n <? 3)%nat with false by (symmetry; apply Nat.ltb_ge; lia).
      replace (3 + S n <? 3)%nat with false by (symmetry; apply Nat.ltb_ge; lia).
      reflexivity.
Qed.

(** C1 (code_bug): a freshly queued task whose agent throws on every call,
    after [N] ticks that each dispatch it while it is pending and due, has
    [attempts = 2 * min(N, 3)] (each failed dispatch runs [attempts + 1]
    twice, once for 'processing' and once for the outcome), and is 'failed'
    exactly when [N >= 3]. *)
Theorem C1_attempts_after_failures (reg : @registry Payload Result) (a : agent)
    (N : nat) (id tnow : Z) (ty : string) (pid : Z) (pl : option Payload) :
  getAgent reg ty = Some a -> always_throws a ->
  let t := ticks reg N tnow (queueTask id tnow ty pid pl None) in
  t_attempts t = 2 * Z.of_nat (Nat.min N 3) /\
  (t_status t = "failed" <-> (3 <= N)%nat).
Proof.
  intros Hget Hthrow. simpl.
  destruct (ticks_throwing reg a Hthrow N 0 tnow (queueTask id tnow ty pid pl None))
    as [Ha Hs]; simpl; try lia; try exact Hget; try reflexivity; try exact I.
  simpl Nat.add in Ha, Hs.
  split; [exact Ha|]. rewrite Hs.
  destruct (Nat.ltb_spec N 3); split; intros; try lia; try discriminate; reflexivity.
Qed.

(** Concrete run behind C1's failing input: one failed dispatch of a fresh
    task leaves [attempts = 2], not 1. *)
Definition throwing_agent : @agent Payload Result := fun _ _ => Thrown "provider error".

Lemma C1_one_failure_gives_two_attempts (id tnow pid : Z) :
  t_attempts (ticks [("outreach", throwing_agent)] 1 tnow
                (queueTask id tnow "outreach" pid None None)) = 2 /\
  t_status (ticks [("outreach", throwing_agent)] 1 tnow
                (queueTask id tnow "outreach" pid None None)) = "pending".
Proof.
  unfold ticks, dispatch_if_due, processTask, queueTask. cbn -[decodePayload].
  destruct (decodePayload (Some (json_stringify empty_obj))); simpl; split; reflexivity.
Qed.

(** C8: a task for an agent type with no registered agent, dispatched when
    due, is marked 'failed' at once with the error "No agent for type: ...",
    its attempts counter is 1, and no later tick changes it again (it never
    returns to 'pending'). *)
Theorem C8_unregistered_agent_fails_once (reg : @registry Payload Result)
    (id tnow : Z) (ty : string) (pid : Z) (pl : option Payload) (sched : option Z)
    (n : nat) :
  getAgent reg ty = None ->
  match sched with None => True | Some s => s <= tnow end ->
  let t := ticks reg (S n) tnow (queueTask id tnow ty pid pl sched) in
  t_status t = "failed" /\ t_attempts t = 1 /\
  t_error t = Some ("No agent for type: " ++ ty) /\ t_completed_at t = Some tnow.
Proof.
  intros Hnone Hsched. simpl.
  assert (Hdue : is_due tnow (queueTask id tnow ty pid pl sched) = true).
  { unfold is_due, queueTask. simpl. destruct sched; [apply Z.leb_le; lia|reflexivity]. }
  unfold dispatch_if_due. rewrite Hdue. unfold processTask. simpl. rewrite Hnone.
  set (t1 := updateTaskStatus tnow _ "failed" None _).
  assert (Hstay : forall m tm, ticks reg m tm t1 = t1).
  { intros m. induction m as [|m IHm]; intros tm; [reflexivity|].
    simpl. unfold dispatch_if_due.
    replace (is_due tm t1) with false by reflexivity. apply IHm. }
  rewrite Hstay.
  subst t1. simpl. repeat split.
Qed.

End OrchestratorProofs.

Lemma C1_attempts_after_failures_witness :
  let reg : @Orchestrator.registry (Json.json Z) outcome :=
    [("outreach", throwing_agent)] in
  getAgent reg "outreach" = Some throwing_agent /\
  always_throws (@throwing_agent (Json.json Z) outcome) /\
  t_attempts (ticks reg 1 0 (queueTask 1 0 "outreach" 7 None None)) = 2.
Proof.
  intros reg.
  assert (Hg : getAgent reg "outreach" = Some throwing_agent) by reflexivity.
  assert (Ht : always_throws (@throwing_agent (Json.json Z) outcome)).
  { intros pid p. exists "provider error". reflexivity. }
  split; [exact Hg|]. split; [exact Ht|].
  destruct (C1_attempts_after_failures reg throwing_agent 1 1 0 "outreach" 7 None Hg Ht)
    as [Ha _].
  exact Ha.
Defined.

Lemma C8_unregistered_agent_fails_once_witness :
  getAgent ([] : @Orchestrator.registry (Json.json Z) outcome) "unknown_agent" = None /\
  t_attempts (ticks ([] : @Orchestrator.registry (Json.json Z) outcome) 4 0
                (queueTask 1 0 "unknown_agent" 7 None None)) = 1.
Proof.
  split; [reflexivity|].
  destruct (C8_unregistered_agent_fails_once [] 1 0 "unknown_agent" 7 None None 3)
    as (_ & Ha & _); [reflexivity | exact I | exact Ha].
Defined.

End OrchestratorProofs.

(** ** The drain query *)
Module DrainProofs.
Import Orchestrator.

Lemma filter_perm_length {A} (f : A -> bool) (l l' : list A) :
  Permutation l l' -> length (filter f l) = length (filter f l').
Proof.
  induction 1; simpl; try reflexivity.
  - destruct (f x); simpl; congruence.
  - destruct (f x), (f y); reflexivity.
  - congruence.
Qed.

Lemma insert_by_created_perm (t : task) (l : list task) :
  Permutation (insert_by_created t l) (t :: l).
Proof.
  induction l as [|x l IH]; simpl; [reflexivity|].
  destruct (t_created_at t <=? t_created_at x); [reflexivity|].
  rewrite IH. apply perm_swap.
Qed.

Lemma sort_by_created_perm (l : list task) : Permutation (sort_by_created l) l.
Proof.
  induction l as [|x l IH]; simpl; [reflexivity|].
  rewrite insert_by_created_perm. apply perm_skip, IH.
Qed.

Lemma insert_by_created_hd (x t : task) (l : list task) :
  HdRel created_le x l -> created_le x t -> HdRel created_le x (insert_by_created t l).
Proof.
  destruct l as [|y l]; simpl; intros Hhd Hxt.
  - constructor. exact Hxt.
  - destruct (t_created_at t <=? t_created_at y); constructor; [exact Hxt|].
    inversion Hhd; assumption.
Qed.

Lemma insert_by_created_sorted (t : task) (l : list task) :
  Sorted created_le l -> Sorted created_le (insert_by_created t l).
Proof.
  induction l as [|x l IH]; simpl; intros Hs.
  - repeat constructor.
  - destruct (Z.leb_spec (t_created_at t) (t_created_at x)).
    + constructor; [exact Hs|]. constructor. unfold created_le. lia.
    + inversion Hs; subst. constructor; [apply IH; assumption|].
      apply insert_by_created_hd; [assumption|]. unfold created_le. lia.
Qed.

Lemma sort_by_created_sorted (l : list task) : Sorted created_le (sort_by_created l).
Proof.
  induction l as [|x l IH]; simpl; [constructor|].
  apply insert_by_created_sorted, IH.
Qed.

Lemma sorted_firstn (k : nat) (l : list task) :
  Sorted created_le l -> Sorted created_le (firstn k l).
Proof.
  revert l. induction k as [|k IH]; intros l Hs; [constructor|].
  destruct l as [|x l]; simpl; [constructor|].
  inversion Hs as [|? ? Hs' Hhd]; subst. constructor; [apply IH; exact Hs'|].
  destruct k as [|k]; [constructor|]. destruct l as [|y l]; simpl; [constructor|].
  inversion Hhd; subst. constructor. assumption.
Qed.

Lemma created_le_trans : Relations_1.Transitive created_le.
Proof. unfold Relations_1.Transitive, created_le. intros. lia. Qed.

Lemma option_Z_eq_dec : forall x y : option Z, {x = y} + {x <> y}.
Proof. decide equality; apply Z.eq_dec. Qed.

Lemma option_string_eq_dec : forall x y : option string, {x = y} + {x <> y}.
Proof. decide equality; apply string_dec. Qed.

Lemma task_eq_dec : forall x y : task, {x = y} + {x <> y}.
Proof.
  decide equality;
    first [apply Z.eq_dec | apply string_dec | apply option_Z_eq_dec
          | apply option_string_eq_dec].
Qed.

(** A row of a sorted list that is not among its first [k] rows has at least
    [k] rows before it that were created no later than it. *)
Lemma not_in_firstn_count (t : task) (l : list task) (k : nat) :
  Sorted created_le l -> In t l -> ~ In t (firstn k l) ->
  Nat.lt k (length (filter (fun u => t_created_at u <=? t_created_at t) l)).
Proof.
  revert k. induction l as [|x l IH]; intros k Hs Hin Hnot; [destruct Hin|].
  apply Sorted_StronglySorted in Hs; [|exact created_le_trans].
  inversion Hs as [|? ? Hs' Hall]; subst.
  apply StronglySorted_Sorted in Hs'.
  destruct k as [|k].
  - destruct Hin as [<-|Hin]; simpl.
    + rewrite Z.leb_refl. simpl. lia.
    + rewrite Forall_forall in Hall. specialize (Hall t Hin). unfold created_le in Hall.
      replace (t_created_at x <=? t_created_at t) with true by (symmetry; apply Z.leb_le; lia).
      simpl. lia.
  - simpl in Hnot. assert (Hxt : x <> t) by tauto.
    assert (Hin' : In t l) by (destruct Hin; [contradiction|assumption]).
    assert (IHk := IH k Hs' Hin' (fun h => Hnot (or_intror h))).
    rewrite Forall_forall in Hall. specialize (Hall t Hin'). unfold created_le in Hall.
    simpl. replace (t_created_at x <=? t_created_at t) with true
      by (symmetry; apply Z.leb_le; lia).
    simpl. lia.
Qed.

(** In a [created_at]-sorted list, a row among the first [k] has fewer
    than [k] rows created strictly before it. *)
Lemma in_firstn_count_lt (t : task) (l : list task) (k : nat) :
  Sorted created_le l -> In t (firstn k l) ->
  Nat.lt (length (filter (fun u => t_created_at u <? t_created_at t) l)) k.
Proof.
  revert k. induction l as [|x l IH]; intros k Hs Hin; [destruct k; destruct Hin|].
  destruct k as [|k]; [destruct Hin|].
  apply Sorted_StronglySorted in Hs; [|exact created_le_trans].
  inversion Hs as [|? ? Hs' Hall]; subst. rewrite Forall_forall in Hall.
  destruct Hin as [<-|Hin].
  - simpl. rewrite Z.ltb_irrefl.
    assert (H0 : filter (fun u => t_created_at u <? t_created_at x) l = []).
    { clear -Hall. induction l as [|y l IHl]; [reflexivity|]. simpl.
      assert (Hy := Hall y (or_introl eq_refl)). unfold created_le in Hy.
      replace (t_created_at y <? t_created_at x) with false by (symmetry; apply Z.ltb_ge; lia).
      apply IHl. intros z Hz. apply Hall. right. exact Hz. }
    rewrite H0. simpl. lia.
  - apply StronglySorted_Sorted in Hs'. specialize (IH k Hs' Hin).
    simpl. destruct (t_created_at x <? t_created_at t); simpl; lia.
Qed.

(** C7 (amended): [getPendingTasks] returns at most [limit] rows of the
    table, each pending with [scheduled_for] null or [<= now], in ascending
    [created_at] order (the executable query is one admissible result); a
    row scheduled after [now] is never returned; and a due row is returned
    whenever at most [limit] due rows (itself included) were created no
    later than it, and never when more than [limit] due rows were created
    strictly before it. *)
Theorem C7_drain_due_tasks (tnow : Z) (limit : nat) (table : list task) :
  getPendingTasks_result tnow limit table (getPendingTasks tnow limit table) /\
  forall out, getPendingTasks_result tnow limit table out ->
    (forall u, In u out ->
       In u table /\ t_status u = "pending" /\
       (t_scheduled_for u = None \/ exists s, t_scheduled_for u = Some s /\ s <= tnow)) /\
    Sorted created_le out /\ (length out <= limit)%nat /\
    (forall u s, t_scheduled_for u = Some s -> tnow < s -> ~ In u out) /\
    (forall u, In u table -> is_due tnow u = true ->
       Nat.le (length (filter (fun w => t_created_at w <=? t_created_at u)
                         (filter (is_due tnow) table))) limit ->
       In u out) /\
    (forall u, Nat.lt limit (length (filter (fun w => t_created_at w <? t_created_at u)
                                      (filter (is_due tnow) table))) ->
       ~ In u out).
Proof.
  split.
  { exists (sort_by_created (filter (is_due tnow) table)). split; [|split].
    - apply sort_by_created_perm.
    - apply sort_by_created_sorted.
    - reflexivity. }
  intros out (L & Hperm & Hsorted & ->).
  assert (Hmem : forall u, In u (firstn limit L) -> In u table /\ is_due tnow u = true).
  { intros u Hu.
    assert (HuL : In u L).
    { rewrite <- (firstn_skipn limit L). apply in_or_app. left. exact Hu. }
    apply (Permutation_in _ Hperm), filter_In in HuL. exact HuL. }
  split; [|split; [|split; [|split; [|split]]]].
  - intros u Hu. destruct (Hmem u Hu) as [Hin Hdue]. split; [exact Hin|].
    unfold is_due in Hdue. apply andb_prop in Hdue as [Hst Hsch].
    split; [apply String.eqb_eq; exact Hst|].
    destruct (t_scheduled_for u) as [s|]; [right; exists s; split; [reflexivity|]|left; reflexivity].
    apply Z.leb_le. exact Hsch.
  - apply sorted_firstn. exact Hsorted.
  - apply firstn_le_length.
  - intros u s Hs Hlt Hu. destruct (Hmem u Hu) as [_ Hdue].
    unfold is_due in Hdue. rewrite Hs in Hdue. apply andb_prop in Hdue as [_ Hle].
    apply Z.leb_le in Hle. lia.
  - intros u Hin Hdue Hcount.
    destruct (In_dec task_eq_dec u (firstn limit L)) as [Hyes|Hno]; [exact Hyes|].
    exfalso.
    assert (HuL : In u L).
    { apply (Permutation_in _ (Permutation_sym Hperm)). apply filter_In. split; assumption. }
    pose proof (not_in_firstn_count u L limit Hsorted HuL Hno) as Hlt.
    rewrite (filter_perm_length _ _ _ Hperm) in Hlt. lia.
  - intros u Hmany Hu. pose proof (in_firstn_count_lt u L limit Hsorted Hu) as Hlt.
    rewrite (filter_perm_length _ _ _ Hperm) in Hlt. lia.
Qed.

(** C7 (counterexample): the first drain at the scheduled time of a task
    need not return it: with [limit = 1] and an older due task, the task
    scheduled for time 5 is due at time 5 but no admissible result of the
    drain at time 5 contains it. *)
Lemma C7_limit_holds_back_due_task :
  let a := mkTask 1 7 "followup" "pending" None (Some "{}") None None 0 0 None in
  let b := mkTask 2 8 "followup" "pending" (Some 5) (Some "{}") None None 0 1 None in
  is_due 4 b = false /\ is_due 5 b = true /\
  (forall out, getPendingTasks_result 5 1 [a; b] out -> ~ In b out).
Proof.
  intros a b. split; [reflexivity|]. split; [reflexivity|].
  intros out (L & Hperm & Hsorted & ->).
  simpl in Hperm. apply Permutation_sym, Permutation_length_2_inv in Hperm.
  destruct Hperm as [-> | ->].
  - simpl. intros [Hab|[]]. discriminate Hab.
  - inversion Hsorted as [|? ? _ Hhd]; subst. inversion Hhd as [|? ? Hle]; subst.
    unfold created_le in Hle. simpl in Hle. lia.
Qed.

End DrainProofs.

(** ** The Outreach and FollowUp agents *)
Module AgentProofs.

Lemma bind_get_eq {A} (k : db -> M A) (d : db) : bind get k d = k d d.
Proof. reflexivity. Qed.

Lemma bind_inv {A B} (m : M A) (k : A -> M B) d r d' :
  bind m k d = (r, d') ->
  (exists msg, m d = (Thrown msg, d') /\ r = Thrown msg) \/
  (exists a d1, m d = (Returned a, d1) /\ k a d1 = (r, d')).
Proof.
  unfold bind. destruct (m d) as [[msg|a] d1]; intros H.
  - left. inversion H; subst. eauto.
  - right. eauto.
Qed.

Lemma insert_campaign_eq pid tid subject body d :
  insert_campaign pid tid subject body d =
  (Returned (next_id d),
   bump_id (with_campaigns
     (fun l => app l [mkCampaign (next_id d) pid tid subject body "pending" None]) d)).
Proof. reflexivity. Qed.

(** Split a hypothesis [bind m k d = (r, d')] into the throwing and the
    returning run of [m]. *)
Ltac bind_step H :=
  let msg := fresh "msg" in let Hm := fresh "Hm" in let a := fresh "a" in
  let d1 := fresh "d1" in
  apply bind_inv in H; destruct H as [(msg & Hm & ->) | (a & d1 & Hm & H)].

(** The campaign row [cid] once [UPDATE campaigns SET status = ...] ran. *)
Definition campaigns_after_status (cid : Z) (st : string) (l : list campaign)
    : list campaign :=
  map (fun c => if Z.eqb (c_id c) cid then set_campaign_status st None c else c) l.

(** The recipient is missing or the delivery service is not configured. *)
Definition cannot_deliver (e : env) (p : prospect) : Prop :=
  str_falsy (p_email p) = true \/ email_isReady e = false.

Lemma outreach_sendEmail_draft (e : env) (p : prospect) (subj body : string)
    (cid : Z) (d : db) :
  cannot_deliver e p ->
  exists msg d', Outreach.sendEmail e p subj body cid d = (Returned (false, Some msg), d') /\
    campaigns d' = campaigns_after_status cid "draft" (campaigns d).
Proof.
  intros Hc. unfold cannot_deliver, str_falsy in Hc. unfold Outreach.sendEmail.
  destruct (p_email p) as [addr|].
  - destruct (String.eqb addr "") eqn:Ha.
    + do 2 eexists. split; reflexivity.
    + destruct Hc as [Hc|Hc]; [discriminate|]. rewrite Hc. simpl.
      do 2 eexists. split; reflexivity.
  - do 2 eexists. split; reflexivity.
Qed.

Lemma followup_sendEmail_draft (e : env) (p : prospect) (subj body : string)
    (cid : Z) (d : db) :
  cannot_deliver e p ->
  exists msg d', FollowUp.sendEmail e p subj body cid d = (Returned (false, Some msg), d') /\
    campaigns d' = campaigns_after_status cid "draft" (campaigns d).
Proof.
  intros Hc. unfold cannot_deliver, str_falsy in Hc. unfold FollowUp.sendEmail.
  destruct (p_email p) as [addr|].
  - destruct (String.eqb addr "") eqn:Ha.
    + do 2 eexists. split; reflexivity.
    + destruct Hc as [Hc|Hc]; [discriminate|]. rewrite Hc. simpl.
      do 2 eexists. split; reflexivity.
  - do 2 eexists. split; reflexivity.
Qed.

Lemma outreach_undeliverable (e : env) (pid : Z) (pl : Outreach.payload) (d : db)
    (p : prospect) (r : js_result outcome) (d' : db) :
  find_prospect pid d = Some p -> cannot_deliver e p ->
  Outreach.execute e pid pl d = (r, d') ->
  (exists msg, r = Thrown msg /\ campaigns d' = campaigns d) \/
  (exists reason, r = Returned (Skipped reason) /\ d' = d) \/
  (exists cid subj body err, r = Returned (CampaignOutcome cid None subj false err) /\
     In (mkCampaign cid pid (Outreach.templateId pl) subj body "draft" None) (campaigns d')).
Proof.
  intros Hf Hc Hex. unfold Outreach.execute in Hex. rewrite bind_get_eq, Hf in Hex.
  destruct (int_falsy (p_automation_enabled p)).
  { inversion Hex; subst. right; left. eauto. }
  destruct (negb _).
  { inversion Hex; subst. right; left. eauto. }
  destruct (0 <? _).
  { inversion Hex; subst. right; left. eauto. }
  bind_step Hex.
  { left. exists msg. split; [reflexivity|].
    destruct (_ || _)%bool.
    - unfold bind, lift in Hm. destruct (generateOutreachEmail _ _ _); [congruence|].
      destruct (generateSubjectLine _ _ _); [congruence|]. discriminate.
    - discriminate. }
  assert (Hd1 : d1 = d).
  { destruct (_ || _)%bool.
    - unfold bind, lift in Hm. destruct (generateOutreachEmail _ _ _); [congruence|].
      destruct (generateSubjectLine _ _ _); [congruence|]. unfold ret in Hm. congruence.
    - unfold ret in Hm. congruence. }
  subst d1. clear Hm.
  bind_step Hex; rewrite insert_campaign_eq in Hm; [discriminate|].
  injection Hm as <- <-.
  bind_step Hex; unfold log_activity, modify in Hm; [discriminate|]. injection Hm as <- <-.
  bind_step Hex;
    (match type of Hm with Outreach.sendEmail _ _ _ _ _ ?dd = _ =>
       destruct (outreach_sendEmail_draft e p (snd a) (fst a) (next_id d) dd Hc)
         as (m' & d2 & Hs & Hcs) end); [congruence|].
  rewrite Hs in Hm. injection Hm as <- <-. simpl in Hex.
  unfold bind, ret in Hex. injection Hex as <- <-.
  right; right. do 4 eexists. split; [reflexivity|].
  rewrite Hcs. unfold campaigns_after_status. simpl. rewrite map_app. apply in_or_app.
  right. simpl. rewrite Z.eqb_refl. left. reflexivity.
Qed.

Lemma followup_undeliverable (e : env) (pid : Z) (d : db)
    (p : prospect) (r : js_result outcome) (d' : db) :
  find_prospect pid d = Some p -> cannot_deliver e p ->
  FollowUp.execute e pid d = (r, d') ->
  (exists msg, r = Thrown msg /\ campaigns d' = campaigns d) \/
  (exists reason, r = Returned (Skipped reason) /\ d' = d) \/
  (exists reason, r = Returned (Completed reason) /\ campaigns d' = campaigns d) \/
  (exists cid n subj body err, r = Returned (CampaignOutcome cid (Some n) subj false err) /\
     In (mkCampaign cid pid None subj body "draft" None) (campaigns d')).
Proof.
  intros Hf Hc Hex. unfold FollowUp.execute in Hex. rewrite bind_get_eq, Hf in Hex.
  destruct (int_falsy (p_automation_enabled p)).
  { inversion Hex; subst. right; left. eauto. }
  destruct (negb _).
  { inversion Hex; subst. right; left. eauto. }
  destruct (find_sequence pid d) as [s|].
  2:{ inversion Hex; subst. right; left. eauto. }
  destruct (negb _).
  { inversion Hex; subst. right; left. eauto. }
  destruct (s_max_steps s <=? s_step s).
  { unfold bind, update_stage, log_activity, modify, ret in Hex.
    injection Hex as <- <-. right; right; left. eauto. }
  bind_step Hex; unfold lift in Hm.
  { left. exists msg. split; [reflexivity|]. congruence. }
  injection Hm as _ <-.
  bind_step Hex; unfold lift in Hm.
  { left. exists msg. split; [reflexivity|]. congruence. }
  injection Hm as _ <-.
  bind_step Hex; rewrite insert_campaign_eq in Hm; [discriminate|].
  injection Hm as <- <-.
  bind_step Hex; unfold log_activity, modify in Hm; [discriminate|]. injection Hm as <- <-.
  bind_step Hex;
    (match type of Hm with FollowUp.sendEmail _ _ ?sj ?bd _ ?dd = _ =>
       destruct (followup_sendEmail_draft e p sj bd (next_id d) dd Hc)
         as (m' & d2 & Hs & Hcs) end); [congruence|].
  rewrite Hs in Hm. injection Hm as <- <-. simpl in Hex.
  unfold bind, ret in Hex. injection Hex as <- <-.
  right; right; right. do 5 eexists. split; [reflexivity|].
  rewrite Hcs. unfold campaigns_after_status. simpl. rewrite map_app. apply in_or_app.
  right. simpl. rewrite Z.eqb_refl. left. reflexivity.
Qed.

(** C3: a prospect whose [automation_enabled] is 0 at execution time makes
    both [OutreachAgent.execute] (for every payload) and
    [FollowupAgent.execute] return the skipped outcome "Automation disabled
    for this prospect" and leave the whole database unchanged: the stage is
    not written, no campaign is created and nothing is sent.  The flag is
    read from the database the agent runs on, whatever was true when the
    task was queued. *)
Theorem C3_automation_disabled_skips (e : env) (pid : Z) (d : db) (p : prospect) :
  find_prospect pid d = Some p -> p_automation_enabled p = 0 ->
  (forall pl, Outreach.execute e pid pl d =
              (Returned (Skipped "Automation disabled for this prospect"), d)) /\
  FollowUp.execute e pid d =
    (Returned (Skipped "Automation disabled for this prospect"), d).
Proof.
  intros Hf Ha. unfold int_falsy. split.
  - intros pl. unfold Outreach.execute. rewrite bind_get_eq, Hf, Ha. reflexivity.
  - unfold FollowUp.execute. rewrite bind_get_eq, Hf, Ha. reflexivity.
Qed.

(** C9: when the prospect has no (or an empty) email address, or the email
    service is not ready, an Outreach or FollowUp run that creates a
    campaign returns normally with [sent = false], and the campaign it
    created is stored with status 'draft'.  The other runs create no
    campaign: they skip (database unchanged), complete the max-steps path,
    or throw from the LLM before the campaign insert.  A task whose agent
    returns normally is marked 'completed' by [processTask], with no error. *)
Theorem C9_undeliverable_is_draft (e : env) (pid : Z) (d : db) (p : prospect) :
  find_prospect pid d = Some p -> cannot_deliver e p ->
  (forall pl r d', Outreach.execute e pid pl d = (r, d') ->
     (exists msg, r = Thrown msg /\ campaigns d' = campaigns d) \/
     (exists reason, r = Returned (Skipped reason) /\ d' = d) \/
     (exists cid subj body err, r = Returned (CampaignOutcome cid None subj false err) /\
        In (mkCampaign cid pid (Outreach.templateId pl) subj body "draft" None)
           (campaigns d'))) /\
  (forall r d', FollowUp.execute e pid d = (r, d') ->
     (exists msg, r = Thrown msg /\ campaigns d' = campaigns d) \/
     (exists reason, r = Returned (Skipped reason) /\ d' = d) \/
     (exists reason, r = Returned (Completed reason) /\ campaigns d' = campaigns d) \/
     (exists cid n subj body err, r = Returned (CampaignOutcome cid (Some n) subj false err) /\
        In (mkCampaign cid pid None subj body "draft" None) (campaigns d'))) /\
  (forall (reg : @Orchestrator.registry (Json.json Z) outcome) a t tnow pj o,
     Orchestrator.getAgent reg (t_agent_type t) = Some a ->
     Orchestrator.decodePayload (t_payload t) = Some pj ->
     a (t_prospect_id t) pj = Returned o ->
     t_status (fst (Orchestrator.processTask reg tnow t)) = "completed" /\
     t_error (fst (Orchestrator.processTask reg tnow t)) = None).
Proof.
  intros Hf Hc. split; [|split].
  - intros pl r d'. apply (outreach_undeliverable e pid pl d p); assumption.
  - intros r d'. apply (followup_undeliverable e pid d p); assumption.
  - intros reg a t tnow pj o Hg Hd Ha. unfold Orchestrator.processTask.
    rewrite Hg, Hd, Ha. split; reflexivity.
Qed.

End AgentProofs.

Import Samples.

Lemma C3_automation_disabled_skips_witness :
  let p := sample_prospect (Some "owner@acme.test") "contacted" 0 in
  let d := sample_db [p] [sample_sequence 0 3 0] in
  find_prospect 1 d = Some p /\ p_automation_enabled p = 0 /\
  FollowUp.execute (sample_env true) 1 d =
    (Returned (Skipped "Automation disabled for this prospect"), d).
Proof.
  intros p d.
  assert (Hf : find_prospect 1 d = Some p) by reflexivity.
  assert (Ha : p_automation_enabled p = 0) by reflexivity.
  split; [exact Hf|]. split; [exact Ha|].
  exact (proj2 (AgentProofs.C3_automation_disabled_skips (sample_env true) 1 d p Hf Ha)).
Defined.

Lemma C9_undeliverable_is_draft_witness :
  let p := sample_prospect None "new" 1 in
  let d := sample_db [p] [] in
  let pl := Outreach.mkPayload None false in
  find_prospect 1 d = Some p /\ AgentProofs.cannot_deliver (sample_env true) p /\
  fst (Outreach.execute (sample_env true) 1 pl d) =
    Returned (CampaignOutcome 1 None "Quick question" false (Some "No email address")) /\
  In (mkCampaign 1 1 None "Quick question" "Hello from us" "draft" None)
     (campaigns (snd (Outreach.execute (sample_env true) 1 pl d))).
Proof.
  intros p d pl.
  assert (Hf : find_prospect 1 d = Some p) by reflexivity.
  assert (Hc : AgentProofs.cannot_deliver (sample_env true) p) by (left; reflexivity).
  split; [exact Hf|]. split; [exact Hc|].
  destruct (AgentProofs.C9_undeliverable_is_draft (sample_env true) 1 d p Hf Hc)
    as [Ho _].
  destruct (Ho pl _ _ (surjective_pairing _)) as [(msg & Hr & _)|[(rs & Hr & _)|Hx]];
    [vm_compute in Hr; discriminate | vm_compute in Hr; discriminate |].
  destruct Hx as (cid & subj & body & err & Hr & Hin).
  split; [vm_compute; reflexivity|].
  vm_compute in Hr. injection Hr as <- <- <-.
  replace body with "Hello from us" in Hin; [exact Hin|].
  vm_compute in Hin. destruct Hin as [Hin|[]]. congruence.
Defined.

(** ** Stage writes *)
Module StageProofs.
Import AgentProofs.

(** [to] is listed in [validTransitions[from]] as an own property. *)
Definition listed_target (fromStage toStage : string) : bool :=
  match find (fun kv => String.eqb (fst kv) fromStage) Stage.validTransitions with
  | Some (_, l) => in_strings toStage l
  | None => false
  end.

(** The stored stage of prospect [pid]. *)
Definition stage_of (pid : Z) (d : db) : option string :=
  option_map p_stage (find_prospect pid d).

Definition automation_of (pid : Z) (d : db) : option Z :=
  option_map p_automation_enabled (find_prospect pid d).

Definition paused_of (pid : Z) (d : db) : option Z :=
  option_map s_paused (find_sequence pid d).

Lemma isValidTransition_own (fromStage toStage : string) :
  in_strings fromStage Stage.object_prototype_keys = false ->
  Stage.isValidTransition fromStage toStage = Returned (listed_target fromStage toStage).
Proof.
  intros Hk. unfold Stage.isValidTransition, Stage.get_property, listed_target.
  destruct (find _ Stage.validTransitions) as [[k l]|]; [reflexivity|].
  rewrite Hk. reflexivity.
Qed.

Lemma find_map_update {A} (f : A -> bool) (g : A -> A) (l : list A) :
  (forall x, f (g x) = f x) ->
  find f (map (fun x => if f x then g x else x) l) = option_map g (find f l).
Proof.
  intros Hg. induction l as [|x l IH]; simpl; [reflexivity|].
  destruct (f x) eqn:Hx; simpl.
  - rewrite Hg, Hx. reflexivity.
  - rewrite Hx. exact IH.
Qed.

Lemma find_map_other {A} (f c : A -> bool) (g : A -> A) (l : list A) :
  (forall x, f (g x) = f x) -> (forall x, c x = true -> f x = false) ->
  find f (map (fun x => if c x then g x else x) l) = find f l.
Proof.
  intros Hg Hc. induction l as [|x l IH]; simpl; [reflexivity|].
  destruct (c x) eqn:Hcx; simpl.
  - rewrite Hg, (Hc x Hcx). exact IH.
  - destruct (f x); [reflexivity|exact IH].
Qed.

(** [UPDATE prospects SET ... WHERE id = pid], read back by id. *)
Lemma find_prospect_update (g : prospect -> prospect) (pid q : Z) (d : db) :
  (forall p, p_id (g p) = p_id p) ->
  find_prospect q (with_prospects (map (fun p => if Z.eqb (p_id p) pid then g p else p)) d) =
  if Z.eqb q pid then option_map g (find_prospect q d) else find_prospect q d.
Proof.
  intros Hg. unfold find_prospect, with_prospects. simpl.
  destruct (Z.eqb_spec q pid) as [->|Hne].
  - apply find_map_update. intros x. rewrite Hg. reflexivity.
  - apply find_map_other.
    + intros x. rewrite Hg. reflexivity.
    + intros x Hx. apply Z.eqb_eq in Hx. rewrite Hx. apply Z.eqb_neq. congruence.
Qed.

(** [UPDATE follow_up_sequences SET ... WHERE prospect_id = pid], read back. *)
Lemma find_sequence_update (g : sequence -> sequence) (pid q : Z) (d : db) :
  (forall s, s_prospect_id (g s) = s_prospect_id s) ->
  find_sequence q (with_sequences
                     (map (fun s => if Z.eqb (s_prospect_id s) pid then g s else s)) d) =
  if Z.eqb q pid then option_map g (find_sequence q d) else find_sequence q d.
Proof.
  intros Hg. unfold find_sequence, with_sequences. simpl.
  destruct (Z.eqb_spec q pid) as [->|Hne].
  - apply find_map_update. intros x. rewrite Hg. reflexivity.
  - apply find_map_other.
    + intros x. rewrite Hg. reflexivity.
    + intros x Hx. apply Z.eqb_eq in Hx. rewrite Hx. apply Z.eqb_neq. congruence.
Qed.

Lemma find_prospect_id (pid : Z) (d : db) (p : prospect) :
  find_prospect pid d = Some p -> p_id p = pid.
Proof.
  unfold find_prospect. intros H. apply find_some in H as [_ H]. apply Z.eqb_eq, H.
Qed.

Lemma prototype_key_not_own (key : string) :
  in_strings key Stage.object_prototype_keys = true ->
  find (fun kv => String.eqb (fst kv) key) Stage.validTransitions = None.
Proof.
  unfold in_strings. intros H. apply existsb_exists in H as (x & Hin & Hx).
  apply String.eqb_eq in Hx. subst x.
  simpl in Hin. repeat (destruct Hin as [<-|Hin]; [reflexivity|]). destruct Hin.
Qed.

(** C4 (code_bug): from a stage that is not a property name of
    Object.prototype, [transitionTo] with a target not listed for that stage
    returns the failure "Invalid transition from ... to ..." and writes
    nothing.  From a stage such as 'constructor' (the PATCH /:id/stage route
    stores any string), [validTransitions[stage]] is an inherited function,
    [validTargets.includes] is not a function, and [transitionTo] throws
    instead of returning a failure, for every target. *)
Theorem C4_invalid_target_rejected :
  (forall p target reason d,
     in_strings (p_stage p) Stage.object_prototype_keys = false ->
     listed_target (p_stage p) target = false ->
     Stage.transitionTo p target reason d =
       (Returned (Stage.TransitionFailed ("Invalid transition from " ++ dq ++ p_stage p ++ dq
                                           ++ " to " ++ dq ++ target ++ dq)), d)) /\
  (forall p target reason d,
     in_strings (p_stage p) Stage.object_prototype_keys = true ->
     Stage.transitionTo p target reason d =
       (Thrown "validTargets.includes is not a function", d)).
Proof.
  split.
  - intros p target reason d Hk Hl. unfold Stage.transitionTo.
    rewrite (isValidTransition_own _ _ Hk), Hl. reflexivity.
  - intros p target reason d Hk. unfold Stage.transitionTo, Stage.isValidTransition,
      Stage.get_property.
    rewrite (prototype_key_not_own _ Hk), Hk. reflexivity.
Qed.

(** Scenario D: from 'won' no target is listed; [transitionTo] to
    'contacted' fails and the stored stage stays 'won'. *)
Lemma scenario_D_won_to_contacted :
  let p := Samples.sample_prospect None "won" 1 in
  let d := Samples.sample_db [p] [] in
  (exists msg, fst (Stage.transitionTo p "contacted" None d) = Returned (Stage.TransitionFailed msg)) /\
  stage_of 1 (snd (Stage.transitionTo p "contacted" None d)) = Some "won".
Proof.
  split; [eexists; reflexivity | reflexivity].
Qed.

(** The max-steps path of [FollowupAgent.execute]: the stage is set to
    'lost' by a direct UPDATE, an activity is logged, and nothing else. *)
Lemma followup_max_steps (e : env) (pid : Z) (d : db) (p : prospect) (s : sequence) :
  find_prospect pid d = Some p -> p_automation_enabled p <> 0 ->
  p_stage p = "contacted" -> find_sequence pid d = Some s -> s_paused s = 0 ->
  s_max_steps s <= s_step s ->
  exists d', FollowUp.execute e pid d =
               (Returned (Completed "Max follow-ups reached, moved to lost"), d') /\
    stage_of pid d' = Some "lost" /\
    automation_of pid d' = Some (p_automation_enabled p) /\
    sequences d' = sequences d /\ campaigns d' = campaigns d.
Proof.
  intros Hf Ha Hst Hs Hp Hmax. unfold FollowUp.execute. rewrite bind_get_eq, Hf.
  unfold int_falsy. rewrite (proj2 (Z.eqb_neq _ _) Ha), Hst, Hs, Hp.
  rewrite (proj2 (Z.leb_le _ _) Hmax). simpl. eexists. split; [reflexivity|].
  unfold stage_of, automation_of. simpl.
  change (find_prospect pid (with_activities ?f ?d0)) with (find_prospect pid d0).
  rewrite find_prospect_update by reflexivity. rewrite Z.eqb_refl, Hf. simpl.
  repeat split; reflexivity.
Qed.

Lemma find_id_update (g : prospect -> prospect) (pid q : Z) (l : list prospect) :
  (forall p, p_id (g p) = p_id p) ->
  find (fun p => Z.eqb (p_id p) q) (map (fun p => if Z.eqb (p_id p) pid then g p else p) l) =
  if Z.eqb q pid then option_map g (find (fun p => Z.eqb (p_id p) q) l)
  else find (fun p => Z.eqb (p_id p) q) l.
Proof.
  intros Hg. exact (find_prospect_update g pid q (mkDb l [] [] [] [] [] [] [] 0 0) Hg).
Qed.

Lemma find_seq_update (g : sequence -> sequence) (pid q : Z) (l : list sequence) :
  (forall s, s_prospect_id (g s) = s_prospect_id s) ->
  find (fun s => Z.eqb (s_prospect_id s) q)
       (map (fun s => if Z.eqb (s_prospect_id s) pid then g s else s) l) =
  if Z.eqb q pid then option_map g (find (fun s => Z.eqb (s_prospect_id s) q) l)
  else find (fun s => Z.eqb (s_prospect_id s) q) l.
Proof.
  intros Hg. exact (find_sequence_update g pid q (mkDb [] l [] [] [] [] [] [] 0 0) Hg).
Qed.

(** The 'lost' effects of [StageAgent.transitionTo]. *)
Lemma transition_to_lost (p : prospect) (reason : option string) (d : db) :
  in_strings (p_stage p) Stage.object_prototype_keys = false ->
  listed_target (p_stage p) "lost" = true ->
  find_prospect (p_id p) d = Some p ->
  let d' := snd (Stage.transitionTo p "lost" reason d) in
  stage_of (p_id p) d' = Some "lost" /\ automation_of (p_id p) d' = Some 0 /\
  paused_of (p_id p) d' = option_map (fun _ => 1) (find_sequence (p_id p) d).
Proof.
  intros Hk Hl Hf. unfold Stage.transitionTo. rewrite (isValidTransition_own _ _ Hk), Hl.
  simpl. unfold stage_of, automation_of, paused_of, find_prospect, find_sequence. simpl.
  rewrite !find_id_update by reflexivity. rewrite find_seq_update by reflexivity.
  rewrite Z.eqb_refl. unfold find_prospect in Hf. rewrite Hf. simpl.
  destruct (find _ (sequences d)); repeat split; reflexivity.
Qed.

(** The NOT_INTERESTED branch of [ResponseAgent.handleClassification]. *)
Lemma not_interested_effects (p : prospect) (summary : string) (d : db) :
  find_prospect (p_id p) d = Some p ->
  let d' := snd (Response.handleClassification p "NOT_INTERESTED" summary d) in
  stage_of (p_id p) d' = Some "lost" /\ automation_of (p_id p) d' = Some 0 /\
  paused_of (p_id p) d' = option_map (fun _ => 1) (find_sequence (p_id p) d).
Proof.
  intros Hf. unfold Response.handleClassification, Response.updateProspectStage. simpl.
  destruct (String.eqb_spec (p_stage p) "lost") as [Hlost|Hne]; simpl;
    unfold stage_of, automation_of, paused_of, find_prospect, find_sequence; simpl;
    rewrite ?find_id_update by reflexivity; rewrite ?find_seq_update by reflexivity;
    rewrite Z.eqb_refl; unfold find_prospect in Hf; rewrite Hf; simpl;
    [rewrite Hlost|]; destruct (find _ (sequences d)); repeat split; reflexivity.
Qed.


Lemma toISOString_thrown (t : Z) (msg : string) :
  toISOString t = Thrown msg -> msg = "Invalid time value" /\ js_time_limit < Z.abs t.
Proof.
  unfold toISOString. destruct (js_time_limit <? Z.abs t) eqn:Hl.
  - intros H. injection H as <-. split; [reflexivity|]. apply Z.ltb_lt, Hl.
  - destruct (date_time_parts t) as [[[[[y m] dd] hh] mi] ss]. discriminate.
Qed.

(** [handleStageEffects] throws only on entering 'contacted', when the
    first follow-up date is outside the Date range, and then it has
    written nothing. *)
Lemma handleStageEffects_throw (p : prospect) (st : string) (d d' : db) (msg : string) :
  Stage.handleStageEffects p st d = (Thrown msg, d') ->
  st = "contacted" /\ msg = "Invalid time value" /\ d' = d.
Proof.
  unfold Stage.handleStageEffects.
  destruct (String.eqb st "contacted") eqn:Hc.
  { apply String.eqb_eq in Hc. rewrite bind_get_eq. cbv zeta.
    destruct (find_sequence (p_id p) d); [discriminate|].
    destruct (toISOString _) as [m|iso] eqn:Ht; [|discriminate].
    apply toISOString_thrown in Ht as [-> _]. intros H. injection H as <- <-. auto. }
  repeat match goal with
         | |- context [if ?c then _ else _] => destruct c
         end; discriminate.
Qed.


(** The stage writes of [OutreachAgent.sendEmail]: only new to contacted,
    after a successful send. *)
Lemma outreach_sendEmail_prospects (e : env) (p : prospect) (subj body : string) (cid : Z)
    (d : db) (r : js_result (bool * option string)) (d' : db) :
  Outreach.sendEmail e p subj body cid d = (r, d') ->
  prospects d' = prospects d \/
  (p_stage p = "new" /\
   prospects d' = map (fun q => if Z.eqb (p_id q) (p_id p) then set_stage "contacted" q else q)
                      (prospects d)).
Proof.
  unfold Outreach.sendEmail.
  destruct (p_email p) as [addr|].
  2:{ intros H; injection H as _ <-. left. reflexivity. }
  destruct (String.eqb addr "").
  { intros H; injection H as _ <-. left. reflexivity. }
  destruct (negb (email_isReady e)).
  { intros H; injection H as _ <-. left. reflexivity. }
  destruct (email_send e addr subj body) as [msg|res].
  { intros H; injection H as _ <-. left. reflexivity. }
  destruct (negb (sr_success res)).
  { intros H; injection H as _ <-. left. reflexivity. }
  destruct (String.eqb_spec (p_stage p) "new") as [Hn|Hn].
  - intros H; injection H as _ <-. right. split; [exact Hn|reflexivity].
  - intros H; injection H as _ <-. left. reflexivity.
Qed.

(** [initializeFollowUpSequence] catches its errors and writes only the
    follow-up sequences and the id counter. *)
Lemma initializeFollowUpSequence_keeps (pid : Z) (d : db) :
  fst (Outreach.initializeFollowUpSequence pid d) = Returned tt /\
  config (snd (Outreach.initializeFollowUpSequence pid d)) = config d /\
  campaigns (snd (Outreach.initializeFollowUpSequence pid d)) = campaigns d.
Proof.
  unfold Outreach.initializeFollowUpSequence. rewrite bind_get_eq. cbv zeta.
  destruct (toISOString _); repeat split.
Qed.

Lemma initializeFollowUpSequence_prospects (pid : Z) (d : db) :
  prospects (snd (Outreach.initializeFollowUpSequence pid d)) = prospects d.
Proof.
  unfold Outreach.initializeFollowUpSequence. rewrite bind_get_eq. cbv zeta.
  destruct (toISOString _); reflexivity.
Qed.

(** The LLM step of [OutreachAgent.execute] reads the database only. *)
Ltac llm_state Hm :=
  destruct (_ || _)%bool;
  [ unfold bind, lift in Hm; destruct (generateOutreachEmail _ _ _); [congruence|];
    destruct (generateSubjectLine _ _ _); [congruence|]; unfold ret in Hm; congruence
  | unfold ret in Hm; congruence ].

(** [OutreachAgent.execute] changes a stage only from 'new' to 'contacted',
    for its own prospect. *)
Lemma outreach_prospects (e : env) (pid : Z) (pl : Outreach.payload) (d : db)
    (r : js_result outcome) (d' : db) :
  Outreach.execute e pid pl d = (r, d') ->
  prospects d' = prospects d \/
  exists p, find_prospect pid d = Some p /\ p_stage p = "new" /\
    prospects d' = map (fun q => if Z.eqb (p_id q) pid then set_stage "contacted" q else q)
                       (prospects d).
Proof.
  intros Hex. unfold Outreach.execute in Hex. rewrite bind_get_eq in Hex.
  destruct (find_prospect pid d) as [p|] eqn:Hf.
  2:{ injection Hex as _ <-. left. reflexivity. }
  pose proof (find_prospect_id _ _ _ Hf) as Hid.
  destruct (int_falsy (p_automation_enabled p)).
  { injection Hex as _ <-. left. reflexivity. }
  destruct (negb _).
  { injection Hex as _ <-. left. reflexivity. }
  destruct (0 <? _).
  { injection Hex as _ <-. left. reflexivity. }
  bind_step Hex.
  { left. assert (d' = d) by llm_state Hm. subst d'. reflexivity. }
  assert (Hd1 : d1 = d) by llm_state Hm. subst d1. clear Hm.
  bind_step Hex; rewrite insert_campaign_eq in Hm; [discriminate|].
  injection Hm as <- <-.
  bind_step Hex; unfold log_activity, modify in Hm; [discriminate|]. injection Hm as <- <-.
  bind_step Hex.
  { apply outreach_sendEmail_prospects in Hm as [Hm|[Hn Hm]]; rewrite Hm; simpl;
      [left; reflexivity | right; exists p; rewrite Hid; auto]. }
  apply outreach_sendEmail_prospects in Hm.
  assert (Hlast : prospects d' = prospects d1).
  { destruct (fst a0).
    - bind_step Hex.
      + pose proof (initializeFollowUpSequence_prospects pid d1) as Hp. rewrite Hm0 in Hp.
        exact Hp.
      + pose proof (initializeFollowUpSequence_prospects pid d1) as Hp. rewrite Hm0 in Hp.
        unfold ret in Hex. injection Hex as _ <-. exact Hp.
    - unfold bind, ret in Hex. injection Hex as _ <-. reflexivity. }
  rewrite Hlast. destruct Hm as [Hm|[Hn Hm]]; rewrite Hm; simpl;
    [left; reflexivity | right; exists p; rewrite Hid; auto].
Qed.






(** C6 (code_bug): two of the three paths into 'lost' also disable
    automation and pause the follow-up sequence: [transitionTo(p, 'lost')]
    (through [handleStageEffects]) and the NOT_INTERESTED classification.
    The FollowUp max-steps path stores 'lost' with a direct UPDATE and
    leaves [automation_enabled] and [is_paused] as they were: still enabled
    and unpaused. *)
Theorem C6_lost_paths (e : env) (pid : Z) (d : db) (p : prospect) (s : sequence) :
  find_prospect pid d = Some p -> p_automation_enabled p <> 0 ->
  p_stage p = "contacted" -> find_sequence pid d = Some s -> s_paused s = 0 ->
  s_max_steps s <= s_step s ->
  (forall reason, let d' := snd (Stage.transitionTo p "lost" reason d) in
     stage_of pid d' = Some "lost" /\ automation_of pid d' = Some 0 /\
     paused_of pid d' = Some 1) /\
  (forall summary, let d' := snd (Response.handleClassification p "NOT_INTERESTED" summary d) in
     stage_of pid d' = Some "lost" /\ automation_of pid d' = Some 0 /\
     paused_of pid d' = Some 1) /\
  (let d' := snd (FollowUp.execute e pid d) in
     stage_of pid d' = Some "lost" /\ automation_of pid d' = Some (p_automation_enabled p) /\
     paused_of pid d' = Some 0).
Proof.
  intros Hf Ha Hst Hs Hp Hmax.
  pose proof (find_prospect_id _ _ _ Hf) as Hid. subst pid.
  split; [|split].
  - intros reason.
    assert (Hk : in_strings (p_stage p) Stage.object_prototype_keys = false)
      by (rewrite Hst; reflexivity).
    assert (Hl : listed_target (p_stage p) "lost" = true) by (rewrite Hst; reflexivity).
    destruct (transition_to_lost p reason d Hk Hl Hf) as (H1 & H2 & H3).
    rewrite Hs in H3. simpl in H3. split; [exact H1|]. split; [exact H2|exact H3].
  - intros summary. destruct (not_interested_effects p summary d Hf) as (H1 & H2 & H3).
    rewrite Hs in H3. simpl in H3. split; [exact H1|]. split; [exact H2|exact H3].
  - destruct (followup_max_steps e (p_id p) d p s Hf Ha Hst Hs Hp Hmax)
      as (d' & Hex & H1 & H2 & H3 & _).
    rewrite Hex. simpl. split; [exact H1|]. split; [exact H2|].
    unfold paused_of, find_sequence. rewrite H3. fold (find_sequence (p_id p) d).
    rewrite Hs. simpl. rewrite Hp. reflexivity.
Qed.




End StageProofs.

Import StageProofs.

Lemma C6_lost_paths_witness :
  let p := sample_prospect (Some "owner@acme.test") "contacted" 1 in
  let s := sample_sequence 3 3 0 in
  let d := sample_db [p] [s] in
  find_prospect 1 d = Some p /\ find_sequence 1 d = Some s /\
  automation_of 1 (snd (FollowUp.execute (sample_env true) 1 d)) = Some 1 /\
  paused_of 1 (snd (FollowUp.execute (sample_env true) 1 d)) = Some 0.
Proof.
  intros p s d.
  assert (Hf : find_prospect 1 d = Some p) by reflexivity.
  assert (Hs : find_sequence 1 d = Some s) by reflexivity.
  split; [exact Hf|]. split; [exact Hs|].
  destruct (StageProofs.C6_lost_paths (sample_env true) 1 d p s Hf ltac:(discriminate)
              eq_refl Hs eq_refl ltac:(vm_compute; discriminate)) as (_ & _ & _ & H2 & H3).
  split; [exact H2 | exact H3].
Defined.

(** ** Follow-up sequences *)
Module SequenceProofs.
Import AgentProofs StageProofs.

(** One row per prospect (prospect_id is UNIQUE) and
    [sequence_step <= max_steps] on every row. *)
Definition seq_ok (l : list sequence) : Prop :=
  NoDup (map s_prospect_id l) /\ Forall (fun s => s_step s <= s_max_steps s) l.

Definition hoare {A} (P : db -> Prop) (m : M A) (Q : db -> Prop) : Prop :=
  forall d, P d -> Q (snd (m d)).

Definition keeps_seq {A} (m : M A) : Prop :=
  forall d, sequences (snd (m d)) = sequences d.

Lemma hoare_bind {A B} (P R Q : db -> Prop) (m : M A) (k : A -> M B) :
  hoare P m R -> (forall a, hoare R (k a) Q) -> (forall d, R d -> Q d) ->
  hoare P (bind m k) Q.
Proof.
  intros Hm Hk HRQ d Hd. unfold bind.
  specialize (Hm d Hd). destruct (m d) as [[msg|a] d1]; simpl in *.
  - apply HRQ, Hm.
  - apply Hk, Hm.
Qed.

Lemma hoare_get {A} (P Q : db -> Prop) (k : db -> M A) :
  (forall d, P d -> Q (snd (k d d))) -> hoare P (bind get k) Q.
Proof. intros H d Hd. exact (H d Hd). Qed.

Lemma hoare_keeps {A} (S : list sequence -> Prop) (m : M A) :
  keeps_seq m -> hoare (fun d => S (sequences d)) m (fun d => S (sequences d)).
Proof. intros Hk d Hd. rewrite Hk. exact Hd. Qed.

Lemma keeps_bind {A B} (m : M A) (k : A -> M B) :
  keeps_seq m -> (forall a, keeps_seq (k a)) -> keeps_seq (bind m k).
Proof.
  intros Hm Hk d. unfold bind. specialize (Hm d).
  destruct (m d) as [[msg|a] d1]; simpl in *; [exact Hm|]. rewrite Hk. exact Hm.
Qed.

Lemma keeps_get : keeps_seq get.
Proof. intros d. reflexivity. Qed.

Lemma keeps_ret {A} (a : A) : keeps_seq (ret a).
Proof. intros d. reflexivity. Qed.
Lemma keeps_throw {A} (msg : string) : keeps_seq (@throw A msg).
Proof. intros d. reflexivity. Qed.
Lemma keeps_lift {A} (r : js_result A) : keeps_seq (lift r).
Proof. intros d. reflexivity. Qed.
Lemma keeps_update_stage pid st : keeps_seq (update_stage pid st).
Proof. intros d. reflexivity. Qed.
Lemma keeps_disable pid : keeps_seq (disable_automation pid).
Proof. intros d. reflexivity. Qed.
Lemma keeps_log pid ty descr : keeps_seq (log_activity pid ty descr).
Proof. intros d. reflexivity. Qed.
Lemma keeps_notification n : keeps_seq (add_notification n).
Proof. intros d. reflexivity. Qed.
Lemma keeps_insert_campaign pid tid subj body : keeps_seq (insert_campaign pid tid subj body).
Proof. intros d. reflexivity. Qed.
Lemma keeps_campaign_status cid st t : keeps_seq (update_campaign_status cid st t).
Proof. intros d. reflexivity. Qed.
Lemma keeps_queue ty pid : keeps_seq (queue_task ty pid).
Proof. intros d. reflexivity. Qed.

Create HintDb keeps.
#[export] Hint Resolve keeps_get keeps_ret keeps_throw keeps_lift keeps_update_stage keeps_disable
  keeps_log keeps_notification keeps_insert_campaign keeps_campaign_status keeps_queue
  : keeps.

(** Proves [keeps_seq] of a program built from the operations above. *)
Ltac keeps_solve :=
  cbv zeta;
  repeat match goal with
         | |- keeps_seq (bind _ _) => apply keeps_bind; [|intro]
         | |- keeps_seq (if ?c then _ else _) => destruct c
         | |- keeps_seq (match ?x with _ => _ end) => destruct x
         | |- keeps_seq _ => solve [auto with keeps]
         end.

Lemma keeps_outreach_sendEmail e p subj body cid : keeps_seq (Outreach.sendEmail e p subj body cid).
Proof. unfold Outreach.sendEmail. keeps_solve. Qed.

Lemma keeps_followup_sendEmail e p subj body cid : keeps_seq (FollowUp.sendEmail e p subj body cid).
Proof. unfold FollowUp.sendEmail. keeps_solve. Qed.

Definition SeqOK (d : db) : Prop := seq_ok (sequences d).

Lemma hoare_keeps_ok {A} (m : M A) : keeps_seq m -> hoare SeqOK m SeqOK.
Proof. apply (hoare_keeps seq_ok). Qed.

Lemma hoare_get_eq {A} (P Q : db -> Prop) (k : db -> M A) :
  (forall a, hoare (fun d => P d /\ d = a) (k a) Q) -> hoare P (bind get k) Q.
Proof. intros H d Hd. exact (H d d (conj Hd eq_refl)). Qed.

Lemma hoare_weaken {A} (P P' Q : db -> Prop) (m : M A) :
  (forall d, P' d -> P d) -> hoare P m Q -> hoare P' m Q.
Proof. intros HP H d Hd. apply H, HP, Hd. Qed.

(** Chains of binds whose every step keeps [SeqOK]. *)
Ltac hoare_ok :=
  cbv zeta;
  repeat match goal with
         | |- hoare SeqOK (bind _ _) SeqOK =>
             apply (hoare_bind SeqOK SeqOK SeqOK); [ | intro | exact (fun _ h => h) ]
         | |- hoare SeqOK (if ?c then _ else _) SeqOK => destruct c
         | |- hoare SeqOK (match ?x with _ => _ end) SeqOK => destruct x
         | |- hoare SeqOK _ SeqOK => solve [apply hoare_keeps_ok; keeps_solve | auto with seqok]
         end.

Lemma NoDup_map_inj {A B} (f : A -> B) (l : list A) (x y : A) :
  NoDup (map f l) -> In x l -> In y l -> f x = f y -> x = y.
Proof.
  induction l as [|z l IH]; simpl; intros Hn Hx Hy Hf; [destruct Hx|].
  inversion Hn as [|? ? Hnot Hn']; subst.
  destruct Hx as [<-|Hx], Hy as [<-|Hy]; try reflexivity.
  - exfalso. apply Hnot. rewrite Hf. apply in_map, Hy.
  - exfalso. apply Hnot. rewrite <- Hf. apply in_map, Hx.
  - apply IH; assumption.
Qed.

(** Updates that keep prospect_id, sequence_step and max_steps. *)
Lemma seq_ok_map_keep (c : sequence -> bool) (g : sequence -> sequence) (l : list sequence) :
  (forall s, s_prospect_id (g s) = s_prospect_id s /\ s_step (g s) = s_step s /\
             s_max_steps (g s) = s_max_steps s) ->
  seq_ok l -> seq_ok (map (fun s => if c s then g s else s) l).
Proof.
  intros Hg [Hn Hf]. split.
  - rewrite map_map.
    replace (map (fun x => s_prospect_id (if c x then g x else x)) l)
      with (map s_prospect_id l); [exact Hn|].
    apply map_ext. intros x. destruct (c x); [symmetry; apply Hg|reflexivity].
  - apply Forall_map. eapply Forall_impl; [|exact Hf]. intros x Hx.
    destruct (c x); [|exact Hx]. destruct (Hg x) as (_ & -> & ->). exact Hx.
Qed.

(** The step update of [FollowupAgent.execute] on the row [s] it read. *)
Lemma seq_ok_progress (l : list sequence) (s : sequence) (pid sent next : Z) :
  seq_ok l -> In s l -> s_prospect_id s = pid -> s_step s < s_max_steps s ->
  seq_ok (map (fun s' => if Z.eqb (s_prospect_id s') pid
                         then FollowUp.set_progress (s_step s + 1) sent next s' else s') l).
Proof.
  intros [Hn Hf] Hin Hpid Hlt. split.
  - rewrite map_map.
    replace (map (fun x => s_prospect_id (if Z.eqb (s_prospect_id x) pid
                 then FollowUp.set_progress (s_step s + 1) sent next x else x)) l)
      with (map s_prospect_id l); [exact Hn|].
    apply map_ext. intros x. destruct (Z.eqb _ _); reflexivity.
  - rewrite Forall_forall in *. intros y Hy. apply in_map_iff in Hy as (x & <- & Hx).
    destruct (Z.eqb_spec (s_prospect_id x) pid) as [Hxp|]; [|apply Hf, Hx].
    assert (x = s) by (apply (NoDup_map_inj s_prospect_id l); congruence).
    subst x. simpl. lia.
Qed.

Lemma find_none_not_in (pid : Z) (l : list sequence) :
  find (fun s => Z.eqb (s_prospect_id s) pid) l = None -> ~ In pid (map s_prospect_id l).
Proof.
  induction l as [|x l IH]; simpl; [tauto|].
  destruct (Z.eqb_spec (s_prospect_id x) pid); [discriminate|].
  intros Hf [H|H]; [congruence|]. apply IH; assumption.
Qed.

Lemma seq_ok_append_new (l : list sequence) (row : sequence) :
  seq_ok l -> find (fun s => Z.eqb (s_prospect_id s) (s_prospect_id row)) l = None ->
  s_step row <= s_max_steps row -> seq_ok (app l [row]).
Proof.
  intros [Hn Hf] Hnone Hrow. split.
  - rewrite map_app. simpl. apply NoDup_app; [exact Hn|repeat constructor; tauto|].
    intros x Hx [<-|[]]. apply (find_none_not_in _ _ Hnone), Hx.
  - apply Forall_app. split; [exact Hf|]. repeat constructor. exact Hrow.
Qed.

(** INSERT OR REPLACE on the unique prospect_id. *)
Lemma seq_ok_replace (l : list sequence) (row : sequence) (pid : Z) :
  seq_ok l -> s_prospect_id row = pid -> s_step row <= s_max_steps row ->
  seq_ok (app (filter (fun s => negb (Z.eqb (s_prospect_id s) pid)) l) [row]).
Proof.
  intros [Hn Hf] Hp Hrow. split.
  - rewrite map_app. simpl. apply NoDup_app.
    + clear Hf. induction l as [|x l IH]; simpl; [constructor|].
      inversion Hn as [|? ? Hnot Hn']; subst.
      destruct (negb _); simpl; [|apply IH; exact Hn'].
      constructor; [|apply IH; exact Hn'].
      intros Hin. apply Hnot. apply in_map_iff in Hin as (y & Hy & Hin).
      apply filter_In in Hin as [Hin _]. rewrite <- Hy. apply in_map, Hin.
    + repeat constructor; tauto.
    + intros x Hx [<-|[]]. apply in_map_iff in Hx as (y & Hy & Hin).
      apply filter_In in Hin as [_ Hneq]. rewrite Hy, Hp, Z.eqb_refl in Hneq. discriminate.
  - apply Forall_app. split.
    + rewrite Forall_forall in *. intros x Hx. apply filter_In in Hx as [Hx _]. apply Hf, Hx.
    + repeat constructor. exact Hrow.
Qed.

Lemma length_split_nonneg (s : string) : 0 <= Z.of_nat (length (split_comma s)).
Proof. lia. Qed.

Lemma hoare_pause (pid : Z) : hoare SeqOK (pause_sequence pid) SeqOK.
Proof.
  intros d Hd. apply seq_ok_map_keep; [|exact Hd]. intros s. repeat split.
Qed.

Create HintDb seqok.
#[export] Hint Resolve hoare_pause : seqok.

Lemma hoare_initialize (pid : Z) :
  hoare SeqOK (Outreach.initializeFollowUpSequence pid) SeqOK.
Proof.
  unfold Outreach.initializeFollowUpSequence. apply hoare_get. intros d Hd.
  cbv beta zeta. destruct (toISOString _); [exact Hd|].
  apply seq_ok_replace; [exact Hd|reflexivity|]. simpl. lia.
Qed.

Lemma hoare_outreach e pid pl : hoare SeqOK (Outreach.execute e pid pl) SeqOK.
Proof.
  unfold Outreach.execute. hoare_ok.
  all: first [apply hoare_initialize | apply hoare_keeps_ok, keeps_outreach_sendEmail].
Qed.

Lemma hoare_fixed_ok (L : list sequence) (d : db) :
  seq_ok L -> sequences d = L -> SeqOK d.
Proof. intros H E. unfold SeqOK. rewrite E. exact H. Qed.

Lemma hoare_followup e pid : hoare SeqOK (FollowUp.execute e pid) SeqOK.
Proof.
  intros d Hd. unfold FollowUp.execute. rewrite bind_get_eq.
  destruct (find_prospect pid d) as [p|] eqn:Hp; [|exact Hd].
  destruct (int_falsy (p_automation_enabled p)); [exact Hd|].
  destruct (negb (String.eqb (p_stage p) "contacted")); [exact Hd|].
  destruct (find_sequence pid d) as [s|] eqn:Hs; [|exact Hd].
  destruct (negb (int_falsy (s_paused s))); [exact Hd|].
  destruct (s_max_steps s <=? s_step s) eqn:Hle; [exact Hd|].
  unfold find_sequence in Hs. apply find_some in Hs as [Hin Hpid].
  apply Z.eqb_eq in Hpid. apply Z.leb_gt in Hle.
  set (R := fun x => sequences x = sequences d).
  assert (HR : forall x, R x -> SeqOK x) by (intros x Hx; exact (hoare_fixed_ok _ x Hd Hx)).
  assert (Hk : forall A (m : M A), keeps_seq m -> hoare R m R)
    by (intros A m Hm; exact (hoare_keeps (fun l => l = sequences d) m Hm)).
  match goal with |- SeqOK (snd (?m d)) =>
    enough (H : hoare R m SeqOK) by exact (H d eq_refl) end.
  do 5 (apply (hoare_bind R R SeqOK); [apply Hk; keeps_solve; apply keeps_followup_sendEmail | intro | exact HR]).
  apply (hoare_bind R SeqOK SeqOK); [ | intro; apply hoare_keeps_ok, keeps_ret | exact (fun _ h => h)].
  destruct (fst a3).
  - apply hoare_get. intros x Hx. cbv beta zeta. destruct (toISOString _); [apply HR, Hx|].
    unfold SeqOK, modify, with_sequences. simpl.
    rewrite Hx. apply seq_ok_progress; assumption.
  - intros x Hx. apply HR, Hx.
Qed.

Lemma hoare_stage_effects p st : hoare SeqOK (Stage.handleStageEffects p st) SeqOK.
Proof.
  unfold Stage.handleStageEffects. cbv zeta.
  destruct (String.eqb st "contacted").
  - apply hoare_get. intros d Hd.
    destruct (find_sequence (p_id p) d) eqn:Hs; [exact Hd|].
    destruct (toISOString _); [exact Hd|].
    unfold SeqOK, modify, with_sequences. simpl.
    apply seq_ok_append_new; [exact Hd|exact Hs|]. simpl. lia.
  - destruct (String.eqb st "responded"); [apply hoare_pause|]. hoare_ok.
Qed.

Lemma hoare_transitionTo p st r : hoare SeqOK (Stage.transitionTo p st r) SeqOK.
Proof.
  unfold Stage.transitionTo. hoare_ok. apply hoare_stage_effects.
Qed.

Lemma hoare_classification p cls summary :
  hoare SeqOK (Response.handleClassification p cls summary) SeqOK.
Proof.
  unfold Response.handleClassification, Response.updateProspectStage,
    Response.createNotification. cbv zeta.
  repeat match goal with
         | |- hoare SeqOK (if String.eqb cls ?k then _ else _) SeqOK =>
             destruct (String.eqb cls k)
         end.
  all: try solve [hoare_ok].
  apply hoare_get_eq. intro a. apply (hoare_weaken SeqOK); [tauto|].
  apply (hoare_bind SeqOK SeqOK SeqOK); [|intro; hoare_ok|exact (fun _ h => h)].
  intros d Hd. unfold SeqOK, modify, with_sequences. simpl.
  apply seq_ok_map_keep; [|exact Hd]. intros s. repeat split.
Qed.

Lemma hoare_inbound fromEmail subject : hoare SeqOK (inbound_reply fromEmail subject) SeqOK.
Proof. unfold inbound_reply. hoare_ok. Qed.

Lemma hoare_run_op e o : hoare SeqOK (run_op e o) SeqOK.
Proof.
  destruct o; unfold run_op, with_prospect.
  - apply (hoare_bind SeqOK SeqOK SeqOK); [apply hoare_outreach|intro; hoare_ok|exact (fun _ h => h)].
  - apply (hoare_bind SeqOK SeqOK SeqOK); [apply hoare_followup|intro; hoare_ok|exact (fun _ h => h)].
  - hoare_ok. apply hoare_transitionTo.
  - hoare_ok. apply hoare_classification.
  - apply hoare_inbound.
Qed.

(** C5 (amended). Every operation of the core keeps one follow-up row per
    prospect with [sequence_step <= max_steps], whether it returns or throws;
    and FollowUp on a prospect in stage contacted with automation enabled and
    an unpaused sequence at [sequence_step >= max_steps] creates no campaign,
    leaves the sequences alone and moves the prospect to lost. *)
Theorem C5_sequence_bounded_and_lost :
  (forall (e : env) (o : op) (d : db),
      seq_ok (sequences d) -> seq_ok (sequences (step e o d))) /\
  (forall (e : env) (pid : Z) (d : db) (p : prospect) (s : sequence),
      find_prospect pid d = Some p -> p_automation_enabled p <> 0 ->
      p_stage p = "contacted" -> find_sequence pid d = Some s -> s_paused s = 0 ->
      s_max_steps s <= s_step s ->
      exists d', FollowUp.execute e pid d =
                   (Returned (Completed "Max follow-ups reached, moved to lost"), d') /\
        stage_of pid d' = Some "lost" /\ campaigns d' = campaigns d /\
        sequences d' = sequences d).
Proof.
  split.
  - intros e o d Hd. exact (hoare_run_op e o d Hd).
  - intros e pid d p s Hf Ha Hst Hs Hp Hmax.
    destruct (followup_max_steps e pid d p s Hf Ha Hst Hs Hp Hmax)
      as (d' & Hex & Hstage & _ & Hseq & Hcamp).
    exists d'. repeat split; assumption.
Qed.

(** C5 counterexample: with automation_enabled = 0 the prospect at step 3 of
    3 in stage contacted is skipped and stays contacted. *)
Lemma C5_automation_off_stays_contacted :
  let p := sample_prospect (Some "owner@acme.test") "contacted" 0 in
  let d := sample_db [p] [sample_sequence 3 3 0] in
  FollowUp.execute (sample_env true) 1 d =
    (Returned (Skipped "Automation disabled for this prospect"), d) /\
  stage_of 1 (snd (FollowUp.execute (sample_env true) 1 d)) = Some "contacted".
Proof. split; reflexivity. Qed.

End SequenceProofs.

(** ** Task payloads: JSON.stringify at enqueue, JSON.parse at dispatch *)
Module JsonProofs.

Lemma sapp_assoc (a b c : string) : ((a ++ b) ++ c)%string = (a ++ (b ++ c))%string.
Proof. induction a as [|x a IH]; simpl; [reflexivity|]. rewrite IH. reflexivity. Qed.

Lemma slen_app (a b : string) :
  String.length (a ++ b) = (String.length a + String.length b)%nat.
Proof. induction a as [|x a IH]; simpl; [reflexivity|]. rewrite IH. reflexivity. Qed.

Fixpoint all_chars (f : ascii -> bool) (s : string) : bool :=
  match s with
  | EmptyString => true
  | String c s' => f c && all_chars f s'
  end.

Definition num_safe (r : string) : Prop :=
  match r with
  | EmptyString => True
  | String c _ => Json.is_num_char c = false
  end.

Lemma escape_parse (c : ascii) (t : string) :
  Json.parse_str (Json.escape_char c ++ t) = Json.cons_str c (Json.parse_str t).
Proof. destruct c as [[] [] [] [] [] [] [] []]; reflexivity. Qed.

Lemma parse_str_quote (s r : string) :
  Json.parse_str (Json.quote_chars s ++ String Json.ch_quote r) = Some (s, r).
Proof.
  induction s as [|c s IH]; [reflexivity|].
  simpl. rewrite sapp_assoc, escape_parse, IH. reflexivity.
Qed.

Lemma num_start_ok (c : ascii) :
  Json.is_num_start c = true ->
  Json.is_ws c = false /\ Ascii.eqb c "n" = false /\ Ascii.eqb c "t" = false /\
  Ascii.eqb c "f" = false /\ Ascii.eqb c Json.ch_quote = false /\
  Ascii.eqb c "[" = false /\ Ascii.eqb c "{" = false /\ Ascii.eqb c "]" = false /\
  Ascii.eqb c "}" = false.
Proof.
  destruct c as [[] [] [] [] [] [] [] []]; vm_compute;
    intro H; first [discriminate H | repeat split].
Qed.

Lemma span_num_all (s r : string) :
  all_chars Json.is_num_char s = true -> num_safe r -> Json.span_num (s ++ r) = (s, r).
Proof.
  induction s as [|c s IH]; simpl; intros Hs Hr.
  - destruct r as [|c r]; simpl; [reflexivity|]. simpl in Hr. rewrite Hr. reflexivity.
  - apply andb_true_iff in Hs as [Hc Hs]. rewrite Hc, IH; auto.
Qed.

Lemma obj_set_new (num : Type) (l : list (string * Json.json num)) (k : string) v :
  ~ In k (map fst l) -> Json.obj_set num l k v = app l [(k, v)].
Proof.
  induction l as [|[k' v'] l IH]; simpl; intros Hn; [reflexivity|].
  destruct (String.eqb_spec k' k); [tauto|]. rewrite IH by tauto. reflexivity.
Qed.

Lemma build_obj_fold (num : Type) (l acc : list (string * Json.json num)) :
  NoDup (map fst (app acc l)) ->
  fold_left (fun acc kv => Json.obj_set num acc (fst kv) (snd kv)) l acc = app acc l.
Proof.
  revert acc. induction l as [|[k v] l IH]; intros acc Hn; simpl; [symmetry; apply app_nil_r|].
  rewrite map_app in Hn. simpl in Hn.
  rewrite obj_set_new.
  - rewrite IH.
    + rewrite <- app_assoc. reflexivity.
    + rewrite <- app_assoc, map_app. exact Hn.
  - intros Hin. apply (NoDup_remove_2 _ _ _ Hn). apply in_or_app. left. exact Hin.
Qed.

Lemma build_obj_nodup (num : Type) (l : list (string * Json.json num)) :
  NoDup (map fst l) -> Json.build_obj num l = l.
Proof. intros Hn. apply (build_obj_fold num l []). exact Hn. Qed.

Section RoundTrip.

Variable num : Type.
Variable num_to_string : num -> string.
Variable num_of_string : string -> option num.

(** Number::toString is read back by the number grammar, and its text is
    one number token. *)
Hypothesis num_roundtrip : forall n, num_of_string (num_to_string n) = Some n.
Hypothesis num_token : forall n, all_chars Json.is_num_char (num_to_string n) = true.
Hypothesis num_head : forall n, exists c t,
  num_to_string n = String c t /\ Json.is_num_start c = true.

Local Abbreviation json := (Json.json num).
Local Abbreviation stringify := (Json.stringify num num_to_string).
Local Abbreviation parse_value := (Json.parse_value num num_of_string).
Local Abbreviation parse_elems := (Json.parse_elems num num_of_string).
Local Abbreviation parse_members := (Json.parse_members num num_of_string).

Definition elems_str (l : list json) : string := String.concat "," (map stringify l).
Definition members_str (l : list (string * json)) : string :=
  String.concat "," (map (fun kv => Json.quote (fst kv) ++ ":" ++ stringify (snd kv)) l).

Lemma parse_num_case (n : num) (f : nat) (r : string) :
  num_safe r -> parse_value (S f) (num_to_string n ++ r) = Some (Json.JNum num n, r).
Proof.
  intros Hr. destruct (num_head n) as (c & t & Heq & Hs).
  pose proof (span_num_all _ r (num_token n) Hr) as Hspan.
  rewrite Heq in Hspan |- *.
  destruct (num_start_ok c Hs) as (Hw & Hn & Ht & Hf & Hq & Hb & Hc & _).
  simpl. rewrite Hw, Hn, Ht, Hf, Hq, Hb, Hc, Hs.
  simpl in Hspan. rewrite Hspan. simpl. rewrite <- Heq, num_roundtrip. reflexivity.
Qed.

Lemma stringify_head (v : json) : exists c t,
  stringify v = String c t /\ Json.is_ws c = false /\ Ascii.eqb c "]" = false.
Proof.
  destruct v as [|[]|n|s|l|l];
    try solve [do 2 eexists; split; [reflexivity | split; reflexivity]].
  destruct (num_head n) as (c & t & Heq & Hs).
  destruct (num_start_ok c Hs) as (Hw & _ & _ & _ & _ & _ & _ & Hb & _).
  exists c, t. simpl. auto.
Qed.

Lemma elems_head (x : json) (xs : list json) (u : string) : exists c t,
  (elems_str (x :: xs) ++ u)%string = String c t /\ Json.is_ws c = false /\
  Ascii.eqb c "]" = false.
Proof.
  destruct (stringify_head x) as (c & t & Heq & Hw & Hb). exists c.
  unfold elems_str. simpl. destruct xs; rewrite Heq; simpl; eexists; eauto.
Qed.

Lemma elems_cons (x : json) (xs : list json) :
  elems_str (x :: xs) =
  match xs with [] => stringify x | _ => (stringify x ++ "," ++ elems_str xs)%string end.
Proof. destruct xs; reflexivity. Qed.

Lemma members_cons (kv : string * json) (l : list (string * json)) :
  members_str (kv :: l) =
  match l with
  | [] => (Json.quote (fst kv) ++ ":" ++ stringify (snd kv))%string
  | _ => (Json.quote (fst kv) ++ ":" ++ stringify (snd kv) ++ "," ++ members_str l)%string
  end.
Proof.
  destruct l; [reflexivity|]. unfold members_str. simpl. rewrite !sapp_assoc. reflexivity.
Qed.

Lemma members_head (kv : string * json) (l : list (string * json)) (u : string) :
  exists t, (members_str (kv :: l) ++ u)%string = String Json.ch_quote t.
Proof.
  rewrite members_cons. destruct l; unfold Json.quote; simpl; eexists; reflexivity.
Qed.

Lemma roundtrip_fuel (fuel : nat) :
  (forall v r, Json.wf_json num v -> (String.length (stringify v) < fuel)%nat -> num_safe r ->
     parse_value fuel (stringify v ++ r) = Some (v, r)) /\
  (forall l r, l <> [] -> fold_right (fun x acc => Json.wf_json num x /\ acc) True l ->
     (String.length (elems_str l) + 1 < fuel)%nat ->
     parse_elems fuel (elems_str l ++ String "]" r) = Some (l, r)) /\
  (forall l r, l <> [] -> fold_right (fun kv acc => Json.wf_json num (snd kv) /\ acc) True l ->
     (String.length (members_str l) + 1 < fuel)%nat ->
     parse_members fuel (members_str l ++ String "}" r) = Some (l, r)).
Proof.
  induction fuel as [|f IH].
  { repeat split; intros; lia. }
  destruct IH as (IHv & IHe & IHm). split; [|split].
  - intros v r Hwf Hlen Hr. destruct v as [|[]|n|s|l|l].
    + reflexivity.
    + reflexivity.
    + reflexivity.
    + apply parse_num_case, Hr.
    + simpl. unfold Json.quote. simpl. rewrite sapp_assoc. simpl.
      rewrite parse_str_quote. reflexivity.
    + change (stringify (Json.JArr num l)) with ("[" ++ elems_str l ++ "]")%string in *.
      simpl in Hlen. rewrite slen_app in Hlen. simpl in Hlen.
      simpl. rewrite sapp_assoc. simpl.
      destruct l as [|x xs]; [reflexivity|].
      destruct (elems_head x xs (String "]" r)) as (c & t & E & Hw & Hb).
      rewrite E. simpl. rewrite Hw, Hb. rewrite <- E.
      rewrite IHe; [reflexivity|discriminate|exact Hwf|lia].
    + change (stringify (Json.JObj num l)) with ("{" ++ members_str l ++ "}")%string in *.
      simpl in Hlen. rewrite slen_app in Hlen. simpl in Hlen.
      simpl. rewrite sapp_assoc. simpl.
      destruct l as [|kv xs]; [reflexivity|].
      destruct (members_head kv xs (String "}" r)) as (t & E).
      rewrite E. simpl. rewrite <- E. destruct Hwf as [Hnd Hwf].
      rewrite IHm; [|discriminate|exact Hwf|lia]. simpl.
      rewrite build_obj_nodup by exact Hnd. reflexivity.
  - intros [|x xs] r Hne Hwf Hlen; [congruence|]. destruct Hwf as [Hx Hxs].
    rewrite elems_cons in *. destruct xs as [|y ys].
    + simpl. rewrite IHv; [reflexivity|exact Hx|lia|reflexivity].
    + rewrite slen_app in Hlen. simpl in Hlen.
      rewrite sapp_assoc. simpl.
      rewrite IHv; [|exact Hx|lia|reflexivity]. simpl.
      rewrite IHe; [reflexivity|discriminate|exact Hxs|lia].
  - intros [|[k v] xs] r Hne Hwf Hlen; [congruence|]. destruct Hwf as [Hv Hxs].
    rewrite members_cons in *. unfold Json.quote in *. simpl fst in *. simpl snd in *.
    destruct xs as [|kv' xs]; repeat (rewrite slen_app in Hlen; simpl in Hlen).
    + simpl. rewrite !sapp_assoc. simpl. rewrite parse_str_quote. simpl.
      rewrite IHv; [reflexivity|exact Hv|lia|reflexivity].
    + simpl. rewrite !sapp_assoc. simpl. rewrite parse_str_quote. simpl.
      rewrite sapp_assoc. simpl.
      rewrite IHv; [|exact Hv|lia|reflexivity]. simpl.
      rewrite IHm; [reflexivity|discriminate|exact Hxs|lia].
Qed.

Lemma sapp_nil (s : string) : (s ++ "")%string = s.
Proof. induction s as [|c s IH]; simpl; [reflexivity|]. rewrite IH. reflexivity. Qed.

(** [JSON.parse(JSON.stringify(v))] is [v]. *)
Lemma parse_stringify (v : json) :
  Json.wf_json num v -> Json.parse num num_of_string (stringify v) = Some v.
Proof.
  intros Hwf. unfold Json.parse.
  pose proof (proj1 (roundtrip_fuel (S (String.length (stringify v)))) v "" Hwf
                ltac:(lia) I) as H.
  rewrite sapp_nil in H. rewrite H. reflexivity.
Qed.

End RoundTrip.

(** The integer instance: Number::toString is the decimal numeral. *)
Lemma uint_token (d : Decimal.uint) :
  all_chars Json.is_num_char (NilEmpty.string_of_uint d) = true.
Proof. induction d; simpl; rewrite ?IHd; reflexivity. Qed.

Lemma z_roundtrip (z : Z) : z_of_string (z_to_string z) = Some z.
Proof.
  unfold z_of_string, z_to_string. rewrite NilEmpty.isi. simpl. rewrite DecimalZ.of_to.
  reflexivity.
Qed.

Lemma z_token (z : Z) : all_chars Json.is_num_char (z_to_string z) = true.
Proof.
  unfold z_to_string. destruct (Z.to_int z) as [d|d]; simpl; [|rewrite ?andb_true_l];
    apply uint_token.
Qed.

Lemma uint_head (d : Decimal.uint) : d <> Decimal.Nil -> exists c t,
  NilEmpty.string_of_uint d = String c t /\ Json.is_num_start c = true.
Proof. destruct d; intros H; [congruence| ..]; do 2 eexists; split; reflexivity. Qed.

Lemma z_head (z : Z) : exists c t, z_to_string z = String c t /\ Json.is_num_start c = true.
Proof.
  unfold z_to_string. destruct z as [|p|p]; simpl.
  - do 2 eexists; split; reflexivity.
  - apply uint_head, DecimalPos.Unsigned.to_uint_nonnil.
  - do 2 eexists; split; reflexivity.
Qed.

Lemma parse_stringify_Z (v : Json.json Z) :
  Json.wf_json Z v -> Json.parse Z z_of_string (Json.stringify Z z_to_string v) = Some v.
Proof. apply (parse_stringify Z z_to_string z_of_string z_roundtrip z_token z_head). Qed.


Import Orchestrator.

Lemma stringify_nonempty_Z (v : Json.json Z) :
  String.eqb (Json.stringify Z z_to_string v) "" = false.
Proof.
  destruct (stringify_head Z z_to_string z_head v) as (c & t & E & _).
  rewrite E. reflexivity.
Qed.

(** C10. A task queued with a JSON payload [v] (integers for numbers, no
    repeated keys) reaches its agent's [execute] as [v] itself, whether the
    agent then returns or throws; a task queued without a payload, and a
    stored row whose payload is NULL or empty, reach it as [{}]. *)
Theorem C10_payload_roundtrip :
  (forall (reg : @registry (Json.json Z) outcome) (a : agent) (id tnow : Z)
          (ty : string) (pid : Z) (v : Json.json Z) (sched : option Z),
      Json.wf_json Z v -> getAgent reg ty = Some a ->
      snd (processTask reg tnow (queueTask id tnow ty pid (Some v) sched)) = Some (pid, v)) /\
  (forall (reg : @registry (Json.json Z) outcome) (a : agent) (id tnow : Z)
          (ty : string) (pid : Z) (sched : option Z),
      getAgent reg ty = Some a ->
      snd (processTask reg tnow (queueTask id tnow ty pid None sched)) =
        Some (pid, Json.JObj Z [])) /\
  (forall (reg : @registry (Json.json Z) outcome) (a : agent) (tnow : Z) (t : task),
      getAgent reg (t_agent_type t) = Some a ->
      t_payload t = None \/ t_payload t = Some "" ->
      snd (processTask reg tnow t) = Some (t_prospect_id t, Json.JObj Z [])).
Proof.
  assert (Hsome : forall (reg : @registry (Json.json Z) outcome) (a : agent) id tnow ty pid v sched,
      Json.wf_json Z v -> getAgent reg ty = Some a ->
      snd (processTask reg tnow (queueTask id tnow ty pid (Some v) sched)) = Some (pid, v)).
  { intros reg a id tnow ty pid v sched Hwf Hg. unfold processTask. simpl. rewrite Hg.
    unfold decodePayload. rewrite stringify_nonempty_Z, parse_stringify_Z by exact Hwf.
    destruct (a pid v); reflexivity. }
  split; [exact Hsome|]. split.
  - intros reg a id tnow ty pid sched Hg.
    exact (Hsome reg a id tnow ty pid (Json.JObj Z []) sched ltac:(split; constructor) Hg).
  - intros reg a tnow t Hg Hp. unfold processTask. rewrite Hg.
    assert (Hd : decodePayload (t_payload t) = Some (Json.JObj Z [])).
    { destruct Hp as [-> | ->]; reflexivity. }
    rewrite Hd. destruct (a (t_prospect_id t) (Json.JObj Z [])); reflexivity.
Qed.

End JsonProofs.


Import SequenceProofs.

Lemma C5_sequence_bounded_and_lost_witness :
  let p := sample_prospect (Some "owner@acme.test") "contacted" 1 in
  let s := sample_sequence 3 3 0 in
  let d := sample_db [p] [s] in
  seq_ok (sequences d) /\
  seq_ok (sequences (step (sample_env true) (OpFollowUp 1) d)) /\
  find_prospect 1 d = Some p /\ find_sequence 1 d = Some s /\
  stage_of 1 (snd (FollowUp.execute (sample_env true) 1 d)) = Some "lost".
Proof.
  intros p s d.
  assert (Hok : seq_ok (sequences d)).
  { split; simpl; [repeat constructor; simpl; tauto | repeat constructor; simpl; lia]. }
  assert (Hf : find_prospect 1 d = Some p) by reflexivity.
  assert (Hs : find_sequence 1 d = Some s) by reflexivity.
  destruct C5_sequence_bounded_and_lost as [Hinv Hlost].
  split; [exact Hok|]. split; [exact (Hinv (sample_env true) (OpFollowUp 1) d Hok)|].
  split; [exact Hf|]. split; [exact Hs|].
  destruct (Hlost (sample_env true) 1 d p s Hf ltac:(discriminate) eq_refl Hs eq_refl
              ltac:(vm_compute; discriminate)) as (d' & Hex & Hstage & _ & _).
  rewrite Hex. exact Hstage.
Defined.

Lemma C10_payload_roundtrip_witness :
  let v := Json.JObj Z [("templateId", Json.JNum Z 5); ("useAI", Json.JBool Z false)] in
  let a : @Orchestrator.agent (Json.json Z) outcome :=
    fun _ _ => Returned (Skipped "Automation disabled for this prospect") in
  let reg : @Orchestrator.registry (Json.json Z) outcome := [("outreach", a)] in
  Json.wf_json Z v /\
  snd (Orchestrator.processTask reg 0 (Orchestrator.queueTask 1 0 "outreach" 7 (Some v) None))
    = Some (7, v).
Proof.
  intros v a reg.
  assert (Hwf : Json.wf_json Z v).
  { split; [|simpl; tauto].
    apply NoDup_cons; [simpl; intros [H|[]]; discriminate H|].
    apply NoDup_cons; [simpl; tauto|constructor]. }
  split; [exact Hwf|].
  destruct JsonProofs.C10_payload_roundtrip as [H _].
  exact (H reg a 1 0 "outreach" 7 v None Hwf eq_refl).
Defined.

(** * Further properties of the agents, routes and scheduler *)
(** ** Agent configuration *)
Module ConfigProofs.
Import StageProofs.

Lemma find_app {A} (f : A -> bool) (l1 l2 : list A) :
  find f (l1 ++ l2) = match find f l1 with Some x => Some x | None => find f l2 end.
Proof.
  induction l1 as [|x l1 IH]; simpl; [reflexivity|]. destruct (f x); [reflexivity|exact IH].
Qed.

Lemma find_filter_other (k key : string) (l : list (string * string)) :
  k <> key ->
  find (fun kv => String.eqb (fst kv) k) (filter (fun kv => negb (String.eqb (fst kv) key)) l) =
  find (fun kv => String.eqb (fst kv) k) l.
Proof.
  intros Hne. induction l as [|[a v] l IH]; simpl; [reflexivity|].
  destruct (String.eqb_spec a key) as [->|Ha]; simpl.
  - apply String.eqb_neq in Hne. rewrite String.eqb_sym, Hne. exact IH.
  - destruct (String.eqb a k); [reflexivity|exact IH].
Qed.

Lemma find_filter_same (key : string) (l : list (string * string)) :
  find (fun kv => String.eqb (fst kv) key) (filter (fun kv => negb (String.eqb (fst kv) key)) l) =
  None.
Proof.
  induction l as [|[a v] l IH]; simpl; [reflexivity|].
  destruct (String.eqb a key) eqn:E; simpl; [exact IH|]. rewrite E. exact IH.
Qed.

(** [setConfig] then [getConfig]: the key reads back the value just
    written, whatever the default; every other key keeps its value. *)
Theorem setConfig_getConfig (key value k dflt : string) (d : db) :
  getConfig k dflt (snd (Config.setConfig key value d)) =
  if String.eqb k key then value else getConfig k dflt d.
Proof.
  unfold getConfig, Config.setConfig, modify, with_config. simpl.
  rewrite find_app. destruct (String.eqb_spec k key) as [->|Hne].
  - rewrite find_filter_same. simpl. rewrite String.eqb_refl. reflexivity.
  - rewrite find_filter_other by exact Hne.
    destruct (find _ (config d)) as [[a v]|]; [reflexivity|]. simpl.
    apply String.eqb_neq in Hne. rewrite String.eqb_sym, Hne. reflexivity.
Qed.

Lemma find_insert_or_ignore (k : string) (l : list (string * string)) (kv : string * string) :
  find (fun r => String.eqb (fst r) k) (Config.insert_or_ignore l kv) =
  match find (fun r => String.eqb (fst r) k) l with
  | Some r => Some r
  | None => if String.eqb (fst kv) k then Some kv else None
  end.
Proof.
  unfold Config.insert_or_ignore.
  destruct (existsb (fun r => String.eqb (fst r) (fst kv)) l) eqn:He.
  - destruct (find _ l) eqn:Hf; [reflexivity|].
    destruct (String.eqb_spec (fst kv) k) as [Hk|Hk]; [|reflexivity].
    apply existsb_exists in He as (r & Hin & Hr).
    exfalso. apply String.eqb_eq in Hr. rewrite Hk in Hr.
    assert (Hnone := find_none _ _ Hf r Hin). simpl in Hnone.
    rewrite Hr, String.eqb_refl in Hnone. discriminate.
  - rewrite find_app. destruct (find _ l); [reflexivity|]. simpl.
    destruct (String.eqb (fst kv) k); reflexivity.
Qed.

Lemma find_seed (k : string) (ds l : list (string * string)) :
  find (fun r => String.eqb (fst r) k) (fold_left Config.insert_or_ignore ds l) =
  match find (fun r => String.eqb (fst r) k) l with
  | Some r => Some r
  | None => find (fun r => String.eqb (fst r) k) ds
  end.
Proof.
  revert l. induction ds as [|kv ds IH]; intros l; simpl.
  - destruct (find _ l); reflexivity.
  - rewrite IH, find_insert_or_ignore.
    destruct (find _ l); [reflexivity|]. destruct (String.eqb (fst kv) k); reflexivity.
Qed.

(** [seedDefaultAgentConfig] never overwrites a stored setting: a key that
    has a row keeps its value, a default key without a row gets its default,
    and any other key is still absent. *)
Theorem seed_keeps_settings (k dflt : string) (d : db) :
  getConfig k dflt (snd (Config.seedDefaultAgentConfig d)) =
  match find (fun kv => String.eqb (fst kv) k) (config d) with
  | Some (_, v) => v
  | None => getConfig k dflt (with_config (fun _ => Config.default_config) d)
  end.
Proof.
  unfold getConfig, Config.seedDefaultAgentConfig, modify, with_config. cbn [snd config].
  rewrite find_seed. destruct (find _ (config d)) as [[a v]|]; reflexivity.
Qed.

Lemma find_overwrite (o : list (string * string)) (key value k : string) :
  find (fun kv => String.eqb (fst kv) k)
    (map (fun kv => if String.eqb (fst kv) key then (key, value) else kv) o) =
  if String.eqb key k
  then option_map (fun _ => (key, value)) (find (fun kv => String.eqb (fst kv) k) o)
  else find (fun kv => String.eqb (fst kv) k) o.
Proof.
  induction o as [|[a v] o IH]; simpl.
  - destruct (String.eqb key k); reflexivity.
  - destruct (String.eqb key k) eqn:Ek.
    + apply String.eqb_eq in Ek. subst k.
      destruct (String.eqb_spec a key) as [->|Ha]; simpl; rewrite ?String.eqb_refl;
        [reflexivity|].
      apply String.eqb_neq in Ha. rewrite Ha. exact IH.
    + destruct (String.eqb_spec a key) as [->|Ha]; simpl; [rewrite Ek; exact IH|].
      destruct (String.eqb a k); [reflexivity|exact IH].
Qed.

Lemma lookup_obj_assign (o : list (string * string)) (key value k : string) :
  Config.js_lookup (Config.obj_assign o key value) k =
  if String.eqb key "__proto__" then Config.js_lookup o k
  else if String.eqb key k then Some value else Config.js_lookup o k.
Proof.
  unfold Config.obj_assign, Config.js_lookup.
  destruct (String.eqb key "__proto__"); [reflexivity|].
  destruct (existsb _ o) eqn:He.
  - rewrite find_overwrite. destruct (String.eqb_spec key k) as [<-|Hne]; [|reflexivity].
    apply existsb_exists in He as (r & Hin & Hr).
    destruct (find _ o) eqn:Hf; [reflexivity|].
    exfalso. assert (Hn := find_none _ _ Hf r Hin). congruence.
  - rewrite find_app. destruct (find _ o) as [p|] eqn:Hf; simpl.
    + destruct (String.eqb_spec key k) as [<-|]; [|reflexivity].
      exfalso. apply find_some in Hf as [Hin Hp].
      assert (Hx : existsb (fun kv => String.eqb (fst kv) key) o = true)
        by (apply existsb_exists; eauto). congruence.
    + destruct (String.eqb key k); reflexivity.
Qed.

Lemma lookup_fold_proto (l acc : list (string * string)) :
  Config.js_lookup (fold_left (fun o kv => Config.obj_assign o (fst kv) (snd kv)) l acc)
    "__proto__" = Config.js_lookup acc "__proto__".
Proof.
  revert acc. induction l as [|[a v] l IH]; intros acc; simpl; [reflexivity|].
  rewrite IH, lookup_obj_assign.
  destruct (String.eqb_spec a "__proto__"); reflexivity.
Qed.

Lemma lookup_fold_other (l acc : list (string * string)) (k : string) :
  NoDup (map fst l) -> k <> "__proto__" ->
  Config.js_lookup (fold_left (fun o kv => Config.obj_assign o (fst kv) (snd kv)) l acc) k =
  match find (fun kv => String.eqb (fst kv) k) l with
  | Some (_, v) => Some v
  | None => Config.js_lookup acc k
  end.
Proof.
  intros Hnd Hk. revert acc. induction l as [|[a v] l IH]; intros acc; simpl; [reflexivity|].
  inversion Hnd as [|? ? Hnot Hnd']; subst.
  rewrite IH by exact Hnd'. rewrite lookup_obj_assign.
  destruct (String.eqb_spec a k) as [->|Ha].
  - apply String.eqb_neq in Hk. rewrite Hk.
    destruct (find _ l) eqn:Hf; [|reflexivity].
    exfalso. apply find_some in Hf as [Hin Hp]. destruct p as [a' v']. simpl in Hp.
    apply String.eqb_eq in Hp. subst a'. apply Hnot. apply (in_map fst) in Hin. exact Hin.
  - destruct (String.eqb a "__proto__"); reflexivity.
Qed.

(** [getAllConfig] reports every stored setting with the value [getConfig]
    reads, except a row with key [__proto__]: the assignment
    [result['__proto__'] = value] does not create a property, so that row is
    missing from the object although [getConfig('__proto__')] returns it.
    (Stored keys are unique: [key] is the primary key.) *)
Theorem getAllConfig_lookup (d : db) (k : string) :
  NoDup (map fst (config d)) ->
  Config.js_lookup (Config.getAllConfig d) k =
  if String.eqb k "__proto__" then None
  else option_map snd (find (fun kv => String.eqb (fst kv) k) (config d)).
Proof.
  intros Hnd. unfold Config.getAllConfig.
  destruct (String.eqb_spec k "__proto__") as [->|Hk].
  - rewrite lookup_fold_proto. reflexivity.
  - rewrite lookup_fold_other by assumption.
    destruct (find _ (config d)) as [[a v]|]; reflexivity.
Qed.

End ConfigProofs.
(** ** The task loop *)
Module TaskLoopProofs.
Import Orchestrator.
Section TaskLoopProofs.

Context {Payload : Type} `{JSONCodec Payload}.
Context {Result : Type} `{ResultCodec Result}.

(** The columns [processTask] never writes. *)
Definition same_identity (t' t : task) : Prop :=
  t_id t' = t_id t /\ t_prospect_id t' = t_prospect_id t /\
  t_agent_type t' = t_agent_type t /\ t_scheduled_for t' = t_scheduled_for t /\
  t_payload t' = t_payload t /\ t_created_at t' = t_created_at t.

Lemma processTask_identity (reg : @registry Payload Result) (tnow : Z) (t : task) :
  same_identity (fst (processTask reg tnow t)) t.
Proof.
  unfold processTask, same_identity.
  destruct (getAgent reg (t_agent_type t)); [|simpl; tauto].
  destruct (decodePayload (t_payload t)); [|destruct (t_attempts t <? 3); simpl; tauto].
  destruct (a (t_prospect_id t) p); [destruct (t_attempts t <? 3)|]; simpl; tauto.
Qed.

(** No back-off: a due task that [processTask] puts back to 'pending'
    (a failed attempt with attempts below 3) keeps its id, prospect, agent
    type, payload, creation time and [scheduled_for], so it is due again
    at every later drain, starting with the very next tick. *)
Theorem retry_due_again (reg : @registry Payload Result) (tnow tnow' : Z) (t : task) :
  is_due tnow t = true -> tnow <= tnow' ->
  t_status (fst (processTask reg tnow t)) = "pending" ->
  is_due tnow' (fst (processTask reg tnow t)) = true /\
  same_identity (fst (processTask reg tnow t)) t.
Proof.
  intros Hdue Hle Hst.
  pose proof (processTask_identity reg tnow t) as Hid.
  split; [|exact Hid].
  destruct Hid as (_ & _ & _ & Hsch & _).
  unfold is_due in *. rewrite Hst, Hsch. simpl.
  apply andb_prop in Hdue as [_ Hs].
  destruct (t_scheduled_for t) as [x|]; [|reflexivity].
  apply Z.leb_le in Hs. apply Z.leb_le. lia.
Qed.









End TaskLoopProofs.
End TaskLoopProofs.
(** ** StageAgent.execute *)
Module StageAgentProofs.
Import AgentProofs StageProofs Stage.

Lemma transitionTo_cases (p : prospect) (target : string) (reason : option string) (d : db)
    (r : js_result transition_result) (d' : db) :
  transitionTo p target reason d = (r, d') ->
  (d' = d /\ ((exists msg, r = Thrown msg) \/ (exists msg, r = Returned (TransitionFailed msg)))) \/
  (exists msg, r = Returned (TransitionDone (p_stage p) target msg)) \/
  (target = "contacted" /\ r = Thrown "Invalid time value").
Proof.
  unfold transitionTo. intros Ht.
  bind_step Ht; unfold lift in Hm.
  { injection Hm as _ <-. left. split; [reflexivity|]. left. eauto. }
  injection Hm as _ <-. destruct a; cbn [negb] in Ht.
  - bind_step Ht; unfold update_stage, modify in Hm; [discriminate|]. injection Hm as <- <-.
    bind_step Ht; unfold log_activity, modify in Hm; [discriminate|]. injection Hm as <- <-.
    bind_step Ht.
    + apply handleStageEffects_throw in Hm as (Hc & -> & _). right. right. auto.
    + unfold ret in Ht. injection Ht as <- <-. right. left. eauto.
  - unfold ret in Ht. injection Ht as <- <-. left. split; [reflexivity|]. right. eauto.
Qed.

Lemma lookup_stageMap_not_contacted (cls target : string) :
  StageAgent.lookup_stageMap cls = StageAgent.OwnStage target -> target <> "contacted".
Proof.
  unfold StageAgent.lookup_stageMap.
  destruct (find _ StageAgent.stageMap) as [[k v]|] eqn:E;
    [|destruct (in_strings cls object_prototype_keys); discriminate].
  intros H. injection H as <-. apply find_some in E as [Hin _].
  destruct Hin as [E1|[E1|[E1|[E1|[]]]]]; injection E1 as _ <-; discriminate.
Qed.

(** [StageAgent.handleClassification] only moves a prospect forward in
    [stageOrder], or to 'lost', and only to the stage [stageMap] gives for
    the label; when it does not move the prospect (unmapped label, an
    Object.prototype key such as "constructor", a target not ahead of the
    stage, or a transition refused) it writes nothing. *)
Theorem stage_classification_forward (p : prospect) (cls : string) (d : db)
    (r : js_result transition_result) (d' : db) :
  StageAgent.handleClassification p cls d = (r, d') ->
  (d' = d /\ ((exists msg, r = Thrown msg) \/ (exists msg, r = Returned (TransitionFailed msg)))) \/
  (exists target msg, StageAgent.lookup_stageMap cls = StageAgent.OwnStage target /\
     (target = "lost" \/
      StageAgent.indexOf (p_stage p) stageOrder < StageAgent.indexOf target stageOrder) /\
     r = Returned (TransitionDone (p_stage p) target msg)).
Proof.
  unfold StageAgent.handleClassification, StageAgent.already_past. intros Hh. cbv zeta in Hh.
  destruct (StageAgent.lookup_stageMap cls) as [target|name|] eqn:Hl.
  - destruct (String.eqb_spec target "lost") as [Hlost|Hlost];
      [rewrite orb_true_l in Hh | rewrite orb_false_l in Hh].
    + apply transitionTo_cases in Hh as [Hh|[(msg & ->)|(Hc & _)]]; [left; exact Hh| |
        exfalso; exact (lookup_stageMap_not_contacted _ _ Hl Hc)].
      right. exists target, msg. split; [reflexivity|split; [left; exact Hlost|reflexivity]].
    + destruct (StageAgent.indexOf (p_stage p) stageOrder <? StageAgent.indexOf target stageOrder)
        eqn:Hlt.
      * apply transitionTo_cases in Hh as [Hh|[(msg & ->)|(Hc & _)]]; [left; exact Hh| |
          exfalso; exact (lookup_stageMap_not_contacted _ _ Hl Hc)].
        right. exists target, msg. apply Z.ltb_lt in Hlt.
        split; [reflexivity|split; [right; exact Hlt|reflexivity]].
      * unfold ret in Hh. injection Hh as <- <-. left. split; [reflexivity|]. right. eauto.
  - unfold ret in Hh. injection Hh as <- <-. left. split; [reflexivity|]. right. eauto.
  - unfold ret in Hh. injection Hh as <- <-. left. split; [reflexivity|]. right. eauto.
Qed.




Lemma interested_stage (p : prospect) (summary : string) (d : db) :
  find_prospect (p_id p) d = Some p ->
  exists p', find_prospect (p_id p)
               (snd (Response.handleClassification p "INTERESTED" summary d)) = Some p' /\
             p_stage p' = "responded".
Proof.
  intros Hf. unfold Response.handleClassification, Response.updateProspectStage,
    Response.createNotification. rewrite String.eqb_refl.
  destruct (String.eqb_spec (p_stage p) "responded") as [Hs|Hs].
  - exists p. split; [|exact Hs]. exact Hf.
  - exists (set_stage "responded" p). split; [|reflexivity].
    unfold find_prospect. simpl. rewrite find_id_update by reflexivity.
    rewrite Z.eqb_refl. unfold find_prospect in Hf. rewrite Hf. reflexivity.
Qed.

(** For an INTERESTED reply, [ResponseAgent.handleClassification] queues a
    stage_manager task with the payload [{ classification,
    suggestedStage: 'responded' }]; by then it has itself moved the prospect
    to 'responded', so that task's [StageAgent.execute] always answers the
    invalid transition "responded" to "responded" and writes nothing: the
    hand-off never advances the prospect towards a meeting. *)
Theorem interested_handoff_fails (p : prospect) (summary : string) (events : list string)
    (d : db) :
  find_prospect (p_id p) d = Some p ->
  let d1 := snd (Response.handleClassification p "INTERESTED" summary d) in
  In ("stage_manager", p_id p) (queued d1) /\
  StageAgent.execute (p_id p) (StageAgent.mkPayload (Some "INTERESTED") (Some "responded") None)
    events d1 =
  (Returned (StageAgent.Transition (TransitionFailed
     ("Invalid transition from " ++ dq ++ "responded" ++ dq ++ " to " ++ dq ++ "responded"
        ++ dq))), d1).
Proof.
  intros Hf d1. split.
  - subst d1. unfold Response.handleClassification, Response.updateProspectStage,
      Response.createNotification. rewrite String.eqb_refl.
    destruct (String.eqb (p_stage p) "responded"); simpl; apply in_or_app; right; left;
      reflexivity.
  - destruct (interested_stage p summary d Hf) as (p' & Hf' & Hs). fold d1 in Hf'.
    unfold StageAgent.execute. rewrite bind_get_eq, Hf'. simpl.
    unfold transitionTo. rewrite Hs. reflexivity.
Qed.

End StageAgentProofs.
(** ** ResponseAgent.execute *)
Module ResponseAgentProofs.
Import AgentProofs.

Lemma handleClassification_no_throw (p : prospect) (cls summary : string) (d d' : db)
    (msg : string) :
  Response.handleClassification p cls summary d <> (Thrown msg, d').
Proof.
  unfold Response.handleClassification, Response.updateProspectStage,
    Response.createNotification.
  repeat match goal with
         | |- context [if ?c then _ else _] => destruct c
         end; discriminate.
Qed.

(** [ResponseAgent.execute] either returns or throws before its first
    write: an unknown prospect, a missing or empty [responseText], or a
    failed LLM call leave the database exactly as it was. *)
Theorem response_execute_throw_no_write
    (classifyResponse : string -> prospect -> list campaign -> js_result ResponseAgent.classification)
    (pid : Z) (responseText subject : option string) (d : db) (msg : string) (d' : db) :
  ResponseAgent.execute classifyResponse pid responseText subject d = (Thrown msg, d') ->
  d' = d.
Proof.
  intros H. remember (Thrown msg) as r0 eqn:E.
  unfold ResponseAgent.execute in H. rewrite bind_get_eq in H.
  destruct (find_prospect pid d) as [p|]; [|injection H as _ <-; reflexivity].
  destruct (truthy_str responseText) as [text|]; [|injection H as _ <-; reflexivity].
  cbv zeta in H.
  destruct (negb (String.eqb (getConfig "auto_classify" "true" d) "true")).
  { unfold bind, log_activity, modify, ret in H. injection H as H1 _. subst. discriminate. }
  bind_step H; unfold lift in Hm.
  { injection Hm as _ <-. reflexivity. }
  injection Hm as _ <-.
  bind_step H; unfold log_activity, modify in Hm; [discriminate|]. injection Hm as <- <-.
  bind_step H; [exfalso; eapply handleClassification_no_throw; exact Hm|].
  unfold ret in H. injection H as H1 _. subst. discriminate.
Qed.

(** With auto_classify set to anything but 'true', [ResponseAgent.execute]
    on a reply with text never consults the classifier: it answers
    PENDING_REVIEW and its only write is one response_pending_review
    activity; stage, sequence and automation stay as they were. *)
Theorem response_pending_review
    (classifyResponse : string -> prospect -> list campaign -> js_result ResponseAgent.classification)
    (pid : Z) (text : string) (subject : option string) (d : db) (p : prospect) :
  find_prospect pid d = Some p -> text <> "" ->
  getConfig "auto_classify" "true" d <> "true" ->
  ResponseAgent.execute classifyResponse pid (Some text) subject d =
  (Returned ResponseAgent.PendingReview,
   with_activities (fun l => app l [mkActivity pid "response_pending_review"
      ("Reply pending manual review: " ++ dq ++ ResponseAgent.template_str subject ++ dq)]) d).
Proof.
  intros Hf Ht Hc. unfold ResponseAgent.execute. rewrite bind_get_eq, Hf.
  apply String.eqb_neq in Ht.
  replace (truthy_str (Some text)) with (Some text)
    by (unfold truthy_str; cbv beta iota; rewrite Ht; reflexivity).
  cbv zeta.
  apply String.eqb_neq in Hc. rewrite Hc. reflexivity.
Qed.

End ResponseAgentProofs.
(** ** The PATCH /:id/stage route *)
Module RouteProofs.
Import AgentProofs StageProofs.

(** PATCH /:id/stage stores any non-empty stage string: no transition is
    checked (it can take 'won' back to 'new', or store a stage outside
    [stageOrder]) and none of the Stage Agent's effects runs: sequences,
    automation, campaigns, notifications and queued tasks stay as they were;
    a stage_change activity is logged only when the stage differs. *)
Theorem patch_stage_unchecked (pid : Z) (st : string) (d : db) (p : prospect) :
  find_prospect pid d = Some p -> st <> "" ->
  let d' := snd (Routes.patch_stage pid (Some st) d) in
  fst (Routes.patch_stage pid (Some st) d) = Returned (Routes.HttpProspect (Some (set_stage st p))) /\
  stage_of pid d' = Some st /\
  automation_of pid d' = automation_of pid d /\
  sequences d' = sequences d /\ campaigns d' = campaigns d /\
  notifications d' = notifications d /\ queued d' = queued d /\
  activities d' =
    app (activities d)
      (if String.eqb st (p_stage p) then []
       else [mkActivity pid "stage_change"
               ("Stage changed from " ++ dq ++ p_stage p ++ dq ++ " to " ++ dq ++ st ++ dq)]).
Proof.
  intros Hf Hst d'. subst d'. unfold Routes.patch_stage. rewrite bind_get_eq, Hf.
  apply String.eqb_neq in Hst.
  replace (truthy_str (Some st)) with (Some st)
    by (unfold truthy_str; cbv beta iota; rewrite Hst; reflexivity).
  assert (Hfind : forall (g : list activity -> list activity),
    find_prospect pid (with_activities g
      (with_prospects (map (fun q => if Z.eqb (p_id q) pid then set_stage st q else q)) d)) =
    Some (set_stage st p)).
  { intros g. unfold find_prospect. simpl. rewrite find_id_update by reflexivity.
    rewrite Z.eqb_refl. unfold find_prospect in Hf. rewrite Hf. reflexivity. }
  assert (Hfind0 :
    find_prospect pid (with_prospects (map (fun q => if Z.eqb (p_id q) pid then set_stage st q else q)) d) =
    Some (set_stage st p)).
  { exact (Hfind (fun l => l)). }
  destruct (String.eqb_spec st (p_stage p)) as [He|He]; cbn [negb].
  - unfold bind, update_stage, modify, ret, get. simpl.
    rewrite Hfind0. unfold stage_of, automation_of. rewrite Hfind0, Hf. simpl.
    repeat split; try reflexivity. rewrite app_nil_r. reflexivity.
  - unfold bind, update_stage, log_activity, modify, ret, get. simpl.
    rewrite Hfind. unfold stage_of, automation_of. rewrite Hfind, Hf. simpl.
    repeat split; reflexivity.
Qed.

End RouteProofs.
Module InboundProofs.
Import AgentProofs StageProofs.

(** A reply from the address of a stored prospect always pauses that
    prospect's follow-up sequence and queues one response_classifier task
    for it, whatever its stage; the stage becomes 'responded' only from
    'new' or 'contacted', and automation and campaigns are left as they were. *)
Theorem inbound_reply_pauses_and_queues (fromEmail subject : string) (d : db) (p : prospect) :
  find_prospect_by_email fromEmail d = Some p -> find_prospect (p_id p) d = Some p ->
  let d' := snd (inbound_reply fromEmail subject d) in
  fst (inbound_reply fromEmail subject d) = Returned tt /\
  queued d' = app (queued d) [("response_classifier", p_id p)] /\
  paused_of (p_id p) d' = option_map (fun _ => 1) (find_sequence (p_id p) d) /\
  stage_of (p_id p) d' =
    Some (if in_strings (p_stage p) ["new"; "contacted"] then "responded" else p_stage p) /\
  automation_of (p_id p) d' = Some (p_automation_enabled p) /\
  campaigns d' = campaigns d.
Proof.
  intros He Hf d'. unfold d'. clear d'.
  unfold inbound_reply. rewrite bind_get_eq, He.
  unfold find_prospect in Hf.
  destruct (in_strings (p_stage p) ["new"; "contacted"]) eqn:Hin; simpl.
  - split; [reflexivity|]. split; [reflexivity|].
    split; [unfold paused_of, find_sequence; simpl; rewrite find_seq_update by reflexivity;
            rewrite Z.eqb_refl; destruct (find _ (sequences d)); reflexivity|].
    split; [unfold stage_of, find_prospect; simpl; rewrite find_id_update by reflexivity;
            rewrite Z.eqb_refl, Hf; reflexivity|].
    split; [unfold automation_of, find_prospect; simpl; rewrite find_id_update by reflexivity;
            rewrite Z.eqb_refl, Hf; reflexivity|].
    reflexivity.
  - split; [reflexivity|]. split; [reflexivity|].
    split; [unfold paused_of, find_sequence; simpl; rewrite find_seq_update by reflexivity;
            rewrite Z.eqb_refl; destruct (find _ (sequences d)); reflexivity|].
    split; [unfold stage_of, find_prospect; simpl; rewrite Hf; reflexivity|].
    split; [unfold automation_of, find_prospect; simpl; rewrite Hf; reflexivity|].
    reflexivity.
Qed.

End InboundProofs.

Module FollowUpProofs.
Import AgentProofs StageProofs.




Lemma in_due (d : db) (s : sequence) (p : prospect) :
  In (s, p) (Schedule.getDueFollowUps d) ->
  In s (sequences d) /\ In p (prospects d) /\ s_prospect_id s = p_id p /\
  Schedule.due_row (now d) s p = true.
Proof.
  unfold Schedule.getDueFollowUps. intros H. apply in_flat_map in H as (s0 & Hs0 & H).
  apply in_map_iff in H as (p0 & Heq & Hp0). injection Heq as <- <-.
  apply filter_In in Hp0 as [Hp0 Hc]. apply andb_true_iff in Hc as [Hid Hdue].
  apply Z.eqb_eq in Hid. auto.
Qed.

(** For a row [getDueFollowUps] reports due, with unique prospect ids
    and one sequence per prospect, the FollowUp agent run on the row's
    prospect never skips and never takes the max-steps path: it either
    throws (a collaborator failed) or returns a campaign outcome for
    follow-up number step + 1. *)
Theorem due_row_followup_runs (e : env) (d : db) (s : sequence) (p : prospect)
    (r : js_result outcome) (d' : db) :
  NoDup (map p_id (prospects d)) -> NoDup (map s_prospect_id (sequences d)) ->
  In (s, p) (Schedule.getDueFollowUps d) ->
  FollowUp.execute e (s_prospect_id s) d = (r, d') ->
  (exists msg, r = Thrown msg) \/
  exists cid subj sent err, r = Returned (CampaignOutcome cid (Some (s_step s + 1)) subj sent err).
Proof.
  intros Hnp Hns Hin Hex.
  destruct (in_due d s p Hin) as (Hs & Hp & Hid & Hdue).
  unfold Schedule.due_row in Hdue.
  apply andb_true_iff in Hdue as [Hdue Hst]. apply andb_true_iff in Hdue as [Hdue Hau].
  apply andb_true_iff in Hdue as [Hdue Hlt]. apply andb_true_iff in Hdue as [Hpa _].
  apply String.eqb_eq in Hst. apply Z.eqb_eq in Hau. apply Z.eqb_eq in Hpa.
  apply Z.ltb_lt in Hlt.
  assert (Hfp : find_prospect (s_prospect_id s) d = Some p).
  { unfold find_prospect. destruct (find _ (prospects d)) as [p'|] eqn:E.
    - apply find_some in E as [Hp' Hq]. apply Z.eqb_eq in Hq. f_equal.
      apply (SequenceProofs.NoDup_map_inj p_id (prospects d)); auto. congruence.
    - exfalso. eapply find_none in E; [|exact Hp]. rewrite Hid, Z.eqb_refl in E. discriminate. }
  assert (Hfs : find_sequence (s_prospect_id s) d = Some s).
  { unfold find_sequence. destruct (find _ (sequences d)) as [s'|] eqn:E.
    - apply find_some in E as [Hs' Hq]. apply Z.eqb_eq in Hq. f_equal.
      apply (SequenceProofs.NoDup_map_inj s_prospect_id (sequences d)); auto.
    - exfalso. eapply find_none in E; [|exact Hs]. rewrite Z.eqb_refl in E. discriminate. }
  unfold FollowUp.execute in Hex. rewrite bind_get_eq, Hfp in Hex.
  rewrite Hau, Hst in Hex. unfold int_falsy in Hex. cbn [Z.eqb negb String.eqb] in Hex.
  rewrite ?String.eqb_refl in Hex. cbn [negb] in Hex. rewrite Hfs, Hpa in Hex.
  cbn [Z.eqb negb] in Hex.
  replace (s_max_steps s <=? s_step s) with false in Hex by (symmetry; apply Z.leb_gt; lia).
  bind_step Hex; [left; eauto|].
  bind_step Hex; [left; eauto|].
  bind_step Hex; [left; eauto|].
  bind_step Hex; [left; eauto|].
  bind_step Hex; [left; eauto|].
  bind_step Hex; [left; eauto|].
  unfold ret in Hex. injection Hex as <- _. right. eauto.
Qed.

End FollowUpProofs.
Module DueTextProofs.
Import Schedule.

(** [str_le] skips a common prefix. *)
Lemma str_le_app (p a b : string) : str_le (p ++ a) (p ++ b) = str_le a b.
Proof.
  induction p as [|c p IH]; [reflexivity|]. simpl.
  rewrite Nat.ltb_irrefl, Nat.eqb_refl. exact IH.
Qed.

(** [str_le] skips an equal first character. *)
Lemma str_le_cons (c : ascii) (a b : string) : str_le (String c a) (String c b) = str_le a b.
Proof. exact (str_le_app (String c EmptyString) a b). Qed.

(** Every character [digits] writes is an ASCII digit; its first one in particular. *)
Lemma digits_head (n : nat) (v : Z) :
  exists c rest, digits (S n) v = String c rest /\ (48 <= nat_of_ascii c)%nat.
Proof.
  revert v. induction n as [|n IH]; intros v.
  - simpl. eexists _, _. split; [reflexivity|].
    rewrite nat_ascii_embedding; [lia|].
    pose proof (Z.mod_pos_bound v 10 ltac:(lia)). lia.
  - destruct (IH (v / 10)) as (c & rest & Hd & Hc).
    change (digits (S (S n)) v) with
      (digits (S n) (v / 10) ++ String (ascii_of_nat (Z.to_nat (v mod 10) + 48)) EmptyString).
    rewrite Hd. eexists _, _. split; [reflexivity|exact Hc].
Qed.

(** A smaller first character decides [str_le]. *)
Lemma str_le_head (x y : ascii) (a b : string) :
  (nat_of_ascii x < nat_of_ascii y)%nat -> str_le (String x a) (String y b) = true.
Proof. intros H. simpl. apply Nat.ltb_lt in H. rewrite H. reflexivity. Qed.

(** The calendar year of a time, as [date_time_parts] computes it. *)
Definition year_of (t : Z) : Z := let '(y, _, _) := civil_from_days (t / day) in y.

(** Same UTC day: the ISO text and datetime('now') agree up to the day and
    then have 'T' against ' '. *)
Lemma same_day_text (t tnow : Z) (iso nt : string) :
  t / day = tnow / day -> toISOString t = Returned iso -> sqlite_datetime tnow = Some nt ->
  str_le iso nt = false.
Proof.
  intros Hday Hi Hq. unfold toISOString, date_time_parts in Hi.
  unfold sqlite_datetime, date_time_parts in Hq. rewrite Hday in Hi.
  destruct (civil_from_days (tnow / day)) as [[y m] dd].
  cbv beta iota zeta in Hi, Hq.
  destruct (js_time_limit <? Z.abs t); [discriminate|].
  destruct ((0 <=? y) && (y <=? 9999)); [|discriminate].
  injection Hi as <-. injection Hq as <-.
  rewrite !str_le_cons. reflexivity.
Qed.

(** No follow-up row is ever due on the UTC day of its next_send_at: a row
    returned by [getDueFollowUps] always has its next_send_at on another day
    than the check's clock. *)
Theorem same_day_not_due (d : db) (s : sequence) (p : prospect) (t : Z) :
  In (s, p) (getDueFollowUps d) -> s_next_send_at s = Some t -> t / day <> now d / day.
Proof.
  intros Hin Hs Hday. apply FollowUpProofs.in_due in Hin. destruct Hin as (_ & _ & _ & Hdue).
  unfold due_row in Hdue. rewrite Hs in Hdue.
  destruct (sqlite_datetime (now d)) as [nt|] eqn:Hq.
  - destruct (toISOString t) as [msg|iso] eqn:Hi.
    + destruct (Z.eqb (s_paused s) 0); discriminate.
    + rewrite (same_day_text t (now d) iso nt Hday Hi Hq) in Hdue.
      destruct (Z.eqb (s_paused s) 0); discriminate.
  - destruct (Z.eqb (s_paused s) 0); discriminate.
Qed.

(** A follow-up whose next_send_at is a valid Date outside the years
    0..9999 is due at every check whose clock has a four-digit year: its ISO
    text starts with '+' or '-', which sorts before the leading digit of
    datetime('now'). *)
Theorem out_of_range_year_due (tnow : Z) (s : sequence) (p : prospect) (t : Z) (nt : string) :
  s_paused s = 0 -> s_step s < s_max_steps s -> p_automation_enabled p = 1 ->
  p_stage p = "contacted" -> s_next_send_at s = Some t -> Z.abs t <= js_time_limit ->
  ~ (0 <= year_of t <= 9999) -> sqlite_datetime tnow = Some nt ->
  due_row tnow s p = true.
Proof.
  intros Hp Hst Ha Hg Hs Hl Hy Hq. unfold due_row. rewrite Hs, Hq, Hp, Ha, Hg.
  assert (Hlt : (s_step s <? s_max_steps s) = true) by (apply Z.ltb_lt; exact Hst).
  rewrite Hlt. simpl.
  assert (Hn : exists c rest, nt = String c rest /\ (48 <= nat_of_ascii c)%nat).
  { unfold sqlite_datetime, date_time_parts in Hq.
    destruct (civil_from_days (tnow / day)) as [[y m] dd]. cbv beta iota zeta in Hq.
    destruct ((0 <=? y) && (y <=? 9999)); [|discriminate].
    destruct (digits_head 3 y) as (c & rest & Hd & Hc). rewrite Hd in Hq.
    injection Hq as <-. eexists _, _. split; [reflexivity|exact Hc]. }
  destruct Hn as (c & rest & -> & Hc).
  unfold toISOString, date_time_parts. unfold year_of in Hy.
  destruct (civil_from_days (t / day)) as [[y m] dd]. cbv beta iota zeta.
  assert (Hl' : (js_time_limit <? Z.abs t) = false) by (apply Z.ltb_ge; exact Hl).
  rewrite Hl'.
  assert (Hr : ((0 <=? y) && (y <=? 9999)) = false).
  { destruct (0 <=? y) eqn:H1, (y <=? 9999) eqn:H2; try reflexivity.
    apply Z.leb_le in H1, H2. exfalso. apply Hy. lia. }
  rewrite Hr. cbv beta iota.
  rewrite !andb_true_r.
  destruct (y <? 0); apply str_le_head; apply (Nat.lt_le_trans _ 48); try exact Hc;
    apply Nat.ltb_lt; reflexivity.
Qed.

End DueTextProofs.
Module NextDaysProofs.

Lemma rev_head_last {A} (l : list (option A)) :
  match rev l with v :: _ => v | [] => None end = last l None.
Proof.
  induction l as [|x l _] using rev_ind; [reflexivity|].
  rewrite rev_app_distr, last_last. reflexivity.
Qed.

Lemma num_or_nonzero (x : option Z) (y : Z) : y <> 0 -> num_or x y <> 0.
Proof.
  unfold num_or. destruct x as [v|]; [|auto]. destruct (Z.eqb_spec v 0); auto.
Qed.

(** The delay [daysArray[n] || daysArray[daysArray.length - 1] || 7] is
    never 0: a nonzero entry at index n is taken as it is (a negative
    configured value included); past the end of the array, or for a
    negative n, the last entry is used if it is a nonzero number, and 7
    otherwise. *)
Theorem next_days_cases (l : list (option Z)) (n : Z) :
  FollowUp.next_days l n <> 0 /\
  (forall v, 0 <= n -> nth_error l (Z.to_nat n) = Some (Some v) -> v <> 0 ->
     FollowUp.next_days l n = v) /\
  (n < 0 \/ (length l <= Z.to_nat n)%nat ->
     FollowUp.next_days l n = num_or (last l None) 7).
Proof.
  unfold FollowUp.next_days. rewrite rev_head_last.
  split; [apply num_or_nonzero; discriminate|]. split.
  - intros v Hn Hv Hnz. replace (n <? 0) with false by (symmetry; apply Z.ltb_ge; lia).
    rewrite Hv. simpl. apply Z.eqb_neq in Hnz. rewrite Hnz. simpl. rewrite Hnz. reflexivity.
  - intros [Hn|Hlen].
    + replace (n <? 0) with true by (symmetry; apply Z.ltb_lt; lia). reflexivity.
    + destruct (n <? 0); [reflexivity|].
      rewrite (proj2 (nth_error_None l (Z.to_nat n)) Hlen). reflexivity.
Qed.

End NextDaysProofs.
Module OutreachProofs.
Import AgentProofs StageProofs.

Lemma status_map_pids (cid : Z) (st : string) (t : option Z) (l : list campaign) :
  map c_prospect_id (map (fun c => if Z.eqb (c_id c) cid then set_campaign_status st t c else c) l)
  = map c_prospect_id l.
Proof.
  rewrite map_map. apply map_ext. intros c. destruct (Z.eqb (c_id c) cid); reflexivity.
Qed.

Lemma outreach_sendEmail_keeps (e : env) (p : prospect) (subj body : string) (cid : Z)
    (d : db) (r : js_result (bool * option string)) (d' : db) :
  Outreach.sendEmail e p subj body cid d = (r, d') ->
  config d' = config d /\ map c_prospect_id (campaigns d') = map c_prospect_id (campaigns d).
Proof.
  unfold Outreach.sendEmail.
  destruct (p_email p) as [addr|].
  2:{ intros H; injection H as _ <-. split; [reflexivity|apply status_map_pids]. }
  destruct (String.eqb addr "").
  { intros H; injection H as _ <-. split; [reflexivity|apply status_map_pids]. }
  destruct (negb (email_isReady e)).
  { intros H; injection H as _ <-. split; [reflexivity|apply status_map_pids]. }
  destruct (email_send e addr subj body) as [msg|res].
  { intros H; injection H as _ <-. split; [reflexivity|apply status_map_pids]. }
  destruct (negb (sr_success res)).
  { intros H; injection H as _ <-. split; [reflexivity|apply status_map_pids]. }
  destruct (String.eqb (p_stage p) "new");
    intros H; injection H as _ <-; split; (reflexivity || apply status_map_pids).
Qed.

Lemma count_pos (pid : Z) (l : list campaign) :
  In pid (map c_prospect_id l) ->
  (0 <? Z.of_nat (length (filter (fun c => Z.eqb (c_prospect_id c) pid) l))) = true.
Proof.
  intros H. apply Z.ltb_lt. apply in_map_iff in H as (c & Hc & Hin).
  assert (Hf : In c (filter (fun c => Z.eqb (c_prospect_id c) pid) l)).
  { apply filter_In. split; [exact Hin|]. apply Z.eqb_eq. exact Hc. }
  destruct (filter _ l); [destruct Hf|]. simpl. lia.
Qed.

(** What a run of [OutreachAgent.execute] that returned a campaign
    outcome has checked and written. *)
Lemma outreach_campaign_run (e : env) (pid : Z) (pl : Outreach.payload) (d : db)
    (r : js_result outcome) (d' : db) :
  Outreach.execute e pid pl d = (r, d') ->
  forall cid n subj sent err, r = Returned (CampaignOutcome cid n subj sent err) ->
  exists p, find_prospect pid d = Some p /\ int_falsy (p_automation_enabled p) = false /\
    getConfig "auto_outreach" "true" d = "true" /\ config d' = config d /\
    In pid (map c_prospect_id (campaigns d')).
Proof.
  intros Hex. unfold Outreach.execute in Hex. rewrite bind_get_eq in Hex.
  destruct (find_prospect pid d) as [p|] eqn:Hf.
  2:{ injection Hex as <- _. discriminate. }
  destruct (int_falsy (p_automation_enabled p)) eqn:Ha.
  { injection Hex as <- _. discriminate. }
  destruct (String.eqb_spec (getConfig "auto_outreach" "true" d) "true") as [Hc|Hc];
    simpl negb in Hex; cbv iota in Hex.
  2:{ injection Hex as <- _. discriminate. }
  destruct (0 <? _).
  { injection Hex as <- _. discriminate. }
  bind_step Hex; [intros; discriminate|].
  assert (Hd1 : d1 = d) by llm_state Hm. subst d1. clear Hm.
  bind_step Hex; rewrite insert_campaign_eq in Hm; [discriminate|].
  injection Hm as <- <-.
  bind_step Hex; unfold log_activity, modify in Hm; [discriminate|]. injection Hm as <- <-.
  bind_step Hex; [intros; discriminate|].
  apply outreach_sendEmail_keeps in Hm as [Hcf Hcp].
  assert (Hlast : config d' = config d1 /\ campaigns d' = campaigns d1).
  { destruct (fst a0).
    - destruct (initializeFollowUpSequence_keeps pid d1) as (Hr & Hk1 & Hk2).
      unfold bind in Hex. destruct (Outreach.initializeFollowUpSequence pid d1) as [r0 d2].
      simpl in Hr, Hk1, Hk2. subst r0. unfold ret in Hex. injection Hex as _ <-.
      split; assumption.
    - unfold bind, ret in Hex. injection Hex as _ <-. split; reflexivity. }
  destruct Hlast as [Hl1 Hl2].
  intros cid n subj sent err _. exists p. split; [reflexivity|]. split; [exact Ha|].
  split; [exact Hc|]. split; [rewrite Hl1, Hcf; reflexivity|].
  rewrite Hl2, Hcp. simpl. rewrite map_app. apply in_or_app. right. left. reflexivity.
Qed.

(** Once [OutreachAgent.execute] has returned a campaign outcome for a
    prospect (sent or not), every later run for that prospect, with any
    collaborators and payload, skips with 'Prospect already has email
    campaigns' and writes nothing, even when the first email was only a
    draft or failed. *)
Theorem outreach_runs_once (e : env) (pid : Z) (pl : Outreach.payload) (d : db)
    (cid : Z) (n : option Z) (subj : string) (sent : bool) (err : option string) (d1 : db) :
  Outreach.execute e pid pl d = (Returned (CampaignOutcome cid n subj sent err), d1) ->
  forall e' pl', Outreach.execute e' pid pl' d1 =
    (Returned (Skipped "Prospect already has email campaigns"), d1).
Proof.
  intros Hex e' pl'.
  destruct (outreach_campaign_run e pid pl d _ d1 Hex cid n subj sent err eq_refl)
    as (p & Hf & Ha & Hc & Hcf & Hin).
  assert (Hf1 : exists p1, find_prospect pid d1 = Some p1 /\
                           p_automation_enabled p1 = p_automation_enabled p).
  { destruct (outreach_prospects e pid pl d _ d1 Hex) as [Hp|(p0 & Hf0 & _ & Hp)].
    - exists p. split; [|reflexivity]. unfold find_prospect. rewrite Hp. exact Hf.
    - rewrite Hf in Hf0. injection Hf0 as <-. exists (set_stage "contacted" p).
      split; [|reflexivity]. unfold find_prospect. rewrite Hp.
      rewrite find_id_update by reflexivity. rewrite Z.eqb_refl.
      unfold find_prospect in Hf. rewrite Hf. reflexivity. }
  destruct Hf1 as (p1 & Hf1 & Ha1).
  unfold Outreach.execute. rewrite bind_get_eq, Hf1, Ha1, Ha.
  replace (getConfig "auto_outreach" "true" d1) with "true"
    by (unfold getConfig in *; rewrite Hcf; exact (eq_sym Hc)).
  cbn [negb String.eqb Ascii.eqb Bool.eqb]. rewrite (count_pos pid (campaigns d1) Hin).
  reflexivity.
Qed.

End OutreachProofs.
Module InitSequenceProofs.






End InitSequenceProofs.
Module TemplateProofs.

Definition min_step (acc : option template) (t : template) : option template :=
  match acc with
  | None => Some t
  | Some b => if tp_id t <? tp_id b then Some t else acc
  end.

Lemma min_fold (l : list template) (acc : option template) :
  match fold_left min_step l acc with
  | None => acc = None /\ l = []
  | Some t => (acc = Some t \/ In t l) /\ (forall b, acc = Some b -> tp_id t <= tp_id b) /\
              Forall (fun x => tp_id t <= tp_id x) l
  end.
Proof.
  revert acc. induction l as [|x l IH]; intros acc; simpl.
  - destruct acc as [t|]; [|split; reflexivity].
    split; [left; reflexivity|]. split; [intros b Hb; injection Hb as ->; lia|constructor].
  - specialize (IH (min_step acc x)).
    destruct (fold_left min_step l (min_step acc x)) as [t|].
    + destruct IH as (Hin & Hle & Hall).
      assert (Hx : tp_id t <= tp_id x /\ (forall b, acc = Some b -> tp_id t <= tp_id b) /\
                   (acc = Some t \/ x = t \/ In t l)).
      { unfold min_step in Hle, Hin. destruct acc as [b|].
        - destruct (Z.ltb_spec (tp_id x) (tp_id b)).
          + specialize (Hle x eq_refl).
            split; [exact Hle|]. split; [intros b' Hb'; injection Hb' as <-; lia|].
            destruct Hin as [Hin|Hin]; [injection Hin as ->; right; left; reflexivity|auto].
          + specialize (Hle b eq_refl).
            split; [lia|]. split; [intros b' Hb'; injection Hb' as <-; lia|].
            destruct Hin as [Hin|Hin]; auto.
        - specialize (Hle x eq_refl).
          split; [exact Hle|]. split; [discriminate|].
          destruct Hin as [Hin|Hin]; [injection Hin as ->; right; left; reflexivity|auto]. }
      destruct Hx as (Hx & Hb & Hin').
      split; [destruct Hin' as [H|[H|H]]; auto|].
      split; [exact Hb|]. constructor; assumption.
    + destruct IH as [Hn _]. unfold min_step in Hn. destruct acc; [destruct (_ <? _)|]; discriminate.
Qed.

Lemma min_id_template_fold (l : list template) :
  Outreach.min_id_template l = fold_left min_step l None.
Proof. reflexivity. Qed.

(** [selectBestTemplate] returns nothing only when there is no email
    template; what it returns is a stored template of type 'email'; and
    for a prospect with a website it is an email template of least id. *)
Theorem selectBestTemplate_spec (p : prospect) (d : db) :
  (Outreach.selectBestTemplate p d = None <->
     Forall (fun t => tp_type t <> "email") (templates d)) /\
  (forall t, Outreach.selectBestTemplate p d = Some t ->
     In t (templates d) /\ tp_type t = "email" /\
     (str_falsy (p_website_url p) = false ->
        forall t', In t' (templates d) -> tp_type t' = "email" -> tp_id t <= tp_id t')).
Proof.
  set (emails := filter (fun t => String.eqb (tp_type t) "email") (templates d)).
  assert (Hmin := min_fold emails None).
  assert (Hsel : Outreach.selectBestTemplate p d =
    match (if str_falsy (p_website_url p)
           then find (fun t => like_contains "No Website" (tp_name t)) emails else None) with
    | Some t => Some t | None => fold_left min_step emails None end) by reflexivity.
  assert (Hemp : emails = [] <-> Forall (fun t => tp_type t <> "email") (templates d)).
  { unfold emails. clear. induction (templates d) as [|t l IH]; simpl.
    - split; [constructor|reflexivity].
    - destruct (String.eqb_spec (tp_type t) "email") as [He|He].
      + split; [discriminate|]. intros H. inversion H; contradiction.
      + rewrite IH. split; [intros H; constructor; assumption|intros H; inversion H; assumption]. }
  assert (Hemail : forall t, In t emails <-> In t (templates d) /\ tp_type t = "email").
  { intros t. unfold emails. rewrite filter_In. split.
    - intros [H1 H2]. apply String.eqb_eq in H2. auto.
    - intros [H1 H2]. apply String.eqb_eq in H2. auto. }
  split.
  - rewrite <- Hemp. rewrite Hsel. split.
    + destruct (if str_falsy _ then _ else None) as [t|]; [discriminate|].
      destruct (fold_left min_step emails None); [discriminate|]. intros _. apply Hmin.
    + intros He. rewrite He. destruct (str_falsy _); reflexivity.
  - intros t Ht. rewrite Hsel in Ht.
    destruct (str_falsy (p_website_url p)) eqn:Hw.
    + destruct (find _ emails) as [t0|] eqn:Hf.
      * injection Ht as <-. apply find_some in Hf as [Hf _]. apply Hemail in Hf.
        split; [apply Hf|]. split; [apply Hf|]. discriminate.
      * rewrite Ht in Hmin. destruct Hmin as ([H|H] & _ & _); [discriminate|].
        apply Hemail in H. split; [apply H|]. split; [apply H|]. discriminate.
    + rewrite Ht in Hmin. destruct Hmin as ([H|H] & _ & Hall); [discriminate|].
      apply Hemail in H. split; [apply H|]. split; [apply H|].
      intros _ t' Hin' Hty'. rewrite Forall_forall in Hall. apply Hall, Hemail. auto.
Qed.

End TemplateProofs.

(** ** Witnesses of the properties proved above *)
Module ExtraWitnesses.
Import AgentProofs StageProofs Samples Stage.

Definition acme_new : prospect := sample_prospect (Some "owner@acme.test") "new" 1.
Definition acme_contacted : prospect := sample_prospect (Some "owner@acme.test") "contacted" 1.
Definition due_sequence : sequence := mkSequence 1 1 0 3 3 0 (Some 0) (Some 0).

Lemma getAllConfig_lookup_witness :
  let d := with_config (fun _ => Config.default_config) (sample_db [] []) in
  NoDup (map fst (config d)) /\
  Config.js_lookup (Config.getAllConfig d) "auto_outreach" =
  (if String.eqb "auto_outreach" "__proto__" then None
   else option_map snd (find (fun kv => String.eqb (fst kv) "auto_outreach") (config d))).
Proof.
  intros d.
  assert (H : NoDup (map fst (config d))).
  { vm_compute. repeat constructor; simpl; intros H; repeat destruct H as [H|H];
      discriminate || contradiction. }
  split; [exact H|]. exact (ConfigProofs.getAllConfig_lookup d "auto_outreach" H).
Defined.


Lemma stage_classification_forward_witness :
  let d := sample_db [acme_contacted] [] in
  let run := StageAgent.handleClassification acme_contacted "INTERESTED" d in
  run = (fst run, snd run) /\
  ((snd run = d /\ ((exists msg, fst run = Thrown msg) \/
                    (exists msg, fst run = Returned (TransitionFailed msg)))) \/
   (exists target msg, StageAgent.lookup_stageMap "INTERESTED" = StageAgent.OwnStage target /\
      (target = "lost" \/
       StageAgent.indexOf (p_stage acme_contacted) stageOrder < StageAgent.indexOf target stageOrder) /\
      fst run = Returned (TransitionDone (p_stage acme_contacted) target msg))).
Proof.
  intros d run.
  assert (H : run = (fst run, snd run)) by (vm_compute; reflexivity).
  split; [exact H|].
  exact (StageAgentProofs.stage_classification_forward acme_contacted "INTERESTED" d
           (fst run) (snd run) H).
Defined.


Lemma interested_handoff_fails_witness :
  let d := sample_db [acme_contacted] [] in
  let d1 := snd (Response.handleClassification acme_contacted "INTERESTED" "wants a call" d) in
  find_prospect (p_id acme_contacted) d = Some acme_contacted /\
  In ("stage_manager", p_id acme_contacted) (queued d1) /\
  StageAgent.execute (p_id acme_contacted)
    (StageAgent.mkPayload (Some "INTERESTED") (Some "responded") None) [] d1 =
  (Returned (StageAgent.Transition (TransitionFailed
     ("Invalid transition from " ++ dq ++ "responded" ++ dq ++ " to " ++ dq ++ "responded"
        ++ dq))), d1).
Proof.
  intros d d1.
  assert (Hf : find_prospect (p_id acme_contacted) d = Some acme_contacted) by reflexivity.
  split; [exact Hf|].
  exact (StageAgentProofs.interested_handoff_fails acme_contacted "wants a call" [] d Hf).
Defined.

Lemma response_execute_throw_no_write_witness :
  let d := sample_db [acme_contacted] [] in
  let classify := fun (_ : string) (_ : prospect) (_ : list campaign) =>
                    (Thrown "LLM unavailable" : js_result ResponseAgent.classification) in
  ResponseAgent.execute classify 1 (Some "Sounds good") None d = (Thrown "LLM unavailable", d) /\
  d = d.
Proof.
  intros d classify.
  assert (H : ResponseAgent.execute classify 1 (Some "Sounds good") None d =
              (Thrown "LLM unavailable", d)) by (vm_compute; reflexivity).
  split; [exact H|].
  exact (ResponseAgentProofs.response_execute_throw_no_write classify 1 (Some "Sounds good") None
           d "LLM unavailable" d H).
Defined.

Lemma response_pending_review_witness :
  let d := with_config (fun _ => [("auto_classify", "false")]) (sample_db [acme_contacted] []) in
  let classify := fun (_ : string) (_ : prospect) (_ : list campaign) =>
                    (Thrown "LLM unavailable" : js_result ResponseAgent.classification) in
  find_prospect 1 d = Some acme_contacted /\ "Sounds good" <> "" /\
  getConfig "auto_classify" "true" d <> "true" /\
  ResponseAgent.execute classify 1 (Some "Sounds good") (Some "Re: hello") d =
  (Returned ResponseAgent.PendingReview,
   with_activities (fun l => app l [mkActivity 1 "response_pending_review"
      ("Reply pending manual review: " ++ dq ++ ResponseAgent.template_str (Some "Re: hello")
         ++ dq)]) d).
Proof.
  intros d classify.
  assert (Hf : find_prospect 1 d = Some acme_contacted) by reflexivity.
  assert (Ht : "Sounds good" <> "") by discriminate.
  assert (Hc : getConfig "auto_classify" "true" d <> "true") by (vm_compute; discriminate).
  split; [exact Hf|]. split; [exact Ht|]. split; [exact Hc|].
  exact (ResponseAgentProofs.response_pending_review classify 1 "Sounds good" (Some "Re: hello")
           d acme_contacted Hf Ht Hc).
Defined.

Lemma patch_stage_unchecked_witness :
  let d := sample_db [acme_new] [] in
  let d' := snd (Routes.patch_stage 1 (Some "won") d) in
  find_prospect 1 d = Some acme_new /\ "won" <> "" /\
  fst (Routes.patch_stage 1 (Some "won") d) =
    Returned (Routes.HttpProspect (Some (set_stage "won" acme_new))) /\
  stage_of 1 d' = Some "won".
Proof.
  intros d d'.
  assert (Hf : find_prospect 1 d = Some acme_new) by reflexivity.
  assert (Hs : "won" <> "") by discriminate.
  split; [exact Hf|]. split; [exact Hs|].
  destruct (RouteProofs.patch_stage_unchecked 1 "won" d acme_new Hf Hs) as (H1 & H2 & _).
  split; [exact H1|exact H2].
Defined.

Lemma inbound_reply_pauses_and_queues_witness :
  let d := sample_db [sample_prospect (Some "owner@acme.test") "won" 0] [sample_sequence 1 3 0] in
  let p := sample_prospect (Some "owner@acme.test") "won" 0 in
  let d' := snd (inbound_reply "owner@acme.test" "Re: hello" d) in
  find_prospect_by_email "owner@acme.test" d = Some p /\ find_prospect (p_id p) d = Some p /\
  queued d' = app (queued d) [("response_classifier", 1)] /\
  paused_of 1 d' = Some 1 /\ stage_of 1 d' = Some "won".
Proof.
  intros d p d'.
  assert (He : find_prospect_by_email "owner@acme.test" d = Some p) by reflexivity.
  assert (Hf : find_prospect (p_id p) d = Some p) by reflexivity.
  destruct (InboundProofs.inbound_reply_pauses_and_queues "owner@acme.test" "Re: hello" d p He Hf)
    as (_ & Hq & Hpa & Hst & _).
  split; [exact He|]. split; [exact Hf|]. split; [exact Hq|].
  split; [exact Hpa|exact Hst].
Defined.


Lemma due_row_followup_runs_witness :
  let d := mkDb [acme_contacted] [due_sequence] [] [] [] [] [] [] 1 day in
  let run := FollowUp.execute (sample_env true) (s_prospect_id due_sequence) d in
  NoDup (map p_id (prospects d)) /\ NoDup (map s_prospect_id (sequences d)) /\
  In (due_sequence, acme_contacted) (Schedule.getDueFollowUps d) /\
  run = (fst run, snd run) /\
  ((exists msg, fst run = Thrown msg) \/
   exists cid subj sent err,
     fst run = Returned (CampaignOutcome cid (Some (s_step due_sequence + 1)) subj sent err)).
Proof.
  intros d run.
  assert (Hp : NoDup (map p_id (prospects d))) by (repeat constructor; simpl; tauto).
  assert (Hs : NoDup (map s_prospect_id (sequences d))) by (repeat constructor; simpl; tauto).
  assert (Hin : In (due_sequence, acme_contacted) (Schedule.getDueFollowUps d))
    by (vm_compute; left; reflexivity).
  assert (H : run = (fst run, snd run)) by (vm_compute; reflexivity).
  split; [exact Hp|]. split; [exact Hs|]. split; [exact Hin|]. split; [exact H|].
  exact (FollowUpProofs.due_row_followup_runs (sample_env true) d due_sequence acme_contacted
           (fst run) (snd run) Hp Hs Hin H).
Defined.

Lemma outreach_runs_once_witness :
  let d := sample_db [acme_new] [] in
  let pl := Outreach.mkPayload None false in
  let d1 := snd (Outreach.execute (sample_env true) 1 pl d) in
  Outreach.execute (sample_env true) 1 pl d =
    (Returned (CampaignOutcome 1 None "Quick question" true None), d1) /\
  Outreach.execute (sample_env false) 1 (Outreach.mkPayload (Some 3) true) d1 =
    (Returned (Skipped "Prospect already has email campaigns"), d1).
Proof.
  intros d pl d1.
  assert (H : Outreach.execute (sample_env true) 1 pl d =
              (Returned (CampaignOutcome 1 None "Quick question" true None), d1))
    by (vm_compute; reflexivity).
  split; [exact H|].
  exact (OutreachProofs.outreach_runs_once (sample_env true) 1 pl d 1 None "Quick question" true
           None d1 H (sample_env false) (Outreach.mkPayload (Some 3) true)).
Defined.

Lemma retry_due_again_witness :
  let reg : @Orchestrator.registry (Json.json Z) outcome :=
    [("outreach", fun _ _ => Thrown "LLM request failed")] in
  let t := Orchestrator.queueTask 1 0 "outreach" 7 (None : option (Json.json Z)) None in
  Orchestrator.is_due 0 t = true /\ 0 <= 1 /\
  t_status (fst (Orchestrator.processTask reg 0 t)) = "pending" /\
  Orchestrator.is_due 1 (fst (Orchestrator.processTask reg 0 t)) = true.
Proof.
  intros reg t.
  assert (Hd : Orchestrator.is_due 0 t = true) by (vm_compute; reflexivity).
  assert (Hl : 0 <= 1) by lia.
  assert (Hs : t_status (fst (Orchestrator.processTask reg 0 t)) = "pending")
    by (vm_compute; reflexivity).
  split; [exact Hd|]. split; [exact Hl|]. split; [exact Hs|].
  exact (proj1 (TaskLoopProofs.retry_due_again reg 0 1 t Hd Hl Hs)).
Defined.

Lemma same_day_not_due_witness :
  let d := mkDb [acme_contacted] [due_sequence] [] [] [] [] [] [] 1 day in
  In (due_sequence, acme_contacted) (Schedule.getDueFollowUps d) /\
  s_next_send_at due_sequence = Some 0 /\ 0 / day <> now d / day.
Proof.
  intros d.
  assert (Hin : In (due_sequence, acme_contacted) (Schedule.getDueFollowUps d))
    by (vm_compute; left; reflexivity).
  assert (Hs : s_next_send_at due_sequence = Some 0) by reflexivity.
  split; [exact Hin|]. split; [exact Hs|].
  exact (DueTextProofs.same_day_not_due d due_sequence acme_contacted 0 Hin Hs).
Defined.

Lemma out_of_range_year_due_witness :
  let s := mkSequence 1 1 0 3 3 0 (Some 0) (Some 253402300800) in
  s_paused s = 0 /\ s_step s < s_max_steps s /\ p_automation_enabled acme_contacted = 1 /\
  p_stage acme_contacted = "contacted" /\ s_next_send_at s = Some 253402300800 /\
  Z.abs 253402300800 <= js_time_limit /\ ~ (0 <= DueTextProofs.year_of 253402300800 <= 9999) /\
  sqlite_datetime day = Some "1970-01-02 00:00:00" /\
  Schedule.due_row day s acme_contacted = true.
Proof.
  intros s.
  assert (H1 : s_paused s = 0) by reflexivity.
  assert (H2 : s_step s < s_max_steps s) by (simpl; lia).
  assert (H3 : p_automation_enabled acme_contacted = 1) by reflexivity.
  assert (H4 : p_stage acme_contacted = "contacted") by reflexivity.
  assert (H5 : s_next_send_at s = Some 253402300800) by reflexivity.
  assert (H6 : Z.abs 253402300800 <= js_time_limit) by (vm_compute; discriminate).
  assert (H7 : ~ (0 <= DueTextProofs.year_of 253402300800 <= 9999))
    by (assert (Hy : DueTextProofs.year_of 253402300800 = 10000) by (vm_compute; reflexivity);
        rewrite Hy; lia).
  assert (H8 : sqlite_datetime day = Some "1970-01-02 00:00:00") by (vm_compute; reflexivity).
  repeat (split; [assumption|]).
  exact (DueTextProofs.out_of_range_year_due day s acme_contacted 253402300800 _
           H1 H2 H3 H4 H5 H6 H7 H8).
Defined.

End ExtraWitnesses.
